(** * Test reorganisation script (scripts/reorganize_tests.py)

    A shallow embedding of [TestReorganizer]: classification of test files,
    generation of the standardised names, construction of the rename plan,
    and the execution of the plan on a file system (directory creation,
    backup, move, rewriting of include lines and CMake files, removal of
    empty directories).

    Beside it: [main] of that script, the file migration of
    scripts/migrate_tests.py ([TestMigrator], with [CMakeUpdater]) and the
    renaming script tests/rename_tests.py.  They run on the same file
    system and in the same monad.

    Conventions of the model.
    - Text is ASCII: [lower] and [capitalize] act on the letters A-Z / a-z
      and leave every other character alone.
    - Paths are POSIX paths.  A [path] is the list of the segments of an
      absolute path, so [str] of a path is the segments joined by a slash
      after the root; [Path] parses a string the way pathlib does (empty
      and single-dot segments vanish).
    - A file system is the list of its regular files (with their text) and
      the list of its directories.  The order of [files] is the order in
      which a directory walk reports them.  Every file is text that
      decodes; symbolic links are left out.
    - A file holds its bytes.  A file opened for reading in text mode is
      read with universal newlines ([read_newlines]: CR LF and CR become
      LF); text written in text mode goes to the file as it is, as on
      POSIX.
    - The dicts of the source are keyed by the strings of paths.  Here the
      keys are the paths themselves, and [str] is applied where the source
      works on the string.
    - An exception that the source does not catch ends the run; the disk
      keeps what was done until then. *)

From Stdlib Require Import String Ascii List Bool Arith Lia.
From Stdlib Require Import DecimalString Sorted.
Import ListNotations.
Local Open Scope list_scope.
Local Open Scope string_scope.

Set Implicit Arguments.

(** ** Python string operations *)

Module PyStr.

(** [s.startswith(p)] *)
Fixpoint startswith (p s : string) : bool :=
  match p, s with
  | EmptyString, _ => true
  | String _ _, EmptyString => false
  | String a p', String b s' => Ascii.eqb a b && startswith p' s'
  end.

(** [sub in s] *)
Fixpoint contains (sub s : string) : bool :=
  startswith sub s ||
  match s with
  | EmptyString => false
  | String _ s' => contains sub s'
  end.

(** [s.endswith(suf)] *)
Fixpoint endswith (suf s : string) : bool :=
  String.eqb suf s ||
  match s with
  | EmptyString => false
  | String _ s' => endswith suf s'
  end.

(** The scan of [s.replace(old, new)] for a non-empty [old]: leftmost
    occurrences that do not overlap.  [skip] counts the characters of the
    occurrence found last that are still to be passed over. *)
Fixpoint replace_scan (old new s : string) (skip : nat) : string :=
  match s with
  | EmptyString => EmptyString
  | String c s' =>
      match skip with
      | S k => replace_scan old new s' k
      | O =>
          if startswith old s
          then new ++ replace_scan old new s' (String.length old - 1)
          else String c (replace_scan old new s' 0)
      end
  end.

(** With an empty [old] Python puts [new] before every character and at
    the end. *)
Fixpoint replace_empty (new s : string) : string :=
  match s with
  | EmptyString => new
  | String c s' => new ++ String c (replace_empty new s')
  end.

(** [s.replace(old, new)] *)
Definition replace (old new s : string) : string :=
  match old with
  | EmptyString => replace_empty new s
  | String _ _ => replace_scan old new s 0
  end.

Definition is_upper (c : ascii) : bool :=
  let n := nat_of_ascii c in ((65 <=? n) && (n <=? 90))%nat.

Definition is_lower (c : ascii) : bool :=
  let n := nat_of_ascii c in ((97 <=? n) && (n <=? 122))%nat.

Definition lower_char (c : ascii) : ascii :=
  if is_upper c then ascii_of_nat (nat_of_ascii c + 32) else c.

Definition upper_char (c : ascii) : ascii :=
  if is_lower c then ascii_of_nat (nat_of_ascii c - 32) else c.

(** [s.lower()] *)
Fixpoint lower (s : string) : string :=
  match s with
  | EmptyString => EmptyString
  | String c s' => String (lower_char c) (lower s')
  end.

(** [s.capitalize()]: first character upper case, the rest lower case. *)
Definition capitalize (s : string) : string :=
  match s with
  | EmptyString => EmptyString
  | String c s' => String (upper_char c) (lower s')
  end.

(** [s.split(sep)] for a one-character separator; never the empty list. *)
Fixpoint split (sep : ascii) (s : string) : list string :=
  match s with
  | EmptyString => [EmptyString]
  | String c s' =>
      if Ascii.eqb c sep then EmptyString :: split sep s'
      else match split sep s' with
           | w :: ws => String c w :: ws
           | [] => [String c EmptyString]
           end
  end.

(** [''.join(ws)] *)
Definition join (ws : list string) : string := String.concat "" ws.

(** [s.rfind(c)], as the position of the last [c] if there is one. *)
Fixpoint rfind (c : ascii) (s : string) : option nat :=
  match s with
  | EmptyString => None
  | String a s' =>
      match rfind c s' with
      | Some i => Some (S i)
      | None => if Ascii.eqb a c then Some 0 else None
      end
  end.

(** [s[:n]] and [s[n:]] *)
Definition take (n : nat) (s : string) : string := String.substring 0 n s.

Fixpoint drop (n : nat) (s : string) : string :=
  match n, s with
  | O, _ => s
  | S _, EmptyString => EmptyString
  | S k, String _ s' => drop k s'
  end.

(** The last character, for comparing endings. *)
Fixpoint last_char (s : string) : option ascii :=
  match s with
  | EmptyString => None
  | String c EmptyString => Some c
  | String _ s' => last_char s'
  end.

(** [all(f(c) for c in s)] *)
Fixpoint all_chars (f : ascii -> bool) (s : string) : bool :=
  match s with
  | EmptyString => true
  | String c s' => f c && all_chars f s'
  end.

(** What reading in text mode makes of the bytes of a file: with the
    default [newline=None] every CR LF and every other CR becomes LF. *)
Fixpoint read_newlines (s : string) : string :=
  match s with
  | EmptyString => EmptyString
  | String c s' =>
      if Ascii.eqb c "013" then
        match s' with
        | String "010" s'' => String "010" (read_newlines s'')
        | _ => String "010" (read_newlines s')
        end
      else String c (read_newlines s')
  end.

Definition newline_char : string := String "010" EmptyString.

(** [repr(s)] of a str, as it stands in the text of an OSError and in the
    ValueError of [relative_to]: single quotes, or double quotes when [s]
    holds a single quote and no double one; the quote and the backslash
    escaped, and the control characters written as escapes.  Bytes from
    128 on stand for printable characters and stay. *)
Definition hex_digit (n : nat) : ascii :=
  nth n (list_ascii_of_string "0123456789abcdef") "0"%char.

Definition repr_char (quote c : ascii) : string :=
  if Ascii.eqb c quote || Ascii.eqb c "092" then
    String "092" (String c EmptyString)
  else if Ascii.eqb c "009" then String "092" "t"
  else if Ascii.eqb c "010" then String "092" "n"
  else if Ascii.eqb c "013" then String "092" "r"
  else
    let n := nat_of_ascii c in
    if (n <? 32)%nat || (n =? 127)%nat then
      String "092"
        (String "x" (String (hex_digit (n / 16))
                            (String (hex_digit (n mod 16)) EmptyString)))
    else String c EmptyString.

Definition repr (s : string) : string :=
  let quote :=
    if contains "'" s && negb (contains (String "034" EmptyString) s)
    then "034"%char else "'"%char in
  String quote
    (String.concat "" (map (repr_char quote) (list_ascii_of_string s))
     ++ String quote EmptyString).

End PyStr.

(** ** pathlib on POSIX *)

Module PathLib.

Definition path := list string.

Definition path_eqb (p q : path) : bool :=
  if list_eq_dec String.string_dec p q then true else false.

(** [str(p)] of an absolute path. *)
Definition str (p : path) : string :=
  match p with
  | [] => "/"
  | _ => String.concat "" (map (fun seg => "/" ++ seg) p)
  end.

(** [str(p)] of a relative path; the empty one prints as a dot. *)
Definition str_rel (p : path) : string :=
  match p with
  | [] => "."
  | _ => String.concat "/" p
  end.

(** [Path(s)] for an absolute [s]: split at the slashes, drop the empty
    segments and the single dots. *)
Definition Path (s : string) : path :=
  filter (fun seg => negb (String.eqb seg "" || String.eqb seg "."))
         (PyStr.split "/" s).

(** [p.name] *)
Definition name (p : path) : string := last p "".

(** [p.parent] *)
Definition parent (p : path) : path := removelast p.

(** [PurePath.suffix]: the part from the last dot on, unless that dot is
    the first or the last character of the name. *)
Definition suffix_of_name (n : string) : string :=
  match PyStr.rfind "." n with
  | Some i =>
      if ((0 <? i) && (i <? String.length n - 1))%nat then PyStr.drop i n else ""
  | None => ""
  end.

(** [PurePath.stem] *)
Definition stem_of_name (n : string) : string :=
  match PyStr.rfind "." n with
  | Some i =>
      if ((0 <? i) && (i <? String.length n - 1))%nat then PyStr.take i n else n
  | None => n
  end.

Definition suffix (p : path) : string := suffix_of_name (name p).
Definition stem (p : path) : string := stem_of_name (name p).

(** [p.with_suffix(suf)] for a valid [suf] (it starts with a dot and is
    not a lone dot), on a path that has a name. *)
Definition with_suffix (p : path) (suf : string) : path :=
  let n := name p in
  let old := suffix p in
  let n' :=
    if String.eqb old "" then n ++ suf
    else PyStr.take (String.length n - String.length old) n ++ suf in
  (parent p ++ [n'])%list.

(** [p.relative_to(base)]; [None] stands for the ValueError. *)
Fixpoint relative_to (base p : path) : option path :=
  match base, p with
  | [], _ => Some p
  | b :: base', s :: p' =>
      if String.eqb b s then relative_to base' p' else None
  | _ :: _, [] => None
  end.

End PathLib.

(** ** The file system *)

Module FS.
Import PathLib.

Record filesystem := mkFS {
  files : list (path * string);   (* regular files with their text *)
  dirs : list path                (* directories *)
}.

Fixpoint lookup (p : path) (l : list (path * string)) : option string :=
  match l with
  | [] => None
  | (q, c) :: l' => if path_eqb p q then Some c else lookup p l'
  end.

(** Replace the text at [p], or add [p] at the end. *)
Fixpoint store (p : path) (c : string) (l : list (path * string))
  : list (path * string) :=
  match l with
  | [] => [(p, c)]
  | (q, d) :: l' =>
      if path_eqb p q then (p, c) :: l' else (q, d) :: store p c l'
  end.

Definition remove (p : path) (l : list (path * string))
  : list (path * string) :=
  filter (fun e => negb (path_eqb p (fst e))) l.

Definition is_file (p : path) (fs : filesystem) : bool :=
  match lookup p (files fs) with Some _ => true | None => false end.

Definition is_dir (p : path) (fs : filesystem) : bool :=
  existsb (path_eqb p) (dirs fs).

(** [p.exists()] *)
Definition exists_ (p : path) (fs : filesystem) : bool :=
  is_file p fs || is_dir p fs.

(** [is_prefix a p]: [p] is [a] or lies below [a]. *)
Fixpoint is_prefix (a p : path) : bool :=
  match a, p with
  | [], _ => true
  | _ :: _, [] => false
  | x :: a', y :: p' => String.eqb x y && is_prefix a' p'
  end.

Definition below (a p : path) : bool :=
  is_prefix a p && negb (path_eqb a p).

(** All the non-empty prefixes of [p], shortest first. *)
Fixpoint ancestors_and_self (p : path) : list path :=
  match p with
  | [] => []
  | s :: p' => [s] :: map (cons s) (ancestors_and_self p')
  end.

(** The text of the OSError that [open(p)] raises for reading when [p] is
    no regular file. *)
Definition open_error (p : path) (fs : filesystem) : string :=
  if is_dir p fs then "[Errno 21] Is a directory: " ++ PyStr.repr (str p)
  else "[Errno 2] No such file or directory: " ++ PyStr.repr (str p).

End FS.

(** ** TestReorganizer *)

Module TestReorganizer.
Import PyStr PathLib FS.

Definition dict_get {V : Type} (k : string) (d : list (string * V)) (default : V) : V :=
  match find (fun e => String.eqb k (fst e)) d with
  | Some e => snd e
  | None => default
  end.

(** [d[k] = v] on a dict keyed by paths, in insertion order. *)
Fixpoint dict_set (k v : path) (d : list (path * path)) : list (path * path) :=
  match d with
  | [] => [(k, v)]
  | (k', v') :: d' =>
      if path_eqb k k' then (k', v) :: d' else (k', v') :: dict_set k v d'
  end.

(** [structure[k].append(x)] *)
Fixpoint bucket_append (k : string) (x : path)
    (st : list (string * list path)) : list (string * list path) :=
  match st with
  | [] => []
  | (k', xs) :: st' =>
      if String.eqb k k' then (k', (xs ++ [x])%list) :: st'
      else (k', xs) :: bucket_append k x st'
  end.

Definition framework_files : list string :=
  ["TestUtilities.cpp"; "TestUtilities.h"; "MockObject.cpp"; "MockObject.h"].

Definition is_framework_file (file : string) : bool :=
  existsb (String.eqb file) framework_files.

Definition is_source_name (file : string) : bool :=
  endswith ".cpp" file || endswith ".h" file.

(** The chain of tests at lines 53-73: the key of the bucket the file is
    appended to. *)
Definition categorize (rel_path : path) (file : string) : string :=
  if contains "unit" (str_rel rel_path) || contains "test_" file then
    if contains "search" (lower file) then "unit"
    else if contains "error" (lower file) then "unit"
    else if contains "qgraphics" (lower file) then "unit"
    else "unit"
  else if contains "integration" (str_rel rel_path) then "integration"
  else if contains "performance" (str_rel rel_path) then "performance"
  else if contains "controller" (str_rel rel_path) then "controller"
  else if contains "command" (str_rel rel_path) then "command"
  else if contains "factory" (str_rel rel_path) then "factory"
  else "misc".

Definition empty_structure : list (string * list path) :=
  [("unit", []); ("integration", []); ("performance", []);
   ("controller", []); ("command", []); ("factory", []); ("misc", [])].

Definition category_map : list (string * string) :=
  [("unit", "Unit"); ("integration", "Integration");
   ("performance", "Performance"); ("controller", "Controller");
   ("command", "Command"); ("factory", "Factory")].

Definition new_dirs_map : list (string * string) :=
  [("Unit", "Unit"); ("Integration", "Integration");
   ("Performance", "Performance"); ("Controller", "Controller");
   ("Command", "Command"); ("Factory", "Factory");
   ("Framework", "Framework"); ("Utilities", "Utilities")].

(** The clean-up of the stem, lines 83-84. *)
Definition clean_name (old_name : string) : string :=
  let clean_name := replace "Test" "" (replace "test_" "" old_name) in
  replace "_test" "" (replace "_new" "" clean_name).

(** The special names, lines 103-116. *)
Definition special_name (old_name pascal_case : string) : string :=
  let l := lower old_name in
  if contains "search" l && contains "integration" l then "SearchIntegration"
  else if contains "search" l && contains "engine" l then "SearchEngine"
  else if contains "search" l && contains "validation" l then "SearchValidation"
  else if contains "rendering" l && contains "performance" l then "RenderingPerformance"
  else if contains "state" l && contains "manager" l then "StateManager"
  else if contains "service" l && contains "locator" l then "ServiceLocator"
  else if contains "model" l && contains "factory" l then "ModelFactory"
  else pascal_case.

Definition generate_new_name (old_path : path) (category : string) : string :=
  let old_name := stem old_path in
  let extension := suffix old_path in
  let parts := split "_" (clean_name old_name) in
  let pascal_case := join (map capitalize parts) in
  let prefix := dict_get category category_map "Test" in
  let pascal_case := special_name old_name pascal_case in
  prefix ++ "_" ++ pascal_case ++ "_Test" ++ extension.

Section Reorganizer.

Variable tests_dir : path.
Variable dry_run : bool.

(** [os.walk(tests_dir)], flattened: the directory, relative to
    [tests_dir], and the name of every regular file below [tests_dir], in
    the order of the listing.  The [root] of the source is
    [tests_dir ++ rel]. *)
Definition walk (fs : filesystem) : list (path * string) :=
  flat_map
    (fun e =>
       match relative_to tests_dir (fst e) with
       | Some (s :: r) => [(removelast (s :: r), last (s :: r) "")]
       | _ => []
       end)
    (files fs).

Definition analyze_step (st : list (string * list path))
    (e : path * string) : list (string * list path) :=
  let (rel_path, file) := e in
  if is_source_name file then
    if is_framework_file file then st
    else
      let full_path := (tests_dir ++ rel_path ++ [file])%list in
      bucket_append (categorize rel_path file) full_path st
  else st.

Definition analyze_current_structure (fs : filesystem)
  : list (string * list path) :=
  fold_left analyze_step (walk fs) empty_structure.

(** The body of the inner loop of [generate_reorganization_plan]. *)
Definition plan_file (fs : filesystem) (category : string)
    (rename_map : list (path * path)) (file_path : path)
  : list (path * path) :=
  if contains "_new" (str file_path)
     && exists_ (Path (replace "_new" "" (str file_path))) fs
  then rename_map
  else
    let old_path := file_path in
    let new_name := generate_new_name file_path category in
    let target_dir :=
      dict_get (capitalize category) new_dirs_map (capitalize category) in
    let new_path := (tests_dir ++ [target_dir; new_name])%list in
    if negb (String.eqb (name old_path) new_name)
       || negb (path_eqb (parent old_path) (parent new_path))
    then dict_set old_path new_path rename_map
    else rename_map.

Definition plan_category (fs : filesystem) (rename_map : list (path * path))
    (entry : string * list path) : list (path * path) :=
  let (category, files) := entry in
  if String.eqb category "misc" then rename_map
  else fold_left (plan_file fs category) files rename_map.

(** The rename map of [generate_reorganization_plan]; the move map of the
    source stays empty. *)
Definition generate_reorganization_plan (fs : filesystem)
  : list (path * path) :=
  fold_left (plan_category fs) (analyze_current_structure fs) [].

(** *** Execution: a state monad over the disk, with a log and exceptions *)

(** What a run does, in order.  [Print] carries the argument of [print];
    the other events are the calls that touch the disk. *)
Inductive event : Type :=
| Print (line : string)
| Mkdir (p : path)
| Copy (src dst : path)
| Move (src dst : path)
| Read (p : path)
| Write (p : path) (text : string)
| Rmdir (p : path).

Record world := mkWorld {
  disk : filesystem;
  log : list event      (* oldest first *)
}.

(** A computation returns a value, or raises ([None]); the world it leaves
    behind is kept in both cases. *)
Definition io (A : Type) : Type := world -> option A * world.

Definition ret {A : Type} (a : A) : io A := fun w => (Some a, w).

Definition raise {A : Type} : io A := fun w => (None, w).

Definition bind {A B : Type} (m : io A) (f : A -> io B) : io B :=
  fun w =>
    match m w with
    | (Some a, w') => f a w'
    | (None, w') => (None, w')
    end.

Notation "x <- m ;; k" := (bind m (fun x => k))
  (at level 61, m at next level, right associativity).
Notation "m ;;; k" := (bind m (fun _ => k))
  (at level 61, right associativity).

Definition emit (e : event) : io unit :=
  fun w => (Some tt, mkWorld (disk w) (log w ++ [e])%list).

Definition print (line : string) : io unit := emit (Print line).

Definition get_disk : io filesystem := fun w => (Some (disk w), w).

Definition put_disk (fs : filesystem) : io unit :=
  fun w => (Some tt, mkWorld fs (log w)).

Definition when (b : bool) (m : io unit) : io unit :=
  if b then m else ret tt.

Fixpoint for_each {A : Type} (l : list A) (body : A -> io unit) : io unit :=
  match l with
  | [] => ret tt
  | x :: l' => body x ;;; for_each l' body
  end.

(** [p.mkdir(parents=True, exist_ok=True)]: raises when [p] or a directory
    above it is a regular file. *)
Definition mkdir_parents (p : path) : io unit :=
  fs <- get_disk ;;
  if existsb (fun a => is_file a fs) (ancestors_and_self p) then raise
  else
    let missing :=
      filter (fun a => negb (is_dir a fs)) (ancestors_and_self p) in
    put_disk (mkFS (files fs) (dirs fs ++ missing)%list) ;;;
    emit (Mkdir p).

(** [shutil.copy2(src, dst)]: [src] has to be a regular file; a [dst] that
    is a directory receives the copy under the name of [src]. *)
Definition copy2 (src dst : path) : io unit :=
  fs <- get_disk ;;
  match lookup src (files fs) with
  | None => raise
  | Some text =>
      let dst' := if is_dir dst fs then (dst ++ [name src])%list else dst in
      if is_dir dst' fs || path_eqb src dst' then raise
      else
        put_disk (mkFS (store dst' text (files fs)) (dirs fs)) ;;;
        emit (Copy src dst')
  end.

(** [shutil.move(src, dst)] of a regular file: into [dst] when that is a
    directory (an error if the name is taken there), else a rename that
    replaces a file at [dst]. *)
Definition move (src dst : path) : io unit :=
  fs <- get_disk ;;
  match lookup src (files fs) with
  | None => raise
  | Some text =>
      if is_dir dst fs then
        let real_dst := (dst ++ [name src])%list in
        if exists_ real_dst fs then raise
        else
          put_disk (mkFS (store real_dst text (remove src (files fs)))
                         (dirs fs)) ;;;
          emit (Move src real_dst)
      else
        put_disk (mkFS (store dst text (remove src (files fs)))
                       (dirs fs)) ;;;
        emit (Move src dst)
  end.

(** Writing [text] to the file opened with mode 'w'. *)
Definition write_text (p : path) (text : string) : io unit :=
  fs <- get_disk ;;
  put_disk (mkFS (store p text (files fs)) (dirs fs)) ;;;
  emit (Write p text).

Definition rmdir (p : path) : io unit :=
  fs <- get_disk ;;
  put_disk (mkFS (files fs)
                 (filter (fun d => negb (path_eqb p d)) (dirs fs))) ;;;
  emit (Rmdir p).

Definition dquote : string := String "034"%char EmptyString.
Definition newline : string := String "010"%char EmptyString.
Definition backslash : string := String "092"%char EmptyString.
Definition rule : string := String.concat "" (repeat "=" 80).

(** [tests_dir.rglob(pattern)]: everything below [tests_dir] whose name
    satisfies [matches].  Python takes the entries in the order the file
    system yields them, directory by directory; the model lists the files
    and then the directories, each in the order of the disk.  The paths
    are the same; the order shows only in the order of the events. *)
Definition rglob (matches : string -> bool) (fs : filesystem) : list path :=
  filter (fun p => below tests_dir p && matches (name p))
         (map fst (files fs) ++ dirs fs)%list.

Definition glob_cpp (n : string) : bool := endswith ".cpp" n.
Definition glob_h (n : string) : bool := endswith ".h" n.
Definition glob_cmake (n : string) : bool :=
  startswith "CMakeLists" n && endswith ".txt" n
  && (14 <=? String.length n)%nat.

(** The four include forms of one plan entry, lines 175-183. *)
Definition include_patterns (old_name new_name : string)
  : list (string * string) :=
  [ ("#include " ++ dquote ++ old_name ++ dquote,
     "#include " ++ dquote ++ new_name ++ dquote);
    ("#include <" ++ old_name ++ ">", "#include <" ++ new_name ++ ">");
    ("#include " ++ dquote ++ "../" ++ old_name ++ dquote,
     "#include " ++ dquote ++ "../" ++ new_name ++ dquote);
    ("#include " ++ dquote ++ "../../" ++ old_name ++ dquote,
     "#include " ++ dquote ++ "../../" ++ new_name ++ dquote) ].

Definition rewrite_entry (content : string) (entry : path * path) : string :=
  let (old_path, new_path) := entry in
  let old_name := name old_path in
  let new_name := name new_path in
  fold_left (fun content pat => replace (fst pat) (snd pat) content)
            (include_patterns old_name new_name) content.

(** The text [update_includes] computes from the text it read. *)
Definition rewrite_includes (rename_map : list (path * path))
    (content : string) : string :=
  fold_left rewrite_entry rename_map content.

Definition update_includes (file_path : path)
    (rename_map : list (path * path)) : io bool :=
  fs <- get_disk ;;
  match lookup file_path (files fs) with
  | None =>
      print ("Error updating includes in " ++ str file_path
             ++ ": " ++ open_error file_path fs) ;;;
      ret false
  | Some raw =>
      emit (Read file_path) ;;;
      let original_content := read_newlines raw in
      let content := rewrite_includes rename_map original_content in
      if negb (String.eqb content original_content) then
        when (negb dry_run) (write_text file_path content) ;;;
        ret true
      else ret false
  end.

(** One plan entry applied to the text of a CMake file, lines 208-219;
    [None] is the ValueError of [relative_to]. *)
Definition rewrite_cmake_entry (content : option string)
    (entry : path * path) : option string :=
  let (old_path, new_path) := entry in
  match content with
  | None => None
  | Some content =>
      let old_name := name old_path in
      let new_name := name new_path in
      let content := replace old_name new_name content in
      match relative_to tests_dir old_path, relative_to tests_dir new_path with
      | Some old_rel, Some new_rel =>
          Some (replace (replace backslash "/" (str_rel old_rel))
                        (replace backslash "/" (str_rel new_rel)) content)
      | _, _ => None
      end
  end.

Definition rewrite_cmake (rename_map : list (path * path))
    (content : string) : option string :=
  fold_left rewrite_cmake_entry rename_map (Some content).

(** The path of the first entry for which [relative_to] fails, and the
    text of its ValueError (Python 3.11). *)
Definition first_outside (rename_map : list (path * path)) : option path :=
  find (fun p => match relative_to tests_dir p with
                 | None => true
                 | Some _ => false
                 end)
       (flat_map (fun e => [fst e; snd e]) rename_map).

Definition subpath_error (rename_map : list (path * path)) : string :=
  match first_outside rename_map with
  | Some p =>
      PyStr.repr (str p) ++ " is not in the subpath of "
      ++ PyStr.repr (str tests_dir)
      ++ " OR one path is relative and the other is absolute."
  | None => ""
  end.

Definition update_cmake_file (rename_map : list (path * path))
    (cmake_file : path) : io unit :=
  fs <- get_disk ;;
  match lookup cmake_file (files fs) with
  | None =>
      print ("Error updating CMake file " ++ str cmake_file
             ++ ": " ++ open_error cmake_file fs)
  | Some raw =>
      emit (Read cmake_file) ;;;
      let original_content := read_newlines raw in
      match rewrite_cmake rename_map original_content with
      | None =>
          print ("Error updating CMake file " ++ str cmake_file
                 ++ ": " ++ subpath_error rename_map)
      | Some content =>
          when (negb (String.eqb content original_content))
            (when (negb dry_run) (write_text cmake_file content) ;;;
             print ("Updated CMake file: " ++ str cmake_file))
      end
  end.

Definition update_cmake_files (rename_map : list (path * path)) : io unit :=
  fs <- get_disk ;;
  for_each (rglob glob_cmake fs) (update_cmake_file rename_map).

(** The text of [p.relative_to(tests_dir)] inside a [print]. *)
Definition show_rel (p : path) : io string :=
  match relative_to tests_dir p with
  | Some r => ret (str_rel r)
  | None => raise
  end.

Definition new_dir_names : list string :=
  ["Unit"; "Integration"; "Performance"; "Controller"; "Command";
   "Factory"; "Framework"; "Utilities"].

Definition create_dir (dir_name : string) : io unit :=
  let dir_path := (tests_dir ++ [dir_name])%list in
  fs <- get_disk ;;
  when (negb (exists_ dir_path fs))
    (when (negb dry_run) (mkdir_parents dir_path) ;;;
     print ("Create directory: " ++ dir_name ++ "/")).

(** The body of the rename loop, lines 254-274. *)
Definition rename_entry (entry : path * path) : io unit :=
  let (old, new) := entry in
  fs <- get_disk ;;
  when (exists_ old fs)
    (print (newline ++ "Rename/Move:") ;;;
     from <- show_rel old ;;
     print ("  From: " ++ from) ;;;
     to <- show_rel new ;;
     print ("  To:   " ++ to) ;;;
     when (negb dry_run)
       (mkdir_parents (parent new) ;;;
        let backup_path := with_suffix old (suffix old ++ ".bak") in
        copy2 old backup_path ;;;
        move old new)).

Definition scan_includes (rename_map : list (path * path))
    (file_path : path) : io unit :=
  updated <- update_includes file_path rename_map ;;
  when updated
    (rel <- show_rel file_path ;; print ("  Updated: " ++ rel)).

(** [os.walk(tests_dir, topdown=False)] yields a directory after the
    directories below it, and its subdirectories in the order of the file
    system.  The model takes the deepest directories first, which also
    puts every directory after those below it: the directories removed
    are the same, the order of the removals among directories that do not
    contain one another may differ. *)
Fixpoint insert_deeper (d : path) (l : list path) : list path :=
  match l with
  | [] => [d]
  | e :: l' =>
      if (List.length e <? List.length d)%nat then d :: l
      else e :: insert_deeper d l'
  end.

Definition bottom_up (l : list path) : list path :=
  fold_right insert_deeper [] l.

(** [not any(dir_path.iterdir())] *)
Definition is_empty_dir (d : path) (fs : filesystem) : bool :=
  negb (existsb (fun p => path_eqb (parent p) d && negb (path_eqb p []))
                (map fst (files fs) ++ dirs fs)%list).

Definition remove_if_empty (dir_path : path) : io unit :=
  fs <- get_disk ;;
  when (is_empty_dir dir_path fs)
    (rmdir dir_path ;;;
     rel <- show_rel dir_path ;;
     print ("Removed empty directory: " ++ rel)).

Definition cleanup : io unit :=
  fs <- get_disk ;;
  for_each (bottom_up (filter (below tests_dir) (dirs fs))) remove_if_empty.

(** Lines 276-291: the include lines of every source file, then the CMake
    files. *)
Definition rewrite_pass (rename_map : list (path * path)) : io unit :=
  print (newline ++ rule) ;;;
  print "Updating include statements..." ;;;
  fs <- get_disk ;;
  for_each (rglob glob_cpp fs) (scan_includes rename_map) ;;;
  fs <- get_disk ;;
  for_each (rglob glob_h fs) (scan_includes rename_map) ;;;
  print (newline ++ rule) ;;;
  print "Updating CMake files..." ;;;
  update_cmake_files rename_map.

(** Lines 234-308: what [execute_reorganization] does with the plan. *)
Definition apply_plan (rename_map : list (path * path)) : io unit :=
  match rename_map with
  | [] => print "No files need reorganization"
  | _ :: _ =>
      print (newline ++ (if dry_run then "DRY RUN - " else "")
             ++ "Reorganization Plan:") ;;;
      print rule ;;;
      for_each new_dir_names create_dir ;;;
      for_each rename_map rename_entry ;;;
      rewrite_pass rename_map ;;;
      when (negb dry_run) cleanup ;;;
      print (newline ++ rule) ;;;
      if dry_run then
        print "DRY RUN COMPLETE - No files were modified" ;;;
        print "Run without --dry-run to apply changes"
      else
        print "Reorganization complete!" ;;;
        print "Backup files created with .bak extension"
  end.

Definition execute_reorganization : io unit :=
  fs <- get_disk ;;
  apply_plan (generate_reorganization_plan fs).

(** A run from a disk with an empty log. *)
Definition run (fs : filesystem) : option unit * world :=
  execute_reorganization (mkWorld fs []).

End Reorganizer.

End TestReorganizer.

(** ** main (scripts/reorganize_tests.py)

    The command line is parsed outside; [main] gets the tests directory and
    the dry-run flag and returns the exit code. *)

Module ReorganizeMain.
Import PyStr PathLib FS TestReorganizer.

Local Notation "x <- m ;; k" := (bind m (fun x => k))
  (at level 61, m at next level, right associativity).
Local Notation "m ;;; k" := (bind m (fun _ => k))
  (at level 61, right associativity).

Definition main (tests_dir : path) (dry_run : bool) : io nat :=
  fs <- get_disk ;;
  if negb (exists_ tests_dir fs) then
    print ("Error: Tests directory not found: " ++ str tests_dir) ;;;
    ret 1
  else
    execute_reorganization tests_dir dry_run ;;;
    ret 0.

End ReorganizeMain.

(** ** CMakeUpdater.update_cmake (scripts/migrate_tests.py)

    The rewriter of CMake files of the migration script, which keeps the
    old text in a backup before it writes the new one. *)

Module CMakeUpdater.
Import PyStr PathLib FS TestReorganizer.

Local Notation "x <- m ;; k" := (bind m (fun x => k))
  (at level 61, m at next level, right associativity).
Local Notation "m ;;; k" := (bind m (fun _ => k))
  (at level 61, right associativity).

Section Updater.

Variable dry_run : bool.

(** The three rewritings of the text, [_add_test_utilities] (when the text
    does not mention TestUtilities), [_update_test_executables] and
    [_add_dependencies], taken together; they work with regular
    expressions and are not spelled out here. *)
Variable rewrite_text : string -> string.

Definition check_mark : string :=
  String "226"%char (String "156"%char (String "147"%char EmptyString)).
Definition cross_mark : string :=
  String "226"%char (String "156"%char (String "151"%char EmptyString)).

Definition update_cmake (cmake_path : path) : io bool :=
  fs <- get_disk ;;
  match lookup cmake_path (files fs) with
  | None =>
      print (cross_mark ++ " Error updating CMake " ++ str cmake_path
             ++ ": " ++ open_error cmake_path fs) ;;;
      ret false
  | Some raw =>
      emit (Read cmake_path) ;;;
      let original_content := read_newlines raw in
      let content := rewrite_text original_content in
      if negb (String.eqb content original_content) then
        let backup_path := with_suffix cmake_path ".txt.bak" in
        if negb dry_run && is_dir backup_path fs then
          (* the backup cannot be opened for writing *)
          print (cross_mark ++ " Error updating CMake " ++ str cmake_path
                 ++ ": " ++ open_error backup_path fs) ;;;
          ret false
        else
          when (negb dry_run)
            (write_text backup_path original_content ;;;
             write_text cmake_path content) ;;;
          print (check_mark ++ " Updated CMake: " ++ str cmake_path) ;;;
          ret true
      else
        print "  No CMake changes needed" ;;;
        ret false
  end.

End Updater.

End CMakeUpdater.

(** ** The text rewriting of CMakeUpdater (scripts/migrate_tests.py)

    [_add_test_utilities] works on strings and is spelled out.  The
    substitutions with regular expressions stay parameters:
    [_update_test_executables], and in [_add_dependencies] the [re.sub]
    that is made for a dependency the text does not mention. *)

Module CMakeText.
Import PyStr.

Definition utilities_block : string :=
  newline_char
  ++ String.concat newline_char
       [ "# Test utilities and framework";
         "add_library(TestUtilities STATIC";
         "    TestUtilities.h";
         "    TestUtilities.cpp";
         "    MockObject.h";
         "    MockObject.cpp";
         ")";
         "";
         "target_link_libraries(TestUtilities";
         "    Qt5::Test";
         "    Qt5::Core";
         "    Qt5::Widgets";
         ")";
         "";
         "target_include_directories(TestUtilities PUBLIC";
         "    ${CMAKE_CURRENT_SOURCE_DIR}";
         ")" ]
  ++ newline_char.

(** [content[:pos] + block + content[pos:]] with [pos] the end of the
    first [marker] in [content]; [content] itself when there is none. *)
Fixpoint insert_after (marker block content : string) : string :=
  if startswith marker content
  then marker ++ block ++ drop (String.length marker) content
  else match content with
       | EmptyString => EmptyString
       | String c rest => String c (insert_after marker block rest)
       end.

Definition _add_test_utilities (content : string) : string :=
  insert_after "enable_testing()" utilities_block content.

Definition dependencies : list string :=
  ["ControllerLib"; "FactoryLib"; "ServiceLocator"; "StateManager";
   "EventBus"].

Section Regex.

Variable _update_test_executables : string -> string.

(** [re.sub(...)] of [_add_dependencies] for one dependency. *)
Variable link_dependency : string -> string -> string.

Definition _add_dependencies (content : string) : string :=
  fold_left (fun content dep =>
               if contains dep content then content
               else link_dependency dep content)
            dependencies content.

(** The text [update_cmake] computes from the text it read. *)
Definition rewrite_text (content : string) : string :=
  let content :=
    if negb (contains "TestUtilities" content)
    then _add_test_utilities content else content in
  let content := _update_test_executables content in
  _add_dependencies content.

End Regex.

End CMakeText.

(** ** The migration script (scripts/migrate_tests.py) *)

Module TestMigrator.
Import PyStr PathLib FS TestReorganizer.

Local Notation "x <- m ;; k" := (bind m (fun x => k))
  (at level 61, m at next level, right associativity).
Local Notation "m ;;; k" := (bind m (fun _ => k))
  (at level 61, right associativity).

(** The two counters of a [TestMigrator]. *)
Record counters := mkCounters {
  files_processed : nat;
  files_modified : nat
}.

(** The exceptions [migrate_file] can meet. *)
Inductive failure :=
  | NoSuchFile        (* open() of a path that is not there *)
  | IsADirectory      (* open() of a directory *)
  | TooManyValues.    (* unpacking into two names *)

(** [a, b = s] for a string [s]: the two characters of [s], when it has
    exactly two; a ValueError otherwise. *)
Definition unpack_pair (s : string) : option (string * string) :=
  match s with
  | String a (String b EmptyString) =>
      Some (String a EmptyString, String b EmptyString)
  | _ => None
  end.

(** The dict of [_migrate_wait_statements], in the order it is written. *)
Definition wait_replacements : list (string * string) :=
  [ ("QTest::qWait\((\d+)\)", "waitMs(\1)");
    ("QThread::msleep\((\d+)\)", "waitMs(\1)");
    ("QThread::sleep\((\d+)\)", "waitMs(\1 * 1000)");
    ("QCoreApplication::processEvents\(\)", "processEvents()") ].

(** ['test*.cpp'] and ['*Test.cpp'] *)
Definition glob_test_prefix (n : string) : bool :=
  startswith "test" n && endswith ".cpp" n && (8 <=? String.length n)%nat.
Definition glob_test_suffix (n : string) : bool := endswith "Test.cpp" n.

Definition str_of_nat (n : nat) : string :=
  NilZero.string_of_uint (Nat.to_uint n).

Section Migrator.

Variable dry_run : bool.

(** The rewritings that work with regular expressions are not spelled
    out; [re_sub pattern repl content] stands for [re.sub]. *)
Variable _migrate_includes : string -> string.
Variable _migrate_base_class : string -> string.
Variable _migrate_setup_teardown : string -> string.
Variable _migrate_assertions : string -> string.
Variable _migrate_service_usage : string -> string.
Variable re_sub : string -> string -> string -> string.

(** [str(e)] of the exception caught for a path. *)
Variable describe : failure -> path -> string.

(** The loop of [_migrate_wait_statements] goes over the dict itself, that
    is over its keys, and unpacks each key into [pattern, replacement];
    [None] is the ValueError of a key that is not two characters long. *)
Fixpoint wait_loop (keys : list string) (content : string) : option string :=
  match keys with
  | [] => Some content
  | key :: keys' =>
      match unpack_pair key with
      | Some (pattern, replacement) =>
          wait_loop keys' (re_sub pattern replacement content)
      | None => None
      end
  end.

Definition _migrate_wait_statements (content : string) : option string :=
  wait_loop (map fst wait_replacements) content.

(** The [finally] clause. *)
Definition count_processed (c : counters) : counters :=
  mkCounters (S (files_processed c)) (files_modified c).

Definition report_error (filepath : path) (e : failure) : io unit :=
  print (CMakeUpdater.cross_mark ++ " Error migrating " ++ str filepath
         ++ ": " ++ describe e filepath).

(** [migrate_file]; the counters of [self] go in and come out. *)
Definition migrate_file (filepath : path) (c : counters)
  : io (bool * counters) :=
  fs <- get_disk ;;
  match lookup filepath (files fs) with
  | None =>
      report_error filepath
        (if is_dir filepath fs then IsADirectory else NoSuchFile) ;;;
      ret (false, count_processed c)
  | Some raw =>
      emit (Read filepath) ;;;
      let original_content := read_newlines raw in
      let content := _migrate_includes original_content in
      let content := _migrate_base_class content in
      let content := _migrate_setup_teardown content in
      let content := _migrate_assertions content in
      let content := _migrate_service_usage content in
      match _migrate_wait_statements content with
      | None =>
          report_error filepath TooManyValues ;;;
          ret (false, count_processed c)
      | Some content =>
          if negb (String.eqb content original_content) then
            let backup_path := with_suffix filepath ".cpp.bak" in
            if negb dry_run && is_dir backup_path fs then
              (* the backup cannot be opened for writing *)
              print (CMakeUpdater.cross_mark ++ " Error migrating "
                     ++ str filepath ++ ": "
                     ++ describe IsADirectory backup_path) ;;;
              ret (false, count_processed c)
            else
              when (negb dry_run)
                (write_text backup_path original_content ;;;
                 write_text filepath content) ;;;
              print (CMakeUpdater.check_mark ++ " Migrated: "
                     ++ str filepath) ;;;
              ret (true,
                   count_processed
                     (mkCounters (files_processed c) (S (files_modified c))))
          else
            print ("  No changes needed: " ++ str filepath) ;;;
            ret (false, count_processed c)
      end
  end.

(** The loop of [migrate_directory]. *)
Fixpoint migrate_all (test_files : list path) (c : counters) : io counters :=
  match test_files with
  | [] => ret c
  | filepath :: rest =>
      if contains "_new.cpp" (str filepath) then migrate_all rest c
      else
        r <- migrate_file filepath c ;;
        migrate_all rest (snd r)
  end.

Definition migrate_directory (directory : path) (c : counters)
  : io counters :=
  fs <- get_disk ;;
  let test_files :=
    (rglob directory glob_test_prefix fs
     ++ rglob directory glob_test_suffix fs)%list in
  print (newline ++ "Migrating tests in " ++ str directory) ;;;
  print ("Found " ++ str_of_nat (List.length test_files) ++ " test files") ;;;
  migrate_all test_files c.

End Migrator.

End TestMigrator.

(** ** The renaming script (tests/rename_tests.py) *)

Module RenameTests.
Import PyStr PathLib FS TestReorganizer.

Local Notation "x <- m ;; k" := (bind m (fun x => k))
  (at level 61, m at next level, right associativity).
Local Notation "m ;;; k" := (bind m (fun _ => k))
  (at level 61, right associativity).

Definition is_digit (c : ascii) : bool :=
  let n := nat_of_ascii c in ((48 <=? n) && (n <=? 57))%nat.

(** [re.sub("(.)([A-Z][a-z]+)", r"\1_\2", s)], read from left to right:
    a match is a character that is no newline, a capital after it and the
    small letters that follow, at least one; [in_run] says that the scan is
    inside the small letters of a match. *)
Fixpoint sub_word (in_run : bool) (s : string) : string :=
  match s with
  | EmptyString => EmptyString
  | String c s1 =>
      if in_run && is_lower c then String c (sub_word true s1)
      else
        match s1 with
        | String u (String l _ as s2) =>
            if negb (Ascii.eqb c "010") && is_upper u && is_lower l
            then String c (String "_" (String u (sub_word true s2)))
            else String c (sub_word false s1)
        | _ => String c (sub_word false s1)
        end
  end.

(** [re.sub("([a-z0-9])([A-Z])", r"\1_\2", s)] *)
Fixpoint sub_boundary (s : string) : string :=
  match s with
  | EmptyString => EmptyString
  | String a s1 =>
      match s1 with
      | String b _ =>
          if (is_lower a || is_digit a) && is_upper b
          then String a (String "_" (sub_boundary s1))
          else String a (sub_boundary s1)
      | EmptyString => String a EmptyString
      end
  end.

Definition camel_to_snake (name : string) : string :=
  if String.eqb name "smoke_test" then name
  else
    let s1 := sub_word false name in
    let s2 := sub_boundary s1 in
    lower s2.

(** The working tests and their new names. *)
Definition TEST_FILES_TO_RENAME : list (string * string) :=
  [ ("controller/ActionMapTest.cpp", "controller/action_map_test.cpp");
    ("controller/ApplicationControllerTest.cpp",
     "controller/application_controller_test.cpp");
    ("controller/ConfigurationManagerTest.cpp",
     "controller/configuration_manager_test.cpp");
    ("controller/DocumentControllerTest.cpp",
     "controller/document_controller_test.cpp");
    ("controller/EventBusTest.cpp", "controller/event_bus_test.cpp");
    ("controller/PageControllerTest.cpp", "controller/page_controller_test.cpp");
    ("controller/ServiceLocatorTest.cpp", "controller/service_locator_test.cpp");
    ("command/CommandManagerTest.cpp", "command/command_manager_test.cpp");
    ("command/DocumentCommandsTest.cpp", "command/document_commands_test.cpp");
    ("command/InitializationCommandTest.cpp",
     "command/initialization_command_test.cpp");
    ("command/NavigationCommandsTest.cpp",
     "command/navigation_commands_test.cpp");
    ("search/SmartEvictionPolicyTest.cpp",
     "search/smart_eviction_policy_test.cpp");
    ("logging/LoggingStubsTest.cpp", "logging/logging_stubs_test.cpp");
    ("factory/ModelFactoryTest.cpp", "factory/model_factory_test.cpp") ].

(** [tests_dir / rel] *)
Definition joinpath (tests_dir : path) (rel : string) : path :=
  (tests_dir ++ Path rel)%list.

Section Main.

(** The directory of the script. *)
Variable tests_dir : path.

(** One round of the loop of [main].  The entry at [old_full_path] is
    taken to be a regular file when it is there: [move] does not cover the
    move of a directory. *)
Definition rename_one (entry : string * string) : io unit :=
  let (old_path, new_path) := entry in
  let old_full_path := joinpath tests_dir old_path in
  let new_full_path := joinpath tests_dir new_path in
  fs <- get_disk ;;
  if exists_ old_full_path fs then
    print ("Renaming: " ++ old_path ++ " -> " ++ new_path) ;;;
    mkdir_parents (parent new_full_path) ;;;
    move old_full_path new_full_path
  else
    print ("Warning: " ++ old_path ++ " does not exist").

Definition main : io unit :=
  print ("Working in directory: " ++ str tests_dir) ;;;
  print (newline ++ "=== Step 1: Renaming test files ===") ;;;
  for_each TEST_FILES_TO_RENAME rename_one ;;;
  print (newline ++ "=== Renaming complete ===") ;;;
  print "Next steps:" ;;;
  print "1. Update CMakeLists.txt files" ;;;
  print "2. Update class names in source files" ;;;
  print "3. Update include statements" ;;;
  print "4. Test the build system".

End Main.

End RenameTests.

(** ** Notions used to state the properties *)

Module Notions.
Import PyStr PathLib FS TestReorganizer.

Definition category_keys : list string :=
  ["unit"; "integration"; "performance"; "controller"; "command";
   "factory"; "misc"].

(** The categories whose files are planned, in the order of the dict. *)
Definition planned_keys : list string :=
  ["unit"; "integration"; "performance"; "controller"; "command";
   "factory"].

(** The files that [analyze_current_structure] puts into a bucket, each
    with the key of its bucket, in the order of the walk. *)
Definition classify_entry (tests_dir : path) (e : path * string)
  : list (string * path) :=
  let (rel_path, file) := e in
  if is_source_name file && negb (is_framework_file file)
  then [(categorize rel_path file, (tests_dir ++ rel_path ++ [file])%list)]
  else [].

Definition classified (tests_dir : path) (fs : filesystem)
  : list (string * path) :=
  flat_map (classify_entry tests_dir) (walk tests_dir fs).

(** A structure given by the contents of its seven buckets. *)
Definition as_structure (f : string -> list path) : list (string * list path) :=
  map (fun k => (k, f k)) category_keys.

Definition select (k : string) (l : list (string * path)) : list path :=
  map snd (filter (fun e => String.eqb k (fst e)) l).

(** The bucket of a key in a structure. *)
Definition bucket (k : string) (st : list (string * list path)) : list path :=
  dict_get k st [].

(** The `_new` test of line 145. *)
Definition skipped (fs : filesystem) (file_path : path) : bool :=
  contains "_new" (str file_path)
  && exists_ (Path (replace "_new" "" (str file_path))) fs.

(** The destination computed at lines 150-154. *)
Definition target (tests_dir : path) (category : string) (file_path : path)
  : path :=
  (tests_dir ++ [dict_get (capitalize category) new_dirs_map
                          (capitalize category);
                 generate_new_name file_path category])%list.

(** The test of line 156. *)
Definition differs (tests_dir : path) (category : string) (file_path : path)
  : bool :=
  negb (String.eqb (name file_path) (generate_new_name file_path category))
  || negb (path_eqb (parent file_path)
                    (parent (target tests_dir category file_path))).

(** One turn of the inner loop of the plan builder, on a file and the key
    of its bucket. *)
Definition plan_step (tests_dir : path) (fs : filesystem)
    (rename_map : list (path * path)) (e : string * path)
  : list (path * path) :=
  let (category, file_path) := e in
  if skipped fs file_path then rename_map
  else if differs tests_dir category file_path
       then dict_set file_path (target tests_dir category file_path) rename_map
       else rename_map.

(** The files the plan builder goes through, bucket after bucket. *)
Definition planned (tests_dir : path) (fs : filesystem)
  : list (string * path) :=
  flat_map (fun k => map (pair k) (select k (classified tests_dir fs)))
           planned_keys.

(** The category of a file, from its path alone. *)
Definition category_of (tests_dir : path) (file_path : path) : string :=
  match relative_to tests_dir (parent file_path) with
  | Some rel => categorize rel (name file_path)
  | None => "misc"
  end.

(** [inv J m]: the computation [m] keeps [J], whether it returns or
    raises. *)
Definition inv {A : Type} (J : world -> Prop) (m : io A) : Prop :=
  forall w, J w -> J (snd (m w)).

(** The names the two rewriting passes open. *)
Definition rewritable (n : string) : bool :=
  glob_cpp n || glob_h n || glob_cmake n.

(** Events that leave the disk as it is. *)
Definition reads_or_prints (e : event) : Prop :=
  match e with
  | Print _ | Read _ => True
  | _ => False
  end.

(** Events on the paths one expects: files are copied and moved only from
    the keys of the plan, and read and written only under the names of the
    rewriting passes. *)
Definition expected_event (plan : list (path * path)) (e : event) : Prop :=
  match e with
  | Copy src _ | Move src _ => In src (map fst plan)
  | Read p | Write p _ => rewritable (name p) = true
  | _ => True
  end.

(** An invariant made of a property of the disk and a property of every
    event logged so far. *)
Definition keeps (D : filesystem -> Prop) (P : event -> Prop) (w : world)
  : Prop :=
  D (disk w) /\ Forall P (log w).

(** No two keys of a plan share their value. *)
Definition no_collision (plan : list (path * path)) : Prop :=
  forall k1 k2 v, In (k1, v) plan -> In (k2, v) plan -> k1 = k2.

(** Events of the rewriting passes: none of them makes a copy. *)
Definition rewriting_event (e : event) : Prop :=
  match e with
  | Print _ | Read _ | Write _ _ => True
  | _ => False
  end.

(** Is [e] a copy of the file [p]? *)
Definition copies (p : path) (e : event) : bool :=
  match e with
  | Copy src _ => path_eqb src p
  | _ => false
  end.

(** Is [e] a write to the file [p]? *)
Definition writes (p : path) (e : event) : bool :=
  match e with
  | Write q _ => path_eqb q p
  | _ => false
  end.

(** None of the include forms the plan looks for occurs in [text]. *)
Definition include_stable (plan : list (path * path)) (text : string) : Prop :=
  forall e pat,
    In e plan ->
    In pat (include_patterns (name (fst e)) (name (snd e))) ->
    contains (fst pat) text = false.

(** None of the old names and old relative paths of the plan occurs in
    [text]. *)
Definition cmake_stable (tests_dir : path) (plan : list (path * path))
    (text : string) : Prop :=
  forall e,
    In e plan ->
    contains (name (fst e)) text = false /\
    forall r, relative_to tests_dir (fst e) = Some r ->
              contains (replace backslash "/" (str_rel r)) text = false.

(** On the disk [fs] the rewriting passes find nothing to do: in the text
    they read from a source file below the tests directory none of the
    include forms of the plan occurs, and in the text they read from a
    CMake file none of the old names and old relative paths. *)
Definition stable_disk (tests_dir : path) (plan : list (path * path))
    (fs : filesystem) : Prop :=
  forall p raw,
    below tests_dir p = true -> lookup p (files fs) = Some raw ->
    (glob_cpp (name p) || glob_h (name p) = true ->
     include_stable plan (read_newlines raw)) /\
    (glob_cmake (name p) = true ->
     cmake_stable tests_dir plan (read_newlines raw)).

(** The four tokens [clean_name] deletes, in the order of its passes. *)
Definition noise_tokens : list string := ["test_"; "Test"; "_new"; "_test"].

(** A character with which no token starts and which continues no token
    across the end of another: none of t, T, e, n and the underscore. *)
Definition plain_char (c : ascii) : bool :=
  negb (existsb (Ascii.eqb c) ["t"; "T"; "_"; "e"; "n"]%char).

Definition plain (s : string) : bool := all_chars plain_char s.

(** The deletions of [toks] applied to [s] one after the other. *)
Definition strip_in_order (toks : list string) (s : string) : string :=
  fold_left (fun acc tok => replace tok "" acc) toks s.

(** The text [u] followed by the pieces of [l], each a token with the text
    after it; of the tokens only those that [keep] lets through are
    there. *)
Definition render (keep : string -> bool) (u : string)
    (l : list (string * string)) : string :=
  u ++ String.concat ""
         (map (fun tv => (if keep (fst tv) then fst tv else "") ++ snd tv) l).

Definition with_tokens (u : string) (l : list (string * string)) : string :=
  render (fun _ => true) u l.

Definition without_tokens (u : string) (l : list (string * string))
  : string :=
  render (fun _ => false) u l.

(** Every piece is one of the four tokens followed by plain text, and
    that text is empty in the last piece only. *)
Fixpoint marked (l : list (string * string)) : Prop :=
  match l with
  | [] => True
  | (tok, v) :: l' =>
      In tok noise_tokens /\ plain v = true /\ (v = "" -> l' = []) /\
      marked l'
  end.

(** The start of what follows a token: nothing, or a plain character. *)
Definition plain_start (s : string) : Prop :=
  match s with
  | EmptyString => True
  | String c _ => plain_char c = true
  end.

(** Stripping that does not look at the case of the letters. *)
Definition strips_any_case : Prop :=
  forall s s', lower s = lower s' ->
               lower (clean_name s) = lower (clean_name s').

(** Stripping that keeps every lower-case word of the stem other than the
    markers themselves. *)
Definition keeps_longer_words : Prop :=
  forall s w, In w (split "_" s) -> lower w = w ->
              w <> "test" -> w <> "new" ->
              contains w (clean_name s) = true.

(** The scenario of the controller test as the specification tells it,
    on the tree [fs]: the category, the planned path, the include line of
    the moved file, the old path and the backup. *)
Definition scenario_holds (tests_dir : path) (fs : filesystem) : Prop :=
  let old := (tests_dir ++ ["controller"; "ActionMapTest.cpp"])%list in
  let new := (tests_dir ++ ["Controller"; "Controller_ActionMap_Test.cpp"])%list in
  let fs' := disk (snd (run tests_dir false fs)) in
  categorize ["controller"] "ActionMapTest.cpp" = "controller" /\
  In (old, new) (generate_reorganization_plan tests_dir fs) /\
  (exists text,
      lookup new (files fs') = Some text /\
      contains ("#include " ++ dquote ++ "Controller_ActionMap_Test.h" ++ dquote)
               text = true) /\
  exists_ old fs' = false /\
  is_file (with_suffix old (suffix old ++ ".bak")) fs' = true.

(** The order in which the directory words are tried. *)
Definition priority : list string :=
  ["unit"; "integration"; "performance"; "controller"; "command"; "factory"].

(** The rule of the word [k]: the word occurs in the relative directory
    path; for "unit" also: [test_] occurs in the file name. *)
Definition rule (rel_path : path) (file : string) (k : string) : bool :=
  contains k (str_rel rel_path)
  || (String.eqb k "unit" && contains "test_" file).

(** The path [execute_reorganization] backs a file up to. *)
Definition backup_of (p : path) : path := with_suffix p (suffix p ++ ".bak").

(** A move or a copy of the log [l] has put a file at [p]. *)
Definition made (l : list event) (p : path) : Prop :=
  exists src, In (Move src p) l \/ In (Copy src p) l.

(** Every file of the disk is one of [S] or one the log has made. *)
Definition accounted (S : path -> Prop) (w : world) : Prop :=
  forall p, is_file p (disk w) = true -> S p \/ made (log w) p.


End Notions.

(** ** Sample trees *)

Module Trees.
Import PyStr PathLib FS TestReorganizer.

Definition root : path := ["repo"; "tests"].

Definition at_root (rel : list string) : path := (root ++ rel)%list.

(** Two unit tests of one component, in the two naming styles. *)
Definition two_styles : filesystem :=
  mkFS [ (at_root ["unit"; "test_foo.cpp"], "int a;");
         (at_root ["unit"; "FooTest.cpp"], "int b;") ]
       [ root; at_root ["unit"] ].

(** The controller test of the scenario, with the header it includes. *)
Definition action_map : filesystem :=
  mkFS [ (at_root ["controller"; "ActionMapTest.cpp"],
          "#include " ++ dquote ++ "ActionMapTest.h" ++ dquote ++ newline
          ++ "void run();" ++ newline);
         (at_root ["controller"; "ActionMapTest.h"], "class ActionMapTest;") ]
       [ root; at_root ["controller"] ].

(** The same test alone. *)
Definition action_map_alone : filesystem :=
  mkFS [ (at_root ["controller"; "ActionMapTest.cpp"],
          "#include " ++ dquote ++ "ActionMapTest.h" ++ dquote ++ newline
          ++ "void run();" ++ newline) ]
       [ root; at_root ["controller"] ].

(** A unit test header, a file outside every category that includes it,
    and a CMake file that lists it. *)
Definition with_client : filesystem :=
  mkFS [ (at_root ["unit"; "test_foo.h"], "class Foo;");
         (at_root ["tools"; "main.cpp"],
          "#include " ++ dquote ++ "test_foo.h" ++ dquote ++ newline);
         (at_root ["CMakeLists.txt"], "add_library(foo test_foo.h)") ]
       [ root; at_root ["unit"]; at_root ["tools"] ].

(** A unit test whose generated name contains [test_]. *)
Definition latest : filesystem :=
  mkFS [ (at_root ["unit"; "latest.cpp"], "int a;") ]
       [ root; at_root ["unit"] ].


(** A one-letter unit test and the CMake file that lists it. *)
Definition listed_in_cmake : filesystem :=
  mkFS [ (at_root ["unit"; "t.cpp"], "int t;");
         (at_root ["CMakeLists.txt"], "add_executable(t_test unit/t.cpp)") ]
       [ root; at_root ["unit"] ].

(** Two headers, the name of one being the generated name of the other,
    and a client of the second. *)
Definition chained_names : filesystem :=
  mkFS [ (at_root ["unit"; "Unit_Latest_Test.h"], "class A;");
         (at_root ["unit"; "latest.h"], "class B;");
         (at_root ["tools"; "main.cpp"],
          "#include " ++ dquote ++ "latest.h" ++ dquote) ]
       [ root; at_root ["unit"]; at_root ["tools"] ].

End Trees.

(** ** Notions used to state the further properties *)

Module Triples.
Import PyStr PathLib FS TestReorganizer.

(** [hoare P m Q]: started in a world with [P], the computation [m]
    returns, with a value and in a world that satisfy [Q]. *)
Definition hoare {A : Type} (P : world -> Prop) (m : io A)
    (Q : A -> world -> Prop) : Prop :=
  forall w, P w -> exists a w', m w = (Some a, w') /\ Q a w'.

(** An invariant that does not look at the log. *)
Definition on_disk (D : filesystem -> Prop) (w : world) : Prop := D (disk w).

(** [steady I m]: from a world with [I] the computation [m] returns and
    leaves a world with [I]. *)
Definition steady {A : Type} (I : world -> Prop) (m : io A) : Prop :=
  hoare I m (fun _ => I).

End Triples.

Module MoreNotions.
Import PyStr PathLib FS TestReorganizer Notions.

(** No underscore in [s]. *)
Definition underscore_free (s : string) : bool :=
  all_chars (fun c => negb (Ascii.eqb c "_")) s.

(** The stem the generator puts between the prefix and [_Test]. *)
Definition generated_stem (old_path : path) : string :=
  special_name (stem old_path)
    (join (map capitalize (split "_" (clean_name (stem old_path))))).

(** The two disks hold the same files and directories, in whatever
    order. *)
Definition same_tree (fs fs' : filesystem) : Prop :=
  (forall p text, In (p, text) (files fs) <-> In (p, text) (files fs')) /\
  (forall d, In d (dirs fs) <-> In d (dirs fs')).

(** The disk [fs] has the files and directories of [fs0], and the text of
    every file that is not one the rewriting passes open. *)
Definition texts_only (tests_dir : path) (fs0 fs : filesystem) : Prop :=
  map fst (files fs) = map fst (files fs0) /\
  dirs fs = dirs fs0 /\
  forall q, below tests_dir q && rewritable (name q) = false ->
            lookup q (files fs) = lookup q (files fs0).

(** Is [d] where a copy of [src] to its backup path lands? *)
Definition is_backup_copy (src d : path) : bool :=
  path_eqb d (backup_of src) || path_eqb d (backup_of src ++ [name src])%list.

(** Every move in [l] comes right after the copy of the same file to its
    backup; [prev] is the event before [l]. *)
Fixpoint backed_up (prev : option event) (l : list event) : bool :=
  match l with
  | [] => true
  | e :: l' =>
      match e with
      | Move src _ =>
          match prev with
          | Some (Copy s d) => path_eqb s src && is_backup_copy src d
          | _ => false
          end
      | _ => true
      end && backed_up (Some e) l'
  end.

(** The log has grown by a stretch in which every move is backed up. *)
Definition grows_backed_up (log0 : list event) (w : world) : Prop :=
  exists evs, log w = (log0 ++ evs)%list /\ backed_up None evs = true.

(** No directory of [l] that is on the disk is empty. *)
Definition settled (l : list path) (fs : filesystem) : Prop :=
  forall d, In d l -> In d (dirs fs) -> is_empty_dir d fs = false.

(** [e] is not longer than [d]. *)
Definition not_deeper (d e : path) : Prop :=
  (List.length e <= List.length d)%nat.

End MoreNotions.

Module MigrateNotions.
Import PyStr PathLib FS TestReorganizer TestMigrator.

(** The files [migrate_directory] hands to [migrate_file]. *)
Definition handed_over (directory : path) (fs : filesystem) : list path :=
  filter (fun p => negb (contains "_new.cpp" (str p)))
         (rglob directory glob_test_prefix fs
          ++ rglob directory glob_test_suffix fs)%list.

End MigrateNotions.

Module RenameNotions.
Import PyStr PathLib FS TestReorganizer RenameTests.

(** No capital letter in [s]. *)
Definition no_capital (s : string) : bool :=
  all_chars (fun c => negb (is_upper c)) s.

(** The old and the new paths of the entries of [l]. *)
Definition listed (tests_dir : path) (l : list (string * string))
  : list path :=
  flat_map (fun e => [joinpath tests_dir (fst e); joinpath tests_dir (snd e)])
           l.

(** Both paths of every entry are a directory and a file name. *)
Definition two_deep (l : list (string * string)) : Prop :=
  forall e, In e l ->
    List.length (Path (fst e)) = 2 /\ List.length (Path (snd e)) = 2.

(** The disk lets the entries of [l] be renamed: neither the directory of
    a new path nor anything above it is a regular file, and no listed path
    is a directory. *)
Definition ready (tests_dir : path) (l : list (string * string))
    (fs : filesystem) : Prop :=
  forall e, In e l ->
    existsb (fun a => is_file a fs)
            (ancestors_and_self (parent (joinpath tests_dir (snd e))))
    = false /\
    is_dir (joinpath tests_dir (fst e)) fs = false /\
    is_dir (joinpath tests_dir (snd e)) fs = false.

End RenameNotions.

(** * Properties *)

(** ** Strings and paths *)

Module StrFacts.
Import PyStr.

Lemma startswith_refl_app (p s : string) : startswith p (p ++ s) = true.
Proof.
  induction p as [|a p IH]; simpl; [reflexivity|].
  now rewrite Ascii.eqb_refl, IH.
Qed.

Lemma startswith_app (p s : string) :
  startswith p s = true -> exists r, s = p ++ r.
Proof.
  revert s; induction p as [|a p IH]; intros s H.
  - now exists s.
  - destruct s as [|b s]; simpl in H; [discriminate|].
    apply andb_prop in H as [Hab Hp].
    apply Ascii.eqb_eq in Hab; subst b.
    destruct (IH _ Hp) as [r ->]. now exists r.
Qed.

Lemma contains_nil_false (sub : string) :
  contains sub "" = true -> sub = "".
Proof.
  destruct sub; simpl; [reflexivity|discriminate].
Qed.

Lemma contains_cons (sub : string) (c : ascii) (s : string) :
  contains sub (String c s) = startswith sub (String c s) || contains sub s.
Proof. reflexivity. Qed.

Lemma contains_app_r (sub a b : string) :
  contains sub b = true -> contains sub (a ++ b) = true.
Proof.
  intros H; induction a as [|c a IH]; simpl; [exact H|].
  rewrite IH. apply orb_true_r.
Qed.

Lemma startswith_app_l (sub a b : string) :
  startswith sub a = true -> startswith sub (a ++ b) = true.
Proof.
  revert a; induction sub as [|x sub IH]; intros a H; [reflexivity|].
  destruct a as [|y a]; simpl in *; [discriminate|].
  apply andb_prop in H as [-> H]. simpl. now apply IH.
Qed.

Lemma contains_app_l (sub a b : string) :
  contains sub a = true -> contains sub (a ++ b) = true.
Proof.
  induction a as [|c a IH]; intros H.
  - apply contains_nil_false in H; subst sub. now destruct b.
  - rewrite contains_cons in H. simpl String.append. rewrite contains_cons.
    apply orb_true_iff in H as [H|H].
    + change (String c (a ++ b)) with (String c a ++ b).
      now rewrite (startswith_app_l _ _ _ H).
    + rewrite (IH H). apply orb_true_r.
Qed.

Lemma contains_refl (s : string) : contains s s = true.
Proof.
  destruct s as [|c s]; [reflexivity|].
  rewrite contains_cons.
  replace (String c s) with (String c s ++ "") at 2
    by (simpl; f_equal; induction s; simpl; congruence).
  now rewrite startswith_refl_app.
Qed.

(** A pattern that does not occur is not replaced. *)
Lemma replace_scan_absent (old new s : string) :
  contains old s = false -> replace_scan old new s 0 = s.
Proof.
  induction s as [|c s IH]; intros H; [reflexivity|].
  rewrite contains_cons in H. apply orb_false_iff in H as [H1 H2].
  simpl replace_scan. rewrite H1. now rewrite IH.
Qed.

Lemma replace_absent (old new s : string) :
  contains old s = false -> replace old new s = s.
Proof.
  destruct old as [|a old]; intros H.
  - destruct s; discriminate.
  - now apply replace_scan_absent.
Qed.

Lemma append_nil_r (s : string) : s ++ "" = s.
Proof. induction s; simpl; congruence. Qed.

Lemma append_assoc (a b c : string) : (a ++ b) ++ c = a ++ (b ++ c).
Proof. induction a; simpl; congruence. Qed.

Lemma length_append (a b : string) :
  String.length (a ++ b) = String.length a + String.length b.
Proof. induction a; simpl; congruence. Qed.

Lemma endswith_last_char (suf s : string) :
  endswith suf s = true -> suf <> "" -> last_char s = last_char suf.
Proof.
  induction s as [|c s IH]; intros H Hne.
  - simpl in H. rewrite orb_false_r in H.
    apply String.eqb_eq in H. congruence.
  - simpl in H. apply orb_true_iff in H as [H|H].
    + apply String.eqb_eq in H. now subst.
    + specialize (IH H Hne). destruct s as [|d s]; [|exact IH].
      simpl in H. rewrite orb_false_r in H. apply String.eqb_eq in H.
      congruence.
Qed.

Lemma endswith_app (a suf : string) : endswith suf (a ++ suf) = true.
Proof.
  induction a as [|c a IH]; simpl.
  - destruct suf; simpl; [reflexivity|].
    now rewrite Ascii.eqb_refl, String.eqb_refl.
  - rewrite IH. apply orb_true_r.
Qed.

Lemma take_drop (i : nat) (s : string) : take i s ++ drop i s = s.
Proof.
  unfold take. revert i; induction s as [|c s IH]; intros [|i]; simpl;
    try reflexivity.
  now rewrite IH.
Qed.

Lemma length_drop (i : nat) (s : string) :
  String.length (drop i s) = String.length s - i.
Proof.
  revert i; induction s as [|c s IH]; intros [|i]; simpl; auto.
Qed.

Lemma contains_concat (sep k : string) (l : list string) :
  In k l -> contains k (String.concat sep l) = true.
Proof.
  induction l as [|x l IH]; intros H; [contradiction|].
  destruct H as [->|H].
  - destruct l as [|y l]; simpl; [apply contains_refl|].
    apply contains_app_l, contains_refl.
  - destruct l as [|y l]; [contradiction|].
    change (String.concat sep (x :: y :: l))
      with (x ++ sep ++ String.concat sep (y :: l)).
    apply contains_app_r, contains_app_r. now apply IH.
Qed.

Lemma contains_segment (sep k seg : string) (l : list string) :
  In seg l -> contains k seg = true ->
  contains k (String.concat sep l) = true.
Proof.
  intros H Hc. induction l as [|x l IH]; [contradiction|].
  destruct H as [->|H].
  - destruct l as [|y l]; simpl; [exact Hc|]. now apply contains_app_l.
  - destruct l as [|y l]; [contradiction|].
    change (String.concat sep (x :: y :: l))
      with (x ++ sep ++ String.concat sep (y :: l)).
    apply contains_app_r, contains_app_r. now apply IH.
Qed.

(** A stretch of text in which the first character of [old] does not
    occur is copied by the scan. *)
Lemma replace_scan_skip_prefix (h : ascii) (old' new u rest : string) :
  all_chars (fun c => negb (Ascii.eqb h c)) u = true ->
  replace_scan (String h old') new (u ++ rest) 0 =
  u ++ replace_scan (String h old') new rest 0.
Proof.
  induction u as [|c u IH]; intros H; [reflexivity|].
  simpl in H. apply andb_prop in H as [Hc Hu].
  apply negb_true_iff in Hc.
  cbn [String.append replace_scan startswith]. rewrite Hc. simpl.
  now rewrite IH.
Qed.

Lemma all_chars_impl (f g : ascii -> bool) (s : string) :
  (forall c, f c = true -> g c = true) ->
  all_chars f s = true -> all_chars g s = true.
Proof.
  intros H. induction s as [|c s IH]; simpl; [reflexivity|].
  intros Hs. apply andb_prop in Hs as [Hc Hs].
  now rewrite (H c Hc), IH.
Qed.

Lemma all_chars_app (f : ascii -> bool) (a b : string) :
  all_chars f (a ++ b) = all_chars f a && all_chars f b.
Proof.
  induction a as [|c a IH]; simpl; [reflexivity|].
  now rewrite IH, andb_assoc.
Qed.

End StrFacts.

Module PathFacts.
Import PathLib FS.

Lemma path_eqb_eq (p q : path) : path_eqb p q = true <-> p = q.
Proof.
  unfold path_eqb. destruct (list_eq_dec _ p q); split; congruence.
Qed.

Lemma path_eqb_neq (p q : path) : path_eqb p q = false <-> p <> q.
Proof.
  unfold path_eqb. destruct (list_eq_dec _ p q); split; congruence.
Qed.

Lemma path_eqb_refl (p : path) : path_eqb p p = true.
Proof. now apply path_eqb_eq. Qed.

Lemma relative_to_app (base r : path) :
  relative_to base (base ++ r)%list = Some r.
Proof.
  induction base as [|b base IH]; simpl; [reflexivity|].
  now rewrite String.eqb_refl.
Qed.

Lemma relative_to_Some (base p r : path) :
  relative_to base p = Some r -> p = (base ++ r)%list.
Proof.
  revert p; induction base as [|b base IH]; intros p H; simpl in *.
  - congruence.
  - destruct p as [|s p]; [discriminate|].
    destruct (String.eqb_spec b s); [|discriminate].
    subst. f_equal. now apply IH.
Qed.

Lemma name_snoc (p : path) (n : string) : name (p ++ [n])%list = n.
Proof. unfold name. apply last_last. Qed.

Lemma parent_snoc (p : path) (n : string) : parent (p ++ [n])%list = p.
Proof. unfold parent. apply removelast_last. Qed.

Lemma name_full (t rel : path) (n : string) :
  name (t ++ rel ++ [n])%list = n.
Proof. rewrite app_assoc. apply name_snoc. Qed.

Lemma parent_full (t rel : path) (n : string) :
  parent (t ++ rel ++ [n])%list = (t ++ rel)%list.
Proof. rewrite app_assoc. apply parent_snoc. Qed.

Lemma snoc_split (p : path) :
  p <> [] -> p = (removelast p ++ [last p ""])%list.
Proof. intros H. now apply app_removelast_last. Qed.

Lemma is_prefix_app (a r : path) : is_prefix a (a ++ r)%list = true.
Proof.
  induction a as [|x a IH]; simpl; [reflexivity|].
  now rewrite String.eqb_refl.
Qed.

Lemma below_full (t rel : path) (n : string) :
  below t (t ++ rel ++ [n])%list = true.
Proof.
  unfold below. rewrite is_prefix_app. simpl.
  apply negb_true_iff, path_eqb_neq. intros H.
  rewrite <- (app_nil_r t) in H at 1. apply app_inv_head in H.
  now destruct rel.
Qed.

Lemma is_prefix_relative (a p : path) :
  is_prefix a p = true -> exists r, relative_to a p = Some r.
Proof.
  revert p; induction a as [|x a IH]; intros p H; simpl in *.
  - now exists p.
  - destruct p as [|y p]; [discriminate|].
    apply andb_prop in H as [-> H]. now apply IH.
Qed.

Lemma below_split (t p : path) :
  below t p = true ->
  exists rel n, p = (t ++ rel ++ [n])%list.
Proof.
  unfold below. intros H. apply andb_prop in H as [H1 H2].
  destruct (is_prefix_relative _ _ H1) as [r Hr].
  apply relative_to_Some in Hr. subst p.
  destruct r as [|s r].
  - rewrite app_nil_r, path_eqb_refl in H2. discriminate.
  - exists (removelast (s :: r)), (last (s :: r) "").
    f_equal. apply snoc_split. discriminate.
Qed.

(** The backup of a file is the name of the file followed by [.bak]. *)
Lemma backup_name (old : path) :
  name (with_suffix old (suffix old ++ ".bak")) = name old ++ ".bak".
Proof.
  unfold with_suffix. rewrite name_snoc. unfold suffix, suffix_of_name.
  destruct (PyStr.rfind "." (name old)) as [i|]; [|reflexivity].
  destruct ((0 <? i) && (i <? String.length (name old) - 1))%nat eqn:E;
    [|reflexivity].
  apply andb_prop in E as [_ E]. apply Nat.ltb_lt in E.
  destruct (String.eqb_spec (PyStr.drop i (name old)) "") as [->|_];
    [reflexivity|].
  rewrite StrFacts.length_drop.
  replace (String.length (name old) - (String.length (name old) - i)) with i
    by lia.
  rewrite <- StrFacts.append_assoc. now rewrite StrFacts.take_drop.
Qed.

End PathFacts.

(** ** Classification and the plan *)

Module PlanFacts.
Import PyStr PathLib FS TestReorganizer Notions PathFacts.

Section WithRoot.

Variable tests_dir : path.

Lemma walk_In (fs : filesystem) (rel : path) (file : string) :
  In (rel, file) (walk tests_dir fs) <->
  exists text, In ((tests_dir ++ rel ++ [file])%list, text) (files fs).
Proof.
  unfold walk. rewrite in_flat_map. split.
  - intros [[p text] [Hin H]]. cbn [fst] in H.
    destruct (relative_to tests_dir p) as [[|s r]|] eqn:E; try contradiction.
    destruct H as [H|[]]. apply pair_equal_spec in H as [Hr Hf].
    apply relative_to_Some in E. exists text.
    rewrite <- Hr, <- Hf.
    rewrite <- (snoc_split (p := s :: r)) by discriminate. now rewrite <- E.
  - intros [text Hin]. exists ((tests_dir ++ rel ++ [file])%list, text).
    split; [exact Hin|]. cbn [fst]. rewrite relative_to_app.
    destruct (rel ++ [file])%list as [|s r] eqn:E.
    + now destruct rel.
    + rewrite <- E, removelast_last, last_last. now left.
Qed.

Lemma categorize_cases (rel : path) (file : string) :
  In (categorize rel file) category_keys.
Proof.
  unfold categorize, category_keys.
  repeat match goal with
         | |- context [if ?b then _ else _] => destruct b
         end; simpl; tauto.
Qed.

Lemma bucket_append_structure (k : string) (x : path)
    (f : string -> list path) :
  In k category_keys ->
  bucket_append k x (as_structure f) =
  as_structure (fun k' => if String.eqb k' k then (f k' ++ [x])%list else f k').
Proof.
  unfold category_keys. simpl.
  intros [<-|[<-|[<-|[<-|[<-|[<-|[<-|[]]]]]]]]; reflexivity.
Qed.

Lemma as_structure_ext (f g : string -> list path) :
  (forall k, f k = g k) -> as_structure f = as_structure g.
Proof.
  intros H. unfold as_structure. apply map_ext. intros k. now rewrite H.
Qed.

Lemma select_app (k : string) (l1 l2 : list (string * path)) :
  select k (l1 ++ l2) = (select k l1 ++ select k l2)%list.
Proof. unfold select. now rewrite filter_app, map_app. Qed.

Lemma analyze_fold (l : list (path * string)) (f : string -> list path) :
  fold_left (analyze_step tests_dir) l (as_structure f) =
  as_structure
    (fun k => (f k ++ select k (flat_map (classify_entry tests_dir) l))%list).
Proof.
  revert f; induction l as [|[rel file] l IH]; intros f.
  - simpl. apply as_structure_ext. intros k. now rewrite app_nil_r.
  - cbn [fold_left flat_map]. unfold analyze_step at 2.
    unfold classify_entry at 1.
    destruct (is_source_name file); simpl andb.
    + destruct (is_framework_file file); simpl negb.
      * rewrite IH. reflexivity.
      * rewrite bucket_append_structure by apply categorize_cases.
        rewrite IH. apply as_structure_ext. intros k.
        rewrite select_app. unfold select at 2. simpl.
        rewrite String.eqb_sym.
        destruct (String.eqb (categorize rel file) k); simpl.
        -- now rewrite <- app_assoc.
        -- reflexivity.
    + rewrite IH. reflexivity.
Qed.

(** The structure is the classified files sorted into the seven buckets. *)
Lemma analyze_structure (fs : filesystem) :
  analyze_current_structure tests_dir fs =
  as_structure (fun k => select k (classified tests_dir fs)).
Proof.
  unfold analyze_current_structure.
  change empty_structure with (as_structure (fun _ => [])).
  rewrite analyze_fold. reflexivity.
Qed.

Lemma classified_In (fs : filesystem) (k : string) (p : path) :
  In (k, p) (classified tests_dir fs) <->
  exists rel file,
    In (rel, file) (walk tests_dir fs) /\
    is_source_name file = true /\ is_framework_file file = false /\
    k = categorize rel file /\ p = (tests_dir ++ rel ++ [file])%list.
Proof.
  unfold classified. rewrite in_flat_map. split.
  - intros [[rel file] [Hw H]]. exists rel, file. unfold classify_entry in H.
    destruct (is_source_name file) eqn:Es; simpl in H; [|contradiction].
    destruct (is_framework_file file) eqn:Ef; simpl in H; [contradiction|].
    destruct H as [H|[]]. inversion H. tauto.
  - intros (rel & file & Hw & Es & Ef & -> & ->).
    exists (rel, file). split; [exact Hw|].
    unfold classify_entry. rewrite Es, Ef. now left.
Qed.

Lemma select_In (k : string) (l : list (string * path)) (p : path) :
  In p (select k l) <-> In (k, p) l.
Proof.
  unfold select. rewrite in_map_iff. split.
  - intros [[k' q] [<- H]]. apply filter_In in H as [H E].
    simpl in *. apply String.eqb_eq in E. now subst.
  - intros H. exists (k, p). split; [reflexivity|].
    apply filter_In. split; [exact H|]. apply String.eqb_refl.
Qed.


(** *** The dict of the plan *)

Lemma dict_set_In_inv (k v k' v' : path) (d : list (path * path)) :
  In (k', v') (dict_set k v d) -> (k' = k /\ v' = v) \/ In (k', v') d.
Proof.
  induction d as [|[a b] d IH]; simpl.
  - intros [H|[]]. inversion H. now left.
  - destruct (path_eqb k a) eqn:E.
    + apply path_eqb_eq in E. subst a. intros [H|H].
      * inversion H. now left.
      * right. now right.
    + intros [H|H]; [right; now left|].
      destruct (IH H) as [?|?]; [now left|right; now right].
Qed.

Lemma dict_set_In_same (k v : path) (d : list (path * path)) :
  In (k, v) (dict_set k v d).
Proof.
  induction d as [|[a b] d IH]; simpl; [now left|].
  destruct (path_eqb k a) eqn:E.
  - apply path_eqb_eq in E. subst a. now left.
  - now right.
Qed.

Lemma dict_set_In_other (k v k' v' : path) (d : list (path * path)) :
  k' <> k -> In (k', v') d -> In (k', v') (dict_set k v d).
Proof.
  intros Hne. induction d as [|[a b] d IH]; simpl; [tauto|].
  destruct (path_eqb k a) eqn:E.
  - apply path_eqb_eq in E. subst a. intros [H|H].
    + inversion H. congruence.
    + now right.
  - intros [H|H]; [now left|right; auto].
Qed.

Lemma dict_set_keys_In (k v a : path) (d : list (path * path)) :
  In a (map fst (dict_set k v d)) <-> a = k \/ In a (map fst d).
Proof.
  induction d as [|[x y] d IH]; simpl.
  - intuition congruence.
  - destruct (path_eqb k x) eqn:E; simpl.
    + apply path_eqb_eq in E. subst x. intuition congruence.
    + rewrite IH. intuition congruence.
Qed.

Lemma dict_set_NoDup (k v : path) (d : list (path * path)) :
  NoDup (map fst d) -> NoDup (map fst (dict_set k v d)).
Proof.
  induction d as [|[x y] d IH]; simpl; intros H.
  - constructor; [tauto|constructor].
  - inversion H as [|? ? Hx Hd]; subst.
    destruct (path_eqb k x) eqn:E; simpl.
    + now constructor.
    + constructor; [|now apply IH].
      rewrite dict_set_keys_In. intros [->|Hin]; [|contradiction].
      now rewrite path_eqb_refl in E.
Qed.

Lemma plan_file_step (fs : filesystem) (k : string) (m : list (path * path))
    (p : path) :
  plan_file tests_dir fs k m p = plan_step tests_dir fs m (k, p).
Proof. reflexivity. Qed.

Lemma fold_plan_file (fs : filesystem) (k : string) (l : list path)
    (m : list (path * path)) :
  fold_left (plan_file tests_dir fs k) l m =
  fold_left (plan_step tests_dir fs) (map (pair k) l) m.
Proof.
  revert m; induction l as [|p l IH]; intros m; simpl; [reflexivity|].
  now rewrite IH.
Qed.

(** The plan is one pass of [plan_step] over the planned files. *)
Lemma plan_unfold (fs : filesystem) :
  generate_reorganization_plan tests_dir fs =
  fold_left (plan_step tests_dir fs) (planned tests_dir fs) [].
Proof.
  unfold generate_reorganization_plan. rewrite analyze_structure.
  unfold planned, planned_keys, as_structure, category_keys.
  cbn [map fold_left flat_map plan_category String.eqb Ascii.eqb Bool.eqb].
  rewrite !fold_left_app, !fold_plan_file. reflexivity.
Qed.

Lemma planned_In (fs : filesystem) (k : string) (p : path) :
  In (k, p) (planned tests_dir fs) <->
  In (k, p) (classified tests_dir fs) /\ k <> "misc".
Proof.
  unfold planned. rewrite in_flat_map. split.
  - intros [k' [Hk H]]. apply in_map_iff in H as [q [E Hq]].
    inversion E; subst. apply select_In in Hq. split; [exact Hq|].
    unfold planned_keys in Hk. simpl in Hk.
    intros ->. intuition discriminate.
  - intros [H Hne]. exists k. split.
    + apply classified_In in H as (rel & file & _ & _ & _ & -> & _).
      pose proof (categorize_cases rel file) as Hc.
      unfold category_keys, planned_keys in *. simpl in *.
      intuition congruence.
    + apply in_map_iff. exists p. split; [reflexivity|].
      now apply select_In.
Qed.

Lemma classified_category (fs : filesystem) (k : string) (p : path) :
  In (k, p) (classified tests_dir fs) -> k = category_of tests_dir p.
Proof.
  intros H. apply classified_In in H as (rel & file & _ & _ & _ & -> & ->).
  unfold category_of. now rewrite parent_full, relative_to_app, name_full.
Qed.

Lemma fold_plan_inv (fs : filesystem) (l : list (string * path))
    (m : list (path * path)) (old new : path) :
  In (old, new) (fold_left (plan_step tests_dir fs) l m) ->
  In (old, new) m \/
  exists k, In (k, old) l /\ skipped fs old = false /\
            differs tests_dir k old = true /\ new = target tests_dir k old.
Proof.
  revert m; induction l as [|[k p] l IH]; intros m H; simpl in H.
  - now left.
  - apply IH in H as [H|(k' & Hin & Hs & Hd & Hn)].
    + destruct (skipped fs p) eqn:Es; [now left|].
      destruct (differs tests_dir k p) eqn:Ed; [|now left].
      apply dict_set_In_inv in H as [[-> ->]|H]; [|now left].
      right. exists k. simpl. tauto.
    + right. exists k'. simpl. tauto.
Qed.

Lemma fold_plan_keep (fs : filesystem) (l : list (string * path))
    (m : list (path * path)) (old : path) :
  (forall k p, In (k, p) l -> k = category_of tests_dir p) ->
  In (old, target tests_dir (category_of tests_dir old) old) m ->
  In (old, target tests_dir (category_of tests_dir old) old)
     (fold_left (plan_step tests_dir fs) l m).
Proof.
  revert m; induction l as [|[k p] l IH]; intros m Hc H; simpl; [exact H|].
  apply IH; [intros; apply Hc; now right|].
  destruct (skipped fs p); [exact H|].
  destruct (differs tests_dir k p); [|exact H].
  destruct (list_eq_dec String.string_dec old p) as [->|Hne].
  - rewrite (Hc k p) by now left. apply dict_set_In_same.
  - now apply dict_set_In_other.
Qed.

Lemma fold_plan_add (fs : filesystem) (l : list (string * path))
    (m : list (path * path)) (k : string) (old : path) :
  (forall k p, In (k, p) l -> k = category_of tests_dir p) ->
  In (k, old) l -> skipped fs old = false ->
  differs tests_dir k old = true ->
  In (old, target tests_dir k old) (fold_left (plan_step tests_dir fs) l m).
Proof.
  revert m; induction l as [|[k' p] l IH]; intros m Hc Hin Hs Hd;
    [contradiction|].
  destruct Hin as [E|Hin].
  - inversion E; subst. simpl. rewrite Hs, Hd.
    rewrite (Hc k old) by now left.
    apply fold_plan_keep; [intros; apply Hc; now right|].
    apply dict_set_In_same.
  - simpl. apply IH; auto. intros; apply Hc; now right.
Qed.

Lemma fold_plan_NoDup (fs : filesystem) (l : list (string * path))
    (m : list (path * path)) :
  NoDup (map fst m) ->
  NoDup (map fst (fold_left (plan_step tests_dir fs) l m)).
Proof.
  revert m; induction l as [|[k p] l IH]; intros m H; simpl; [exact H|].
  apply IH. destruct (skipped fs p); [exact H|].
  destruct (differs tests_dir k p); [|exact H].
  now apply dict_set_NoDup.
Qed.

(** The entries of the plan. *)
Lemma plan_In (fs : filesystem) (old new : path) :
  In (old, new) (generate_reorganization_plan tests_dir fs) <->
  exists k, In (k, old) (classified tests_dir fs) /\ k <> "misc" /\
            skipped fs old = false /\ differs tests_dir k old = true /\
            new = target tests_dir k old.
Proof.
  rewrite plan_unfold. split.
  - intros H. apply fold_plan_inv in H as [[]|(k & Hin & Hs & Hd & Hn)].
    apply planned_In in Hin as [Hin Hne]. exists k. tauto.
  - intros (k & Hin & Hne & Hs & Hd & ->).
    apply fold_plan_add; auto.
    + intros k' p Hp. apply planned_In in Hp as [Hp _].
      now apply classified_category in Hp.
    + now apply planned_In.
Qed.

Lemma plan_keys_NoDup (fs : filesystem) :
  NoDup (map fst (generate_reorganization_plan tests_dir fs)).
Proof. rewrite plan_unfold. apply fold_plan_NoDup. constructor. Qed.

Lemma differs_neq (k : string) (p : path) :
  differs tests_dir k p = true -> p <> target tests_dir k p.
Proof.
  unfold differs. intros H E.
  assert (Hp : parent p = parent (target tests_dir k p))
    by (rewrite <- E; reflexivity).
  assert (Hn : name p = generate_new_name p k).
  { transitivity (name (target tests_dir k p)).
    - rewrite <- E; reflexivity.
    - unfold target.
      change (tests_dir ++ [?a; ?b])%list with (tests_dir ++ [a] ++ [b])%list.
      apply name_full. }
  rewrite <- Hp, <- Hn, path_eqb_refl, String.eqb_refl in H. discriminate.
Qed.

(** A tree whose classified files are all misc has an empty plan. *)
Lemma plan_empty (fs : filesystem) :
  (forall k p, In (k, p) (classified tests_dir fs) -> k = "misc") ->
  generate_reorganization_plan tests_dir fs = [].
Proof.
  intros H. rewrite plan_unfold.
  destruct (planned tests_dir fs) as [|[k p] l] eqn:E; [reflexivity|].
  assert (Hin : In (k, p) (planned tests_dir fs)) by (rewrite E; now left).
  apply planned_In in Hin as [Hc Hne]. now apply H in Hc.
Qed.


Lemma classified_planned_key (fs : filesystem) (k : string) (p : path) :
  In (k, p) (classified tests_dir fs) -> k <> "misc" -> In k planned_keys.
Proof.
  intros H Hne.
  assert (Hp : In (k, p) (planned tests_dir fs)) by now apply planned_In.
  unfold planned in Hp. apply in_flat_map in Hp as [k' [Hk Hm]].
  apply in_map_iff in Hm as [q [E _]]. now inversion E; subst.
Qed.

Lemma generate_new_name_full (rel : path) (file k : string) :
  generate_new_name (tests_dir ++ rel ++ [file])%list k =
  generate_new_name [file] k.
Proof.
  unfold generate_new_name, stem, suffix. now rewrite name_full.
Qed.

Lemma is_file_walk (fs : filesystem) (rel : path) (file : string) :
  is_file (tests_dir ++ rel ++ [file])%list fs = true ->
  In (rel, file) (walk tests_dir fs).
Proof.
  unfold is_file. intros H. apply walk_In.
  destruct (lookup _ (files fs)) as [text|] eqn:E; [|discriminate].
  exists text. revert E. induction (files fs) as [|[a b] l IH]; simpl;
    [discriminate|].
  destruct (path_eqb _ a) eqn:Ea.
  - apply path_eqb_eq in Ea. subst a. intros E. inversion E. now left.
  - intros E. right. auto.
Qed.

Lemma classified_source (fs : filesystem) (k : string) (p : path) :
  In (k, p) (classified tests_dir fs) ->
  is_source_name (name p) = true /\ is_framework_file (name p) = false /\
  below tests_dir p = true /\ is_file p fs = true.
Proof.
  intros H. apply classified_In in H as (rel & file & Hw & Hs & Hf & _ & ->).
  rewrite name_full, below_full. repeat split; auto.
  apply walk_In in Hw as [text Hin]. unfold is_file.
  destruct (lookup _ (files fs)) eqn:E; [reflexivity|].
  exfalso. revert E. clear -Hin. induction (files fs) as [|[a b] l IH];
    simpl in *; [contradiction|].
  destruct Hin as [H|H].
  - inversion H. now rewrite path_eqb_refl.
  - destruct (path_eqb _ a); [discriminate|auto].
Qed.

Lemma plan_key_classified (fs : filesystem) (old : path) :
  In old (map fst (generate_reorganization_plan tests_dir fs)) ->
  exists k, In (k, old) (classified tests_dir fs) /\ k <> "misc".
Proof.
  intros H. apply in_map_iff in H as [[o n] [E H]]. simpl in E. subst o.
  apply plan_In in H as (k & Hc & Hne & _). eauto.
Qed.

Lemma structure_In (fs : filesystem) (k : string) (l : list path) (p : path) :
  In (k, l) (analyze_current_structure tests_dir fs) -> In p l ->
  In (k, p) (classified tests_dir fs).
Proof.
  rewrite analyze_structure. unfold as_structure. intros H Hp.
  apply in_map_iff in H as [k' [E _]]. inversion E; subst.
  now apply select_In.
Qed.

End WithRoot.

End PlanFacts.

(** ** Invariants of a run *)

Module RunFacts.
Import PyStr PathLib FS TestReorganizer Notions PathFacts PlanFacts.

Section Combinators.

Context {J : world -> Prop}.

Lemma inv_ret {A : Type} (a : A) : inv J (ret a).
Proof. intros w H. exact H. Qed.

Lemma inv_raise {A : Type} : inv J (@raise A).
Proof. intros w H. exact H. Qed.

Lemma inv_get_disk : inv J get_disk.
Proof. intros w H. exact H. Qed.

Lemma inv_bind {A B : Type} (m : io A) (f : A -> io B) :
  inv J m -> (forall a, inv J (f a)) -> inv J (bind m f).
Proof.
  intros Hm Hf w H. unfold bind. specialize (Hm w H).
  destruct (m w) as [[a|] w']; simpl in *; [now apply Hf|exact Hm].
Qed.

Lemma inv_when (b : bool) (m : io unit) :
  (b = true -> inv J m) -> inv J (when b m).
Proof. destruct b; intros H; [now apply H|apply inv_ret]. Qed.

Lemma inv_for_each {A : Type} (l : list A) (body : A -> io unit) :
  (forall x, In x l -> inv J (body x)) -> inv J (for_each l body).
Proof.
  induction l as [|x l IH]; intros H; simpl; [apply inv_ret|].
  apply inv_bind; [apply H; now left|].
  intros _. apply IH. intros y Hy. apply H. now right.
Qed.

End Combinators.

Section Run.

Variable tests_dir : path.
Variable dry_run : bool.
Variable J : world -> Prop.
Variable plan : list (path * path).

(** What [J] has to survive: printing and reading always; the calls that
    change the disk only in a real run, and only on the paths a run can
    reach. *)
Hypothesis J_print : forall line, inv J (print line).
Hypothesis J_read :
  forall p, below tests_dir p = true -> rewritable (name p) = true ->
            inv J (emit (Read p)).
Hypothesis J_mkdir : dry_run = false -> forall p, inv J (mkdir_parents p).
Hypothesis J_copy :
  dry_run = false ->
  forall old new, In (old, new) plan ->
                  inv J (copy2 old (with_suffix old (suffix old ++ ".bak"))).
Hypothesis J_move :
  dry_run = false ->
  forall old new, In (old, new) plan -> inv J (move old new).
Hypothesis J_write :
  dry_run = false ->
  forall p text, below tests_dir p = true -> rewritable (name p) = true ->
                 inv J (write_text p text).
Hypothesis J_rmdir : dry_run = false -> forall p, inv J (rmdir p).

Ltac inv_auto :=
  repeat lazymatch goal with
    | |- inv _ (bind _ _) => apply inv_bind; [|intros ?]
    | |- inv _ (when _ _) => apply inv_when; intros ?
    | |- inv _ (ret _) => apply inv_ret
    | |- inv _ raise => apply inv_raise
    | |- inv _ get_disk => apply inv_get_disk
    | |- inv _ (print _) => apply J_print
    end.

Lemma inv_show_rel (p : path) : inv J (show_rel tests_dir p).
Proof. unfold show_rel. destruct (relative_to tests_dir p); inv_auto. Qed.

Lemma negb_dry (b : bool) : negb b = true -> b = false.
Proof. now destruct b. Qed.

Lemma inv_create_dir (d : string) : inv J (create_dir tests_dir dry_run d).
Proof.
  unfold create_dir. inv_auto. apply J_mkdir. now apply negb_dry.
Qed.

Lemma inv_rename_entry (e : path * path) :
  In e plan -> inv J (rename_entry tests_dir dry_run e).
Proof.
  destruct e as [old new]. intros Hin. unfold rename_entry.
  inv_auto; try apply inv_show_rel.
  - apply J_mkdir. now apply negb_dry.
  - apply (J_copy (negb_dry _ H0) _ _ Hin).
  - apply (J_move (negb_dry _ H0) _ _ Hin).
Qed.

Lemma inv_update_includes (p : path) (m : list (path * path)) :
  below tests_dir p = true -> rewritable (name p) = true ->
  inv J (update_includes dry_run p m).
Proof.
  intros Hb Hn. unfold update_includes. apply inv_bind; [inv_auto|].
  intros fs. destruct (lookup p (files fs)); [|inv_auto].
  apply inv_bind; [now apply J_read|]. intros _.
  destruct (negb _); inv_auto.
  apply J_write; auto. now apply negb_dry.
Qed.

Lemma inv_scan_includes (p : path) (m : list (path * path)) :
  below tests_dir p = true -> rewritable (name p) = true ->
  inv J (scan_includes tests_dir dry_run m p).
Proof.
  intros Hb Hn. unfold scan_includes.
  apply inv_bind; [now apply inv_update_includes|].
  intros b. inv_auto. apply inv_show_rel.
Qed.

Lemma inv_update_cmake_file (p : path) (m : list (path * path)) :
  below tests_dir p = true -> rewritable (name p) = true ->
  inv J (update_cmake_file tests_dir dry_run m p).
Proof.
  intros Hb Hn. unfold update_cmake_file. apply inv_bind; [inv_auto|].
  intros fs. destruct (lookup p (files fs)); [|inv_auto].
  apply inv_bind; [now apply J_read|]. intros _.
  destruct (rewrite_cmake tests_dir m (read_newlines s)); inv_auto.
  apply J_write; auto. now apply negb_dry.
Qed.

Lemma rglob_In (matches : string -> bool) (fs : filesystem) (p : path) :
  In p (rglob tests_dir matches fs) ->
  below tests_dir p = true /\ matches (name p) = true.
Proof.
  unfold rglob. intros H. apply filter_In in H as [_ H].
  now apply andb_prop in H.
Qed.

Lemma inv_cleanup : dry_run = false -> inv J (cleanup tests_dir).
Proof.
  intros Hd. unfold cleanup. apply inv_bind; [inv_auto|]. intros fs.
  apply inv_for_each. intros d _. unfold remove_if_empty.
  inv_auto; [now apply J_rmdir|apply inv_show_rel].
Qed.

Lemma inv_rewrite_pass (m : list (path * path)) :
  inv J (rewrite_pass tests_dir dry_run m).
Proof.
  unfold rewrite_pass. inv_auto.
  - apply inv_for_each. intros p Hp. apply rglob_In in Hp as [Hb Hn].
    apply inv_scan_includes; auto. unfold rewritable. now rewrite Hn.
  - apply inv_for_each. intros p Hp. apply rglob_In in Hp as [Hb Hn].
    apply inv_scan_includes; auto. unfold rewritable.
    rewrite Hn. now rewrite orb_true_r.
  - unfold update_cmake_files. inv_auto.
    apply inv_for_each. intros p Hp. apply rglob_In in Hp as [Hb Hn].
    apply inv_update_cmake_file; auto. unfold rewritable.
    rewrite Hn. now rewrite orb_true_r.
Qed.

Lemma inv_apply_entries (m : list (path * path)) :
  incl m plan -> inv J (apply_plan tests_dir dry_run m).
Proof.
  intros Hm. unfold apply_plan. destruct m as [|e l] eqn:E; [apply J_print|].
  rewrite <- E in *. inv_auto.
  - apply inv_for_each. intros d _. apply inv_create_dir.
  - apply inv_for_each. intros x Hx. apply inv_rename_entry. now apply Hm.
  - apply inv_rewrite_pass.
  - apply inv_cleanup. now apply negb_dry.
  - destruct dry_run; inv_auto.
Qed.

(** A run keeps [J] when [plan] is the plan of the disk it starts on. *)
Lemma inv_execute (w : world) :
  generate_reorganization_plan tests_dir (disk w) = plan ->
  J w -> J (snd (execute_reorganization tests_dir dry_run w)).
Proof.
  intros Hplan H. unfold execute_reorganization, bind, get_disk.
  rewrite Hplan. apply inv_apply_entries; [apply incl_refl|exact H].
Qed.

End Run.

(** *** A computation that returns *)

Lemma bind_returns {A B : Type} (m : io A) (k : A -> io B) (w w2 : world)
    (b : B) :
  bind m k w = (Some b, w2) ->
  exists a w1, m w = (Some a, w1) /\ k a w1 = (Some b, w2).
Proof.
  unfold bind. destruct (m w) as [[a|] w1]; [|discriminate].
  intros H. exists a, w1. auto.
Qed.

Lemma ancestors_prefix (p a : path) :
  In a (ancestors_and_self p) -> exists r, p = (a ++ r)%list.
Proof.
  revert a; induction p as [|s p IH]; intros a H; [contradiction|].
  simpl in H. destruct H as [<-|H].
  - now exists p.
  - apply in_map_iff in H as [b [<- Hb]]. destruct (IH b Hb) as [r ->].
    now exists r.
Qed.

(** *** What the calls on the disk do *)

Lemma emit_effect (e : event) (w : world) :
  snd (emit e w) = mkWorld (disk w) (log w ++ [e])%list.
Proof. reflexivity. Qed.

Lemma mkdir_effect (p : path) (w : world) :
  let w' := snd (mkdir_parents p w) in
  files (disk w') = files (disk w) /\
  (log w' = log w \/ log w' = (log w ++ [Mkdir p])%list).
Proof.
  unfold mkdir_parents, bind, get_disk, put_disk, emit, raise. simpl.
  destruct (existsb _ _); simpl; auto.
Qed.

Lemma copy2_effect (src dst : path) (w : world) :
  let w' := snd (copy2 src dst w) in
  w' = w \/
  exists dst' text,
    disk w' = mkFS (store dst' text (files (disk w))) (dirs (disk w)) /\
    log w' = (log w ++ [Copy src dst'])%list.
Proof.
  unfold copy2, bind, get_disk, put_disk, emit, raise. simpl.
  destruct (lookup src (files (disk w))) as [text|]; simpl; auto.
  destruct (_ || _); simpl; auto. right. eauto.
Qed.

Lemma move_effect (src dst : path) (w : world) :
  let w' := snd (move src dst w) in
  w' = w \/
  exists dst' text,
    disk w' = mkFS (store dst' text (remove src (files (disk w))))
                   (dirs (disk w)) /\
    log w' = (log w ++ [Move src dst'])%list.
Proof.
  unfold move, bind, get_disk, put_disk, emit, raise. simpl.
  destruct (lookup src (files (disk w))) as [text|]; simpl; auto.
  destruct (is_dir dst (disk w)); simpl.
  - destruct (exists_ _ _); simpl; auto. right. eauto.
  - right. eauto.
Qed.

Lemma write_effect (p : path) (text : string) (w : world) :
  snd (write_text p text w) =
  mkWorld (mkFS (store p text (files (disk w))) (dirs (disk w)))
          (log w ++ [Write p text])%list.
Proof. reflexivity. Qed.

Lemma rmdir_effect (p : path) (w : world) :
  let w' := snd (rmdir p w) in
  files (disk w') = files (disk w) /\ log w' = (log w ++ [Rmdir p])%list.
Proof. simpl. auto. Qed.

Lemma lookup_store (p q : path) (c : string) (l : list (path * string)) :
  lookup p (store q c l) = if path_eqb p q then Some c else lookup p l.
Proof.
  induction l as [|[a b] l IH]; simpl.
  - destruct (path_eqb p q); reflexivity.
  - destruct (path_eqb q a) eqn:E; simpl.
    + apply path_eqb_eq in E. subst a. destruct (path_eqb p q); reflexivity.
    + rewrite IH. destruct (path_eqb p q) eqn:E2; [|reflexivity].
      apply path_eqb_eq in E2. subst p. now rewrite E.
Qed.

Lemma lookup_remove (p q : path) (l : list (path * string)) :
  lookup p (remove q l) = if path_eqb p q then None else lookup p l.
Proof.
  unfold remove. induction l as [|[a b] l IH]; simpl.
  - destruct (path_eqb p q); reflexivity.
  - destruct (path_eqb q a) eqn:E; simpl.
    + rewrite IH. apply path_eqb_eq in E. subst a.
      destruct (path_eqb p q); reflexivity.
    + rewrite IH. destruct (path_eqb p q) eqn:E2; [|reflexivity].
      apply path_eqb_eq in E2. subst p. now rewrite E.
Qed.

Lemma is_file_store (p q : path) (c : string) (fs : filesystem) :
  is_file p fs = true ->
  is_file p (mkFS (store q c (files fs)) (dirs fs)) = true.
Proof.
  unfold is_file. simpl. rewrite lookup_store.
  destruct (path_eqb p q); auto.
Qed.

Lemma is_file_files (p : path) (fs fs' : filesystem) :
  files fs' = files fs -> is_file p fs' = is_file p fs.
Proof. unfold is_file. now intros ->. Qed.

Lemma lookup_In (p : path) (l : list (path * string)) (c : string) :
  lookup p l = Some c -> In (p, c) l.
Proof.
  induction l as [|[a b] l IH]; simpl; [discriminate|].
  destruct (path_eqb p a) eqn:E.
  - apply path_eqb_eq in E. subst a. intros H. inversion H. now left.
  - intros H. right. auto.
Qed.

Lemma is_file_In (p : path) (fs : filesystem) :
  is_file p fs = true -> exists text, In (p, text) (files fs).
Proof.
  unfold is_file. destruct (lookup p (files fs)) eqn:E; [|discriminate].
  intros _. eexists. eapply lookup_In; eauto.
Qed.

(** *** The sibling rewriter keeps a backup *)

(** When [update_cmake] of the migration script changes a file in a real
    run, it writes the text it read to the backup first and the new text to
    the file after that. *)
Lemma update_cmake_backs_up (rewrite_text : string -> string)
    (cmake_path : path) (w : world) (raw : string) :
  lookup cmake_path (files (disk w)) = Some raw ->
  rewrite_text (read_newlines raw) <> read_newlines raw ->
  is_dir (with_suffix cmake_path ".txt.bak") (disk w) = false ->
  log (snd (CMakeUpdater.update_cmake false rewrite_text cmake_path w)) =
  (log w ++
   [ Read cmake_path;
     Write (with_suffix cmake_path ".txt.bak") (read_newlines raw);
     Write cmake_path (rewrite_text (read_newlines raw));
     Print (CMakeUpdater.check_mark ++ " Updated CMake: " ++ str cmake_path) ])%list.
Proof.
  intros Hl Hne Hd. unfold CMakeUpdater.update_cmake, bind, get_disk. simpl.
  rewrite Hl. simpl.
  destruct (String.eqb_spec (rewrite_text (read_newlines raw))
                            (read_newlines raw)) as [E|_];
    [contradiction|].
  simpl. rewrite Hd. simpl. now rewrite <- !app_assoc.
Qed.

(** *** Endings of names *)

Lemma bak_not_source (n : string) :
  endswith ".bak" n = true -> is_source_name n = false.
Proof.
  intros H. apply StrFacts.endswith_last_char in H; [|discriminate].
  unfold is_source_name. apply orb_false_iff. split.
  - destruct (endswith ".cpp" n) eqn:E; [|reflexivity].
    apply StrFacts.endswith_last_char in E; [|discriminate].
    rewrite H in E. discriminate.
  - destruct (endswith ".h" n) eqn:E; [|reflexivity].
    apply StrFacts.endswith_last_char in E; [|discriminate].
    rewrite H in E. discriminate.
Qed.

Lemma bak_not_rewritable (n : string) :
  endswith ".bak" n = true -> rewritable n = false.
Proof.
  intros H. pose proof (bak_not_source _ H) as Hs.
  unfold is_source_name in Hs. apply orb_false_iff in Hs as [Hc Hh].
  unfold rewritable, glob_cpp, glob_h, glob_cmake. rewrite Hc, Hh. simpl.
  apply StrFacts.endswith_last_char in H; [|discriminate].
  destruct (endswith ".txt" n) eqn:E.
  - apply StrFacts.endswith_last_char in E; [|discriminate].
    rewrite H in E. discriminate.
  - now rewrite andb_false_r.
Qed.

(** *** The text the rewriting passes compute *)

Lemma rewrite_entry_stable (text : string) (e : path * path) :
  (forall pat, In pat (include_patterns (name (fst e)) (name (snd e))) ->
               contains (fst pat) text = false) ->
  rewrite_entry text e = text.
Proof.
  destruct e as [old new]. unfold rewrite_entry. simpl fst. simpl snd.
  generalize (include_patterns (name old) (name new)). intros l.
  induction l as [|pat l IH]; intros H; simpl; [reflexivity|].
  rewrite StrFacts.replace_absent by (apply H; now left).
  apply IH. intros q Hq. apply H. now right.
Qed.

Lemma rewrite_includes_stable (plan : list (path * path)) (text : string) :
  include_stable plan text -> rewrite_includes plan text = text.
Proof.
  unfold include_stable, rewrite_includes.
  induction plan as [|e plan IH]; intros H; simpl; [reflexivity|].
  rewrite rewrite_entry_stable by (intros pat Hp; apply (H e); auto; now left).
  apply IH. intros e' pat He'. apply H. now right.
Qed.

Lemma rewrite_cmake_None (tests_dir : path) (plan : list (path * path)) :
  fold_left (rewrite_cmake_entry tests_dir) plan None = None.
Proof.
  induction plan as [|[old new] plan IH]; simpl; [reflexivity|exact IH].
Qed.

Lemma rewrite_cmake_relative (tests_dir : path) (plan : list (path * path))
    (text text1 : string) :
  rewrite_cmake tests_dir plan text = Some text1 ->
  forall e, In e plan ->
            relative_to tests_dir (fst e) <> None /\
            relative_to tests_dir (snd e) <> None.
Proof.
  unfold rewrite_cmake. revert text.
  induction plan as [|[old new] plan IH]; intros text H e He;
    [contradiction|].
  simpl in H.
  destruct (relative_to tests_dir old) as [r|] eqn:Eo;
    [|now rewrite rewrite_cmake_None in H].
  destruct (relative_to tests_dir new) as [r'|] eqn:En;
    [|now rewrite rewrite_cmake_None in H].
  destruct He as [<-|He].
  - simpl. rewrite Eo, En. split; discriminate.
  - eapply IH; eauto.
Qed.

Lemma rewrite_cmake_stable (tests_dir : path) (plan : list (path * path))
    (text : string) :
  (forall e, In e plan ->
             relative_to tests_dir (fst e) <> None /\
             relative_to tests_dir (snd e) <> None) ->
  cmake_stable tests_dir plan text ->
  rewrite_cmake tests_dir plan text = Some text.
Proof.
  unfold cmake_stable, rewrite_cmake.
  induction plan as [|[old new] plan IH]; intros Hr H; simpl; [reflexivity|].
  destruct (Hr (old, new)) as [Ho Hn]; [now left|]. simpl in Ho, Hn.
  destruct (H (old, new)) as [H1 H2]; [now left|]. simpl in H1, H2.
  destruct (relative_to tests_dir old) as [r|]; [|congruence].
  destruct (relative_to tests_dir new) as [r'|]; [|congruence].
  rewrite (StrFacts.replace_absent _ _ _ H1).
  rewrite (StrFacts.replace_absent _ _ _ (H2 r eq_refl)).
  apply IH; intros e He; [apply Hr|apply H]; now right.
Qed.

End RunFacts.

(** ** Invariants built from the disk and the log *)

Module KeepFacts.
Import PyStr PathLib FS TestReorganizer Notions PathFacts PlanFacts RunFacts.

Section Keeps.

Variable D : filesystem -> Prop.
Variable P : event -> Prop.

Lemma keeps_emit (e : event) : P e -> inv (keeps D P) (emit e).
Proof.
  intros He w [Hd Hl]. rewrite emit_effect. split; [exact Hd|].
  apply Forall_app. split; [exact Hl|]. now constructor.
Qed.

Lemma keeps_snoc (fs : filesystem) (w : world) (e : event) :
  D fs -> Forall P (log w) -> P e ->
  keeps D P (mkWorld fs (log w ++ [e])%list).
Proof.
  intros Hd Hl He. split; [exact Hd|].
  apply Forall_app. split; [exact Hl|]. now constructor.
Qed.

Hypothesis D_files :
  forall fs fs', files fs' = files fs -> D fs -> D fs'.

Lemma keeps_mkdir (p : path) :
  P (Mkdir p) -> inv (keeps D P) (mkdir_parents p).
Proof.
  intros He w [Hd Hl]. destruct (mkdir_effect p w) as [Hf Hlog].
  split; [now apply (D_files _ Hf)|].
  destruct Hlog as [->| ->]; [exact Hl|].
  apply Forall_app. split; [exact Hl|]. now constructor.
Qed.

Lemma keeps_rmdir (p : path) : P (Rmdir p) -> inv (keeps D P) (rmdir p).
Proof.
  intros He w [Hd Hl]. destruct (rmdir_effect p w) as [Hf Hlog].
  split; [now apply (D_files _ Hf)|]. rewrite Hlog.
  apply Forall_app. split; [exact Hl|]. now constructor.
Qed.

Hypothesis D_store :
  forall fs q c, D fs -> D (mkFS (store q c (files fs)) (dirs fs)).

Lemma keeps_copy2 (src dst : path) :
  (forall d, P (Copy src d)) -> inv (keeps D P) (copy2 src dst).
Proof.
  intros He w [Hd Hl].
  destruct (copy2_effect src dst w) as [->|(d & c & Hdisk & Hlog)];
    [now split|].
  split; [rewrite Hdisk; now apply D_store|]. rewrite Hlog.
  apply Forall_app. split; [exact Hl|]. now constructor.
Qed.

Lemma keeps_write (p : path) (text : string) :
  P (Write p text) -> inv (keeps D P) (write_text p text).
Proof.
  intros He w [Hd Hl]. rewrite write_effect.
  apply keeps_snoc; auto.
Qed.

Lemma keeps_move (src dst : path) :
  (forall fs q c,
     D fs -> D (mkFS (store q c (remove src (files fs))) (dirs fs))) ->
  (forall d, P (Move src d)) -> inv (keeps D P) (move src dst).
Proof.
  intros Hrm He w [Hd Hl].
  destruct (move_effect src dst w) as [->|(d & c & Hdisk & Hlog)];
    [now split|].
  split; [rewrite Hdisk; now apply Hrm|]. rewrite Hlog.
  apply Forall_app. split; [exact Hl|]. now constructor.
Qed.

End Keeps.

End KeepFacts.

(** ** The clean-up of the stem *)

Module StripFacts.
Import PyStr TestReorganizer Notions StrFacts.

Ltac head := simpl; tauto.

Lemma plain_cons (c : ascii) (v : string) :
  plain (String c v) = true ->
  (Ascii.eqb "t" c = false /\ Ascii.eqb "T" c = false /\
   Ascii.eqb "_" c = false /\ Ascii.eqb "e" c = false /\
   Ascii.eqb "n" c = false) /\ plain v = true.
Proof.
  unfold plain. cbn [all_chars]. intros H. apply andb_prop in H as [Hc Hv].
  split; [|exact Hv].
  unfold plain_char in Hc. cbn [existsb] in Hc. apply negb_true_iff in Hc.
  repeat (apply orb_false_iff in Hc as [? Hc]).
  rewrite !(Ascii.eqb_sym _ c). tauto.
Qed.

Lemma plain_free (h : ascii) (u : string) :
  In h ["t"; "T"; "_"]%char -> plain u = true ->
  all_chars (fun c => negb (Ascii.eqb h c)) u = true.
Proof.
  intros Hh. induction u as [|c u IH]; intros H; [reflexivity|].
  apply plain_cons in H as [(Ht & HT & Hu & _) Hv].
  cbn [all_chars]. rewrite (IH Hv), andb_true_r.
  simpl in Hh. destruct Hh as [<-|[<-|[<-|[]]]]; now apply negb_true_iff.
Qed.

Lemma pass_plain (h : ascii) (old' new u : string) :
  In h ["t"; "T"; "_"]%char -> plain u = true ->
  replace (String h old') new u = u.
Proof.
  intros Hh Hu. unfold replace.
  rewrite <- (append_nil_r u) at 1.
  rewrite replace_scan_skip_prefix by now apply plain_free.
  simpl. apply append_nil_r.
Qed.

Lemma pass_around (h : ascii) (old' new u rest : string) :
  In h ["t"; "T"; "_"]%char -> plain u = true ->
  replace (String h old') new (u ++ rest) =
  u ++ replace (String h old') new rest.
Proof.
  intros Hh Hu. unfold replace.
  apply replace_scan_skip_prefix. now apply plain_free.
Qed.

Lemma plain_app (u v : string) :
  plain u = true -> plain v = true -> plain (u ++ v) = true.
Proof.
  unfold plain. intros Hu Hv. now rewrite all_chars_app, Hu, Hv.
Qed.

Lemma scan_plain (h : ascii) (old' new u : string) :
  In h ["t"; "T"; "_"]%char -> plain u = true ->
  replace_scan (String h old') new u 0 = u.
Proof. intros Hh Hu. now apply (@pass_plain h old' new u). Qed.

Local Arguments Ascii.eqb !a !b.

Ltac scan :=
  unfold replace;
  cbn [String.append replace_scan startswith String.length Nat.sub
       Ascii.eqb Bool.eqb andb].

(** One pass over a token followed by plain text. *)
Ltac pass_token v Hv :=
  scan;
  destruct v as [|? v];
  [ reflexivity
  | let Ht := fresh in let HT := fresh in let Hu := fresh in
    let He := fresh in let Hn := fresh in let Hv' := fresh in
    pose proof Hv as Hv';
    apply plain_cons in Hv' as [(Ht & HT & Hu & He & Hn) Hv'];
    scan; rewrite ?Ht, ?HT, ?Hu, ?He, ?Hn; cbn [andb];
    rewrite ?scan_plain by (head || assumption); reflexivity ].

Lemma strip_test_ (u v : string) :
  plain u = true -> plain v = true -> clean_name (u ++ "test_" ++ v) = u ++ v.
Proof.
  intros Hu Hv. pose proof (plain_app _ _ Hu Hv) as Huv. unfold clean_name.
  rewrite pass_around by (head || assumption).
  assert (E : replace "test_" "" ("test_" ++ v) = v).
  { scan. now apply scan_plain; [head|]. }
  rewrite E. rewrite !(@pass_plain _ _ _ (u ++ v)) by (head || assumption).
  reflexivity.
Qed.

Lemma strip_Test (u v : string) :
  plain u = true -> plain v = true -> clean_name (u ++ "Test" ++ v) = u ++ v.
Proof.
  intros Hu Hv. pose proof (plain_app _ _ Hu Hv) as Huv. unfold clean_name.
  rewrite pass_around by (head || assumption).
  assert (E1 : replace "test_" "" ("Test" ++ v) = "Test" ++ v)
    by pass_token v Hv.
  rewrite E1. rewrite pass_around by (head || assumption).
  assert (E2 : replace "Test" "" ("Test" ++ v) = v).
  { scan. now apply scan_plain; [head|]. }
  rewrite E2. rewrite !(@pass_plain _ _ _ (u ++ v)) by (head || assumption).
  reflexivity.
Qed.

Lemma strip_new (u v : string) :
  plain u = true -> plain v = true -> clean_name (u ++ "_new" ++ v) = u ++ v.
Proof.
  intros Hu Hv. pose proof (plain_app _ _ Hu Hv) as Huv. unfold clean_name.
  rewrite pass_around by (head || assumption).
  assert (E1 : replace "test_" "" ("_new" ++ v) = "_new" ++ v)
    by pass_token v Hv.
  rewrite E1. rewrite pass_around by (head || assumption).
  assert (E2 : replace "Test" "" ("_new" ++ v) = "_new" ++ v)
    by pass_token v Hv.
  rewrite E2. rewrite pass_around by (head || assumption).
  assert (E3 : replace "_new" "" ("_new" ++ v) = v).
  { scan. now apply scan_plain; [head|]. }
  rewrite E3. rewrite !(@pass_plain _ _ _ (u ++ v)) by (head || assumption).
  reflexivity.
Qed.

Lemma strip_test (u v : string) :
  plain u = true -> plain v = true -> clean_name (u ++ "_test" ++ v) = u ++ v.
Proof.
  intros Hu Hv. pose proof (plain_app _ _ Hu Hv) as Huv. unfold clean_name.
  rewrite pass_around by (head || assumption).
  assert (E1 : replace "test_" "" ("_test" ++ v) = "_test" ++ v)
    by pass_token v Hv.
  rewrite E1. rewrite pass_around by (head || assumption).
  assert (E2 : replace "Test" "" ("_test" ++ v) = "_test" ++ v)
    by pass_token v Hv.
  rewrite E2. rewrite pass_around by (head || assumption).
  assert (E3 : replace "_new" "" ("_test" ++ v) = "_test" ++ v)
    by pass_token v Hv.
  rewrite E3. rewrite pass_around by (head || assumption).
  assert (E4 : replace "_test" "" ("_test" ++ v) = v).
  { scan. now apply scan_plain; [head|]. }
  rewrite E4. reflexivity.
Qed.

Lemma clean_name_absent (s : string) :
  (forall t, In t noise_tokens -> contains t s = false) ->
  clean_name s = s.
Proof.
  intros H. unfold clean_name.
  rewrite (replace_absent "test_" "" s) by (apply H; simpl; tauto).
  rewrite (replace_absent "Test" "" s) by (apply H; simpl; tauto).
  rewrite (replace_absent "_new" "" s) by (apply H; simpl; tauto).
  apply replace_absent. apply H; simpl; tauto.
Qed.

(** *** Several tokens *)

Lemma concat_nil_cons (x : string) (l : list string) :
  String.concat "" (x :: l) = x ++ String.concat "" l.
Proof.
  destruct l as [|y l]; simpl; [now rewrite append_nil_r|reflexivity].
Qed.

Lemma render_cons (keep : string -> bool) (u tok v : string)
    (l : list (string * string)) :
  render keep u ((tok, v) :: l)
  = u ++ (if keep tok then tok else "") ++ render keep v l.
Proof.
  unfold render. cbn [map fst snd]. rewrite concat_nil_cons.
  now rewrite append_assoc.
Qed.

Lemma render_nil (keep : string -> bool) (u : string) : render keep u [] = u.
Proof. unfold render. simpl. apply append_nil_r. Qed.

Lemma replace_scan_skip (old new x rest : string) :
  replace_scan old new (x ++ rest) (String.length x)
  = replace_scan old new rest 0.
Proof.
  induction x as [|c x IH]; simpl; [|exact IH].
  destruct rest; reflexivity.
Qed.

(** A pass deletes its token at the head and goes on behind it. *)
Lemma pass_head (h : ascii) (old' rest : string) :
  replace (String h old') "" (String h old' ++ rest)
  = replace (String h old') "" rest.
Proof.
  unfold replace. cbn [String.append replace_scan].
  change (String h (old' ++ rest)) with (String h old' ++ rest).
  rewrite startswith_refl_app. cbn [String.length Nat.sub String.append].
  rewrite Nat.sub_0_r. apply replace_scan_skip.
Qed.

Lemma plain_char_facts (c : ascii) :
  plain_char c = true ->
  Ascii.eqb "t" c = false /\ Ascii.eqb "T" c = false /\
  Ascii.eqb "_" c = false /\ Ascii.eqb "e" c = false /\
  Ascii.eqb "n" c = false.
Proof.
  intros H. destruct (@plain_cons c "") as [Hc _]; [|exact Hc].
  unfold plain. cbn [all_chars]. now rewrite H.
Qed.

(** A pass leaves a later token where it is. *)
Ltac pass_over :=
  let c := fresh "c" in let rest := fresh "rest" in
  let H := fresh in
  intros [|c rest] H;
  [ reflexivity
  | simpl in H; apply plain_char_facts in H;
    destruct H as (Ht & HT & Hu & He & Hn);
    scan; rewrite ?Ht, ?HT, ?Hu, ?He, ?Hn; cbn [andb]; reflexivity ].

Lemma over_1_2 (s : string) :
  plain_start s ->
  replace "test_" "" ("Test" ++ s) = "Test" ++ replace "test_" "" s.
Proof. revert s. pass_over. Qed.

Lemma over_1_3 (s : string) :
  plain_start s ->
  replace "test_" "" ("_new" ++ s) = "_new" ++ replace "test_" "" s.
Proof. revert s. pass_over. Qed.

Lemma over_1_4 (s : string) :
  plain_start s ->
  replace "test_" "" ("_test" ++ s) = "_test" ++ replace "test_" "" s.
Proof. revert s. pass_over. Qed.

Lemma over_2_3 (s : string) :
  plain_start s ->
  replace "Test" "" ("_new" ++ s) = "_new" ++ replace "Test" "" s.
Proof. revert s. pass_over. Qed.

Lemma over_2_4 (s : string) :
  plain_start s ->
  replace "Test" "" ("_test" ++ s) = "_test" ++ replace "Test" "" s.
Proof. revert s. pass_over. Qed.

Lemma over_3_4 (s : string) :
  plain_start s ->
  replace "_new" "" ("_test" ++ s) = "_test" ++ replace "_new" "" s.
Proof. revert s. pass_over. Qed.

Lemma render_plain_start (keep : string -> bool) (v : string)
    (l : list (string * string)) :
  plain v = true -> (v = "" -> l = []) -> plain_start (render keep v l).
Proof.
  intros Hv Hl. destruct v as [|c v].
  - rewrite (Hl eq_refl). exact I.
  - unfold render. cbn [String.append plain_start].
    unfold plain in Hv. cbn [all_chars] in Hv. now apply andb_prop in Hv.
Qed.

(** One pass over a text with tokens: the token of the pass goes, the
    tokens of the later passes stay. *)
Lemma pass_render (h : ascii) (old' : string) (later : list string)
    (keep : string -> bool) :
  In h ["t"; "T"; "_"]%char ->
  (forall tok s,
      In tok later -> plain_start s ->
      replace (String h old') "" (tok ++ s)
      = tok ++ replace (String h old') "" s) ->
  (forall tok, In tok noise_tokens -> keep tok = true ->
               tok = String h old' \/ In tok later) ->
  forall l u,
    plain u = true -> marked l ->
    replace (String h old') "" (render keep u l)
    = render (fun t => keep t && negb (String.eqb t (String h old'))) u l.
Proof.
  intros Hh Hover Hkeep.
  induction l as [|[tok v] l IH]; intros u Hu Hm.
  - rewrite !render_nil. now apply pass_plain.
  - destruct Hm as (Hin & Hv & Hlast & Hm). rewrite !render_cons.
    rewrite pass_around by assumption. f_equal.
    destruct (keep tok) eqn:Ek; cbn [andb].
    + destruct (String.eqb_spec tok (String h old')) as [->|Hne]; cbn [negb].
      * rewrite pass_head. cbn [String.append]. now apply IH.
      * destruct (Hkeep tok Hin Ek) as [E|Hl]; [contradiction|].
        rewrite Hover by (auto using render_plain_start).
        f_equal. now apply IH.
    + cbn [String.append]. now apply IH.
Qed.

Lemma render_ext (keep keep' : string -> bool) (l : list (string * string)) :
  (forall tok, In tok noise_tokens -> keep tok = keep' tok) ->
  forall u, marked l -> render keep u l = render keep' u l.
Proof.
  intros H. induction l as [|[tok v] l IH]; intros u Hm.
  - now rewrite !render_nil.
  - destruct Hm as (Hin & _ & _ & Hm). rewrite !render_cons.
    now rewrite (H tok Hin), (IH v Hm).
Qed.

Ltac token_cases H :=
  unfold noise_tokens in H; simpl in H;
  destruct H as [<-|[<-|[<-|[<-|[]]]]].

(** Tokens that stand apart are all deleted, and nothing else is. *)
Lemma clean_name_marked (u : string) (l : list (string * string)) :
  plain u = true -> marked l ->
  clean_name (with_tokens u l) = without_tokens u l.
Proof.
  intros Hu Hm. unfold clean_name, with_tokens, without_tokens.
  rewrite (@pass_render "t" "est_" ["Test"; "_new"; "_test"]); auto.
  rewrite (@pass_render "T" "est" ["_new"; "_test"]); auto.
  rewrite (@pass_render "_" "new" ["_test"]); auto.
  rewrite (@pass_render "_" "test" []); auto.
  - apply render_ext; [|exact Hm]. intros tok H. token_cases H; reflexivity.
  - simpl. tauto.
  - intros tok s [].
  - intros tok H. token_cases H; simpl; intros E;
      first [discriminate E | tauto].
  - simpl. tauto.
  - intros tok s [<-|[]]. apply over_3_4.
  - intros tok H. token_cases H; simpl; intros E;
      first [discriminate E | tauto].
  - simpl. tauto.
  - intros tok s [<-|[<-|[]]]; [apply over_2_3|apply over_2_4].
  - intros tok H. token_cases H; simpl; intros E;
      first [discriminate E | tauto].
  - simpl. tauto.
  - intros tok s [<-|[<-|[<-|[]]]]; [apply over_1_2|apply over_1_3|apply over_1_4].
  - intros tok H. token_cases H; simpl; intros E;
      first [discriminate E | tauto].
Qed.

End StripFacts.

(** ** One file, one pass *)

Module TwiceFacts.
Import PyStr PathLib FS TestReorganizer Notions.
Import StrFacts PathFacts RunFacts.

(** What [update_includes] does with a file it can read. *)
Lemma update_includes_result (dry_run : bool) (p : path)
    (plan : list (path * path)) (w : world) (raw : string) :
  lookup p (files (disk w)) = Some raw ->
  update_includes dry_run p plan w =
  let text := rewrite_includes plan (read_newlines raw) in
  if String.eqb text (read_newlines raw)
  then (Some false, mkWorld (disk w) (log w ++ [Read p])%list)
  else (Some true,
        if dry_run then mkWorld (disk w) (log w ++ [Read p])%list
        else mkWorld (mkFS (store p text (files (disk w))) (dirs (disk w)))
                     (log w ++ [Read p; Write p text])%list).
Proof.
  intros Hl. unfold update_includes, bind, get_disk. simpl. rewrite Hl.
  simpl.
  destruct (String.eqb (rewrite_includes plan (read_newlines raw))
                       (read_newlines raw)); simpl; [reflexivity|].
  destruct dry_run; simpl; [reflexivity|]. now rewrite <- app_assoc.
Qed.

(** What [update_cmake_file] does with a file it can read, when no
    [relative_to] fails. *)
Lemma update_cmake_file_result (tests_dir : path) (p : path)
    (plan : list (path * path)) (w : world) (raw text : string) :
  lookup p (files (disk w)) = Some raw ->
  rewrite_cmake tests_dir plan (read_newlines raw) = Some text ->
  disk (snd (update_cmake_file tests_dir false plan p w)) =
  if String.eqb text (read_newlines raw) then disk w
  else mkFS (store p text (files (disk w))) (dirs (disk w)).
Proof.
  intros Hl Hr. unfold update_cmake_file, bind, get_disk. simpl. rewrite Hl.
  simpl. rewrite Hr.
  destruct (String.eqb text (read_newlines raw)); reflexivity.
Qed.

Section Stable.

Variable tests_dir : path.
Variable plan : list (path * path).
Variable fs : filesystem.
Hypothesis Hstable : stable_disk tests_dir plan fs.

Lemma same_print (line : string) : inv (fun w => disk w = fs) (print line).
Proof. intros w H. exact H. Qed.

Lemma same_show_rel (p : path) :
  inv (fun w => disk w = fs) (show_rel tests_dir p).
Proof.
  unfold show_rel. destruct (relative_to tests_dir p);
    [apply inv_ret|apply inv_raise].
Qed.

Lemma same_scan_includes (p : path) :
  below tests_dir p = true -> glob_cpp (name p) || glob_h (name p) = true ->
  inv (fun w => disk w = fs) (scan_includes tests_dir false plan p).
Proof.
  intros Hb Hn w Hw. unfold scan_includes, bind.
  destruct (lookup p (files (disk w))) as [raw|] eqn:El.
  - rewrite (@update_includes_result false p plan w raw El). cbv zeta.
    pose proof Hstable as Hs. specialize (Hs p raw Hb).
    destruct Hs as [Hi _]; [now rewrite <- Hw|].
    rewrite (@rewrite_includes_stable plan _ (Hi Hn)), String.eqb_refl.
    exact Hw.
  - unfold update_includes, bind, get_disk. simpl. rewrite El. exact Hw.
Qed.

Lemma same_update_cmake_file (p : path) :
  below tests_dir p = true -> glob_cmake (name p) = true ->
  inv (fun w => disk w = fs) (update_cmake_file tests_dir false plan p).
Proof.
  intros Hb Hn w Hw. unfold update_cmake_file, bind, get_disk. simpl.
  destruct (lookup p (files (disk w))) as [raw|] eqn:El; [|exact Hw].
  simpl.
  destruct (rewrite_cmake tests_dir plan (read_newlines raw)) as [text|] eqn:Er;
    [|exact Hw].
  pose proof Hstable as Hs. specialize (Hs p raw Hb).
  destruct Hs as [_ Hc]; [now rewrite <- Hw|].
  assert (Er' : rewrite_cmake tests_dir plan (read_newlines raw)
                = Some (read_newlines raw)).
  { apply rewrite_cmake_stable; [|now apply Hc].
    eapply rewrite_cmake_relative; eauto. }
  rewrite Er' in Er. injection Er as <-. rewrite String.eqb_refl. exact Hw.
Qed.

Lemma same_rewrite_pass :
  inv (fun w => disk w = fs) (rewrite_pass tests_dir false plan).
Proof.
  unfold rewrite_pass.
  repeat (apply inv_bind; [apply same_print|intros ?]).
  apply inv_bind; [apply inv_get_disk|intros fs1].
  apply inv_bind.
  { apply inv_for_each. intros p Hp. apply rglob_In in Hp as [Hb Hn].
    apply same_scan_includes; [exact Hb|]. now rewrite Hn. }
  intros _. apply inv_bind; [apply inv_get_disk|intros fs2].
  apply inv_bind.
  { apply inv_for_each. intros p Hp. apply rglob_In in Hp as [Hb Hn].
    apply same_scan_includes; [exact Hb|]. rewrite Hn. apply orb_true_r. }
  intros _.
  repeat (apply inv_bind; [apply same_print|intros ?]).
  unfold update_cmake_files.
  apply inv_bind; [apply inv_get_disk|intros fs3].
  apply inv_for_each. intros p Hp. apply rglob_In in Hp as [Hb Hn].
  now apply same_update_cmake_file.
Qed.

End Stable.

End TwiceFacts.

(** ** What a completed run leaves *)

Module ReplanFacts.
Import PyStr PathLib FS TestReorganizer Notions.
Import StrFacts PathFacts PlanFacts RunFacts.



(** *** Where the files of the disk come from *)

Lemma made_app (l l' : list event) (p : path) :
  made l p -> made (l ++ l') p.
Proof.
  intros [src [H|H]]; exists src; [left|right]; apply in_or_app; now left.
Qed.



Section Accounted.

Variable S : path -> Prop.





Lemma accounted_move (src dst : path) : inv (accounted S) (move src dst).
Proof.
  intros w H. destruct (move_effect src dst w) as [->|(d & text & Hd & Hl)];
    [exact H|].
  intros p Hp. rewrite Hl. unfold is_file in Hp. rewrite Hd in Hp.
  simpl in Hp. rewrite lookup_store in Hp.
  destruct (path_eqb p d) eqn:E.
  - apply path_eqb_eq in E. subst d. right. exists src. left.
    apply in_or_app. right. now left.
  - rewrite lookup_remove in Hp. destruct (path_eqb p src); [discriminate|].
    destruct (H p) as [?|?]; [exact Hp|now left|right; now apply made_app].
Qed.


End Accounted.

(** *** Calls that follow the plan *)

Section Trace.

Variable tests_dir : path.
Variable plan : list (path * path).
Variable J : world -> Prop.

(** What [J] has to survive in a real run: the directories made are those
    of the categories, and a file is written where a file is. *)
Hypothesis T_print : forall line, inv J (print line).
Hypothesis T_read : forall p, inv J (emit (Read p)).
Hypothesis T_mkdir :
  forall d, In d new_dir_names -> inv J (mkdir_parents (tests_dir ++ [d])%list).
Hypothesis T_copy :
  forall old new, In (old, new) plan -> inv J (copy2 old (backup_of old)).
Hypothesis T_move :
  forall old new, In (old, new) plan -> inv J (move old new).
Hypothesis T_write :
  forall p text w, J w -> is_file p (disk w) = true ->
                   J (snd (write_text p text w)).
Hypothesis T_rmdir : forall p, inv J (rmdir p).

(** The destinations of [plan] lie in the directories of the categories. *)
Hypothesis plan_parent :
  forall old new, In (old, new) plan ->
                  exists d, In d new_dir_names /\
                            parent new = (tests_dir ++ [d])%list.












End Trace.


(** *** The rename loop *)




(** *** Moves and copies go where the plan says *)





Section Planned.

Variable tests_dir : path.
Variable fs0 : filesystem.
Variable plan : list (path * path).

Hypothesis plan_shape :
  forall old new, In (old, new) plan ->
    exists d n rel file,
      In d new_dir_names /\ new = (tests_dir ++ [d; n])%list /\
      old = (tests_dir ++ rel ++ [file])%list.
Hypothesis new_no_dir :
  forall old new, In (old, new) plan -> is_dir new fs0 = false.
Hypothesis backup_no_dir :
  forall old new, In (old, new) plan -> is_dir (backup_of old) fs0 = false.









End Planned.

(** *** The plan of the tree a run leaves *)

Section Replan.

Variable tests_dir : path.
Variable fs : filesystem.









End Replan.

End ReplanFacts.

(** * The claims *)

Module Claims.
Import PyStr PathLib FS TestReorganizer Notions Trees.
Import StrFacts PathFacts PlanFacts RunFacts KeepFacts StripFacts.
Import TwiceFacts ReplanFacts.

(** C5.  A dry run leaves the disk as it found it: the files with their
    text and the directories after the run are those before it, and the
    run does nothing but read files and print. *)
Theorem dry_run_leaves_disk (tests_dir : path) (fs : filesystem) :
  disk (snd (run tests_dir true fs)) = fs /\
  Forall reads_or_prints (log (snd (run tests_dir true fs))).
Proof.
  unfold run.
  apply (@inv_execute tests_dir true
           (keeps (fun d => d = fs) reads_or_prints)
           (generate_reorganization_plan tests_dir fs));
    try (intros; discriminate); try reflexivity.
  - intros line. now apply keeps_emit.
  - intros p _ _. now apply keeps_emit.
  - split; [reflexivity|constructor].
Qed.

(** Every event of a run is an expected one: copies and moves start from
    keys of the plan, reads and writes go to the names of the rewriting
    passes. *)
Lemma run_expected (tests_dir : path) (dry_run : bool) (fs : filesystem) :
  Forall (expected_event (generate_reorganization_plan tests_dir fs))
         (log (snd (run tests_dir dry_run fs))).
Proof.
  set (plan := generate_reorganization_plan tests_dir fs).
  assert (Hk : forall old new, In (old, new) plan -> In old (map fst plan)).
  { intros old new H. apply in_map_iff. now exists (old, new). }
  unfold run.
  apply (@inv_execute tests_dir dry_run
           (keeps (fun _ => True) (expected_event plan)) plan);
    try reflexivity.
  - intros line. now apply keeps_emit.
  - intros p _ Hn. now apply keeps_emit.
  - intros _ p. now apply keeps_mkdir.
  - intros _ old new H. apply keeps_copy2; auto. intros d. simpl. eauto.
  - intros _ old new H. apply keeps_move; auto. intros d. simpl. eauto.
  - intros _ p text _ Hn. now apply keeps_write.
  - intros _ p. now apply keeps_rmdir.
  - split; [exact I|constructor].
Qed.

(** A file that is no key of the plan is still a file after the run. *)
Lemma run_keeps_file (tests_dir : path) (dry_run : bool) (fs : filesystem)
    (p : path) :
  is_file p fs = true ->
  ~ In p (map fst (generate_reorganization_plan tests_dir fs)) ->
  is_file p (disk (snd (run tests_dir dry_run fs))) = true.
Proof.
  intros Hf Hk.
  set (plan := generate_reorganization_plan tests_dir fs) in *.
  assert (Hne : forall old new, In (old, new) plan -> p <> old).
  { intros old new H ->. apply Hk. apply in_map_iff. now exists (old, new). }
  unfold run.
  apply (@inv_execute tests_dir dry_run
           (keeps (fun d => is_file p d = true) (fun _ => True)) plan);
    try reflexivity.
  - intros line. now apply keeps_emit.
  - intros q _ _. now apply keeps_emit.
  - intros _ q. apply keeps_mkdir; auto.
    intros a b E. now rewrite (is_file_files _ _ _ E).
  - intros _ old new H. apply keeps_copy2; auto.
    intros a q c. apply is_file_store.
  - intros _ old new H. apply keeps_move; auto.
    intros a q c Ha. unfold is_file in *. simpl.
    rewrite lookup_store, lookup_remove.
    destruct (path_eqb p q); [reflexivity|].
    apply Hne in H. apply path_eqb_neq in H. now rewrite H.
  - intros _ q text _ _. apply keeps_write; auto.
    intros a r c. apply is_file_store.
  - intros _ q. apply keeps_rmdir; auto.
    intros a b E. now rewrite (is_file_files _ _ _ E).
  - split; [exact Hf|constructor].
Qed.

(** C7.  A file below the tests directory whose name is one of the four
    names of the framework is put into no bucket of the structure, is no
    key of the plan, is never the source of a move, and is still a file
    at its path when the run is over. *)
Theorem framework_file_stays (tests_dir : path) (dry_run : bool)
    (fs : filesystem) (p : path) :
  is_file p fs = true -> below tests_dir p = true ->
  is_framework_file (name p) = true ->
  (forall k l, In (k, l) (analyze_current_structure tests_dir fs) ->
               ~ In p l) /\
  ~ In p (map fst (generate_reorganization_plan tests_dir fs)) /\
  (forall dst, ~ In (Move p dst) (log (snd (run tests_dir dry_run fs)))) /\
  is_file p (disk (snd (run tests_dir dry_run fs))) = true.
Proof.
  intros Hf Hb Hfw.
  assert (Hc : forall k, ~ In (k, p) (classified tests_dir fs)).
  { intros k H. apply classified_source in H as (_ & H & _). congruence. }
  assert (Hk : ~ In p (map fst (generate_reorganization_plan tests_dir fs))).
  { intros H. apply plan_key_classified in H as (k & H & _).
    now apply (Hc k). }
  repeat split.
  - intros k l Hl Hp. apply (Hc k). eapply structure_In; eauto.
  - exact Hk.
  - intros dst H. pose proof (run_expected tests_dir dry_run fs) as He.
    rewrite Forall_forall in He. apply He in H. simpl in H. contradiction.
  - now apply run_keeps_file.
Qed.

Lemma framework_file_stays_witness :
  let fs := mkFS [ (at_root ["unit"; "TestUtilities.h"], "int u;");
                   (at_root ["unit"; "test_foo.cpp"], "int a;") ]
                 [ root; at_root ["unit"] ] in
  let p := at_root ["unit"; "TestUtilities.h"] in
  ~ In p (map fst (generate_reorganization_plan root fs)) /\
  is_file p (disk (snd (run root false fs))) = true.
Proof.
  intros fs p.
  destruct (@framework_file_stays root false fs p) as (_ & H2 & _ & H4);
    try reflexivity.
  split; [exact H2|exact H4].
Defined.

(** C10.  A file whose name does not end in [.cpp] or [.h] is put into no
    bucket, is no key of the plan, is never the source of a move and is
    never among the files the include pass goes through.  A name that ends
    in [.bak] is such a name, the backup path the run computes has such a
    name, and a file of that name is neither read nor written by a run. *)
Theorem only_sources_handled (tests_dir : path) (dry_run : bool)
    (fs : filesystem) (p : path) :
  is_source_name (name p) = false ->
  (forall k l, In (k, l) (analyze_current_structure tests_dir fs) ->
               ~ In p l) /\
  ~ In p (map fst (generate_reorganization_plan tests_dir fs)) /\
  (forall dst, ~ In (Move p dst) (log (snd (run tests_dir dry_run fs)))) /\
  (forall fs', ~ In p (rglob tests_dir glob_cpp fs') /\
               ~ In p (rglob tests_dir glob_h fs')) /\
  (forall n, endswith ".bak" n = true -> is_source_name n = false) /\
  (forall old,
     endswith ".bak" (name (with_suffix old (suffix old ++ ".bak"))) = true) /\
  (endswith ".bak" (name p) = true ->
   ~ In (Read p) (log (snd (run tests_dir dry_run fs))) /\
   forall text, ~ In (Write p text) (log (snd (run tests_dir dry_run fs)))).
Proof.
  intros Hs.
  assert (Hc : forall k, ~ In (k, p) (classified tests_dir fs)).
  { intros k H. apply classified_source in H as (H & _). congruence. }
  assert (Hk : ~ In p (map fst (generate_reorganization_plan tests_dir fs))).
  { intros H. apply plan_key_classified in H as (k & H & _).
    now apply (Hc k). }
  pose proof (run_expected tests_dir dry_run fs) as He.
  rewrite Forall_forall in He.
  unfold is_source_name in Hs. apply orb_false_iff in Hs as [Hcpp Hh].
  repeat split.
  - intros k l Hl Hp. apply (Hc k). eapply structure_In; eauto.
  - exact Hk.
  - intros dst H. apply He in H. simpl in H. contradiction.
  - intros H. apply rglob_In in H as [_ H]. unfold glob_cpp in H. congruence.
  - intros H. apply rglob_In in H as [_ H]. unfold glob_h in H. congruence.
  - apply bak_not_source.
  - intros old. rewrite backup_name. apply endswith_app.
  - intros Hr. apply He in Hr. simpl in Hr.
    rewrite bak_not_rewritable in Hr by assumption. discriminate.
  - intros text Hw. apply He in Hw. simpl in Hw.
    rewrite bak_not_rewritable in Hw by assumption. discriminate.
Qed.

Lemma only_sources_handled_witness :
  let fs := mkFS [ (at_root ["unit"; "test_foo.cpp.bak"], "int a;");
                   (at_root ["unit"; "test_bar.cpp"], "int b;") ]
                 [ root; at_root ["unit"] ] in
  let p := at_root ["unit"; "test_foo.cpp.bak"] in
  ~ In p (map fst (generate_reorganization_plan root fs)) /\
  (forall text, ~ In (Write p text) (log (snd (run root false fs)))).
Proof.
  intros fs p.
  destruct (@only_sources_handled root false fs p)
    as (_ & H2 & _ & _ & _ & _ & H7); [reflexivity|].
  split; [exact H2|]. apply H7. reflexivity.
Defined.

(** C1, as stated, fails: the two unit tests [test_foo.cpp] and
    [FooTest.cpp] are both planned, and both for [Unit/Unit_Foo_Test.cpp];
    the run reports nothing and the second move replaces the file the
    first one put there. *)
Lemma plan_collision :
  ~ no_collision (generate_reorganization_plan root two_styles) /\
  generate_reorganization_plan root two_styles =
    [ (at_root ["unit"; "test_foo.cpp"], at_root ["Unit"; "Unit_Foo_Test.cpp"]);
      (at_root ["unit"; "FooTest.cpp"], at_root ["Unit"; "Unit_Foo_Test.cpp"]) ] /\
  lookup (at_root ["Unit"; "Unit_Foo_Test.cpp"])
         (files (disk (snd (run root false two_styles)))) = Some "int b;".
Proof.
  split; [|split; reflexivity].
  intros H.
  specialize (H (at_root ["unit"; "test_foo.cpp"])
                (at_root ["unit"; "FooTest.cpp"])
                (at_root ["Unit"; "Unit_Foo_Test.cpp"])).
  assert (E : at_root ["unit"; "test_foo.cpp"] = at_root ["unit"; "FooTest.cpp"]).
  { apply H; vm_compute; tauto. }
  discriminate E.
Qed.

(** C1, amended.  The keys of the plan are pairwise distinct.  Every
    entry maps a classified file to a path other than its own: the path
    made of the tests directory, the directory of its category and its
    generated name.  Every classified file outside the misc bucket that is
    not skipped as a [_new] duplicate and is not in place already is an
    entry.  So two such files with the same destination are both
    entries, with that destination: the builder, which returns the plan
    and nothing else, leaves the collision in it. *)
Theorem plan_entries (tests_dir : path) (fs : filesystem) :
  let plan := generate_reorganization_plan tests_dir fs in
  NoDup (map fst plan) /\
  (forall old new,
      In (old, new) plan ->
      old <> new /\
      new = target tests_dir (category_of tests_dir old) old /\
      In (category_of tests_dir old, old) (classified tests_dir fs)) /\
  (forall k p,
      In (k, p) (classified tests_dir fs) -> k <> "misc" ->
      skipped fs p = false -> differs tests_dir k p = true ->
      In (p, target tests_dir k p) plan) /\
  (forall k1 p1 k2 p2,
      In (k1, p1) (classified tests_dir fs) -> k1 <> "misc" ->
      skipped fs p1 = false -> differs tests_dir k1 p1 = true ->
      In (k2, p2) (classified tests_dir fs) -> k2 <> "misc" ->
      skipped fs p2 = false -> differs tests_dir k2 p2 = true ->
      target tests_dir k1 p1 = target tests_dir k2 p2 ->
      In (p1, target tests_dir k1 p1) plan /\
      In (p2, target tests_dir k1 p1) plan).
Proof.
  intros plan.
  assert (Hall : forall k p,
             In (k, p) (classified tests_dir fs) -> k <> "misc" ->
             skipped fs p = false -> differs tests_dir k p = true ->
             In (p, target tests_dir k p) plan).
  { intros k p Hc Hne Hs Hd. apply plan_In. exists k. tauto. }
  split; [apply plan_keys_NoDup|]. split; [|split; [exact Hall|]].
  - intros old new H.
    apply plan_In in H as (k & Hc & Hne & Hs & Hd & ->).
    rewrite <- (classified_category _ _ _ _ Hc).
    repeat split; auto. now apply differs_neq.
  - intros k1 p1 k2 p2 Hc1 Hn1 Hs1 Hd1 Hc2 Hn2 Hs2 Hd2 E. split.
    + now apply Hall.
    + rewrite E. now apply Hall.
Qed.

Lemma plan_entries_witness :
  In (at_root ["unit"; "test_foo.cpp"], at_root ["Unit"; "Unit_Foo_Test.cpp"])
     (generate_reorganization_plan root two_styles) /\
  In (at_root ["unit"; "FooTest.cpp"], at_root ["Unit"; "Unit_Foo_Test.cpp"])
     (generate_reorganization_plan root two_styles).
Proof.
  destruct (@plan_entries root two_styles) as (_ & _ & _ & H).
  apply (H "unit" (at_root ["unit"; "test_foo.cpp"])
           "unit" (at_root ["unit"; "FooTest.cpp"]));
    first [ discriminate | reflexivity | vm_compute; tauto ].
Defined.

(** C8, as stated, fails: a file in the directory [integration] whose name
    contains [test_] goes to the unit bucket, and so does a file in a
    directory whose name merely contains the letters of "unit". *)
Lemma directory_does_not_decide :
  ~ (forall rel file k,
        In k priority -> In k rel -> categorize rel file = k) /\
  categorize ["integration"] "test_search.cpp" = "unit" /\
  categorize ["community"; "integration"] "Login.cpp" = "unit".
Proof.
  split; [|split; reflexivity].
  intros H.
  specialize (H ["integration"] "test_search.cpp" "integration").
  assert (E : categorize ["integration"] "test_search.cpp" = "integration").
  { apply H; vm_compute; tauto. }
  discriminate E.
Qed.

(** C8, amended.  The category is the first word, in the order "unit",
    "integration", "performance", "controller", "command", "factory",
    whose rule applies, and misc when none does.  The rule of a word is
    that it occurs in the relative directory path, where it counts
    wherever it stands, in every segment and also inside a longer word; the
    rule of "unit" applies as well when [test_] occurs in the file name.
    So a directory segment that is one of these words decides the category
    when no rule before it applies: none of the earlier words occurs in
    the path and, unless the segment is "unit", the file name does not
    contain [test_].  A file name with [test_] gives unit, whatever the
    directory; and a file is misc when none of the words occurs in the
    path and its name has no [test_]. *)
Theorem categorize_priority (rel : path) (file : string) :
  categorize rel file
  = match find (rule rel file) priority with
    | Some k => k
    | None => "misc"
    end /\
  (forall seg k,
      In seg rel -> contains k seg = true ->
      contains k (str_rel rel) = true) /\
  (forall k rank,
      nth_error priority rank = Some k ->
      In k rel ->
      (forall j k', j < rank -> nth_error priority j = Some k' ->
                    contains k' (str_rel rel) = false) ->
      (0 < rank -> contains "test_" file = false) ->
      categorize rel file = k) /\
  (contains "test_" file = true -> categorize rel file = "unit") /\
  ((forall k, In k priority -> contains k (str_rel rel) = false) ->
   contains "test_" file = false ->
   categorize rel file = "misc").
Proof.
  split; [|split; [|split; [|split]]].
  - unfold categorize, priority, rule. cbn [find String.eqb Ascii.eqb Bool.eqb andb].
    destruct (contains "unit" (str_rel rel)); cbn [orb];
      [repeat match goal with
              | |- context [if ?b then _ else _] => destruct b
              end; reflexivity|].
    destruct (contains "test_" file); cbn [orb];
      [repeat match goal with
              | |- context [if ?b then _ else _] => destruct b
              end; reflexivity|].
    rewrite !orb_false_r.
    repeat match goal with
           | |- context [if ?b then _ else _] => destruct b
           end; reflexivity.
  - intros seg k Hin Hc. unfold str_rel.
    destruct rel as [|x rel]; [contradiction|].
    now apply (@contains_segment "/" k seg (x :: rel)).
  - intros k rank Hk Hin Hearlier Hname.
    assert (Hc : contains k (str_rel rel) = true).
    { unfold str_rel. destruct rel as [|x rel]; [contradiction|].
      now apply contains_concat. }
    assert (Hskip : forall j w, nth_error priority j = Some w -> j < rank ->
                            contains w (str_rel rel) = false) by eauto.
    unfold categorize.
    destruct rank as [|[|[|[|[|[|rank]]]]]]; simpl in Hk;
      [ | | | | | | destruct rank; discriminate ]; injection Hk as <-.
    + rewrite Hc. simpl.
      repeat match goal with
             | |- context [if ?b then _ else _] => destruct b
             end; reflexivity.
    + rewrite (Hskip 0 "unit"), Hname, Hc by (reflexivity || lia).
      reflexivity.
    + rewrite (Hskip 0 "unit"), Hname, (Hskip 1 "integration"), Hc
        by (reflexivity || lia).
      reflexivity.
    + rewrite (Hskip 0 "unit"), Hname, (Hskip 1 "integration"),
        (Hskip 2 "performance"), Hc by (reflexivity || lia).
      reflexivity.
    + rewrite (Hskip 0 "unit"), Hname, (Hskip 1 "integration"),
        (Hskip 2 "performance"), (Hskip 3 "controller"), Hc
        by (reflexivity || lia).
      reflexivity.
    + rewrite (Hskip 0 "unit"), Hname, (Hskip 1 "integration"),
        (Hskip 2 "performance"), (Hskip 3 "controller"),
        (Hskip 4 "command"), Hc by (reflexivity || lia).
      reflexivity.
  - intros Hn. unfold categorize. rewrite Hn, orb_true_r.
    repeat match goal with
           | |- context [if ?b then _ else _] => destruct b
           end; reflexivity.
  - intros Hno Hn. unfold categorize. rewrite Hn.
    rewrite !Hno by (unfold priority; simpl; tauto). reflexivity.
Qed.

Lemma categorize_priority_witness :
  categorize ["integration"; "search"] "SearchFlow.cpp" = "integration".
Proof.
  apply (proj1 (proj2 (proj2 (@categorize_priority ["integration"; "search"]
                                "SearchFlow.cpp"))) "integration" 1).
  - reflexivity.
  - simpl. tauto.
  - intros j k' Hj. assert (j = 0) as -> by lia. simpl.
    intros E. inversion E. reflexivity.
  - intros _. reflexivity.
Defined.

(** C2, as stated, fails on the tree that holds the test alone and on
    the tree that holds the test and its header: the planned name is
    [Controller_Actionmap_Test.cpp].  Where the header is not in the tree
    the include line of the moved file is the line it had before. *)
Lemma scenario_fails :
  ~ scenario_holds root action_map_alone /\
  ~ scenario_holds root action_map /\
  lookup (at_root ["Controller"; "Controller_Actionmap_Test.cpp"])
         (files (disk (snd (run root false action_map_alone))))
  = lookup (at_root ["controller"; "ActionMapTest.cpp"])
           (files action_map_alone).
Proof.
  split; [|split; [|reflexivity]].
  - intros (_ & H & _). vm_compute in H.
    destruct H as [H|[]]. discriminate H.
  - intros (_ & H & _). vm_compute in H.
    destruct H as [H|[H|[]]]; discriminate H.
Qed.

(** C2, amended.  A tree that holds [controller/ActionMapTest.cpp], not
    skipped as a [_new] duplicate: the file is classified as a controller
    test and the plan maps it into the directory [Controller], under the
    generated name, which has the form [Controller_<stem>_Test.cpp].  On
    the tree of the test and its header a real run leaves the old path
    empty and the backup beside it, and the include line of the moved
    file names the header as the plan renames it; on the tree of the test
    alone the run does the same and the include line stays as it was. *)
Theorem action_map_scenario (tests_dir : path) (fs : filesystem) :
  let old := (tests_dir ++ ["controller"; "ActionMapTest.cpp"])%list in
  is_file old fs = true -> skipped fs old = false ->
  categorize ["controller"] "ActionMapTest.cpp" = "controller" /\
  (exists stem,
      generate_new_name old "controller"
      = "Controller_" ++ stem ++ "_Test.cpp" /\
      In (old, (tests_dir ++ ["Controller";
                              ("Controller_" ++ stem ++ "_Test.cpp")%string])%list)
         (generate_reorganization_plan tests_dir fs)) /\
  (let fs' := disk (snd (run root false action_map)) in
   exists header,
     In (at_root ["controller"; "ActionMapTest.h"],
         at_root ["Controller"; header])
        (generate_reorganization_plan root action_map) /\
     lookup (at_root ["Controller";
                      generate_new_name ["ActionMapTest.cpp"] "controller"])
            (files fs')
     = Some ("#include " ++ dquote ++ header ++ dquote ++ newline
             ++ "void run();" ++ newline) /\
     exists_ (at_root ["controller"; "ActionMapTest.cpp"]) fs' = false /\
     lookup (at_root ["controller"; "ActionMapTest.cpp.bak"]) (files fs')
     = lookup (at_root ["controller"; "ActionMapTest.cpp"])
              (files action_map)) /\
  (let fs' := disk (snd (run root false action_map_alone)) in
   lookup (at_root ["Controller";
                    generate_new_name ["ActionMapTest.cpp"] "controller"])
          (files fs')
   = lookup (at_root ["controller"; "ActionMapTest.cpp"])
            (files action_map_alone) /\
   exists_ (at_root ["controller"; "ActionMapTest.cpp"]) fs' = false /\
   lookup (at_root ["controller"; "ActionMapTest.cpp.bak"]) (files fs')
   = lookup (at_root ["controller"; "ActionMapTest.cpp"])
            (files action_map_alone)).
Proof.
  intros old Hf Hs. split; [reflexivity|]. split; [|split].
  - exists "Actionmap".
    assert (En : generate_new_name old "controller"
                 = "Controller_Actionmap_Test.cpp").
    { unfold old.
      change (tests_dir ++ ["controller"; "ActionMapTest.cpp"])%list
        with (tests_dir ++ ["controller"] ++ ["ActionMapTest.cpp"])%list.
      now rewrite generate_new_name_full. }
    split; [exact En|].
    apply plan_In. exists "controller".
    assert (Hw : In (["controller"], "ActionMapTest.cpp") (walk tests_dir fs))
      by (apply is_file_walk; exact Hf).
    repeat split.
    + apply classified_In. exists ["controller"], "ActionMapTest.cpp".
      repeat split; auto.
    + discriminate.
    + exact Hs.
    + unfold differs. rewrite En. unfold old.
      change (tests_dir ++ ["controller"; "ActionMapTest.cpp"])%list
        with (tests_dir ++ ["controller"] ++ ["ActionMapTest.cpp"])%list.
      now rewrite name_full.
    + unfold target. now rewrite En.
  - exists "Controller_Actionmap_Test.h". repeat split; try reflexivity.
    vm_compute. tauto.
  - repeat split; reflexivity.
Qed.

Lemma action_map_scenario_witness :
  exists stem,
    In (at_root ["controller"; "ActionMapTest.cpp"],
        at_root ["Controller"; "Controller_" ++ stem ++ "_Test.cpp"])
       (generate_reorganization_plan root action_map).
Proof.
  destruct (@action_map_scenario root action_map)
    as (_ & (stem & _ & H) & _); try reflexivity.
  exists stem. exact H.
Defined.

(** C6.  The rewriting passes print, read and write, and never copy a
    file, whatever the tree and the plan.  So on a tree where a file
    outside the plan includes a renamed header, the include pass writes the
    new text over [tools/main.cpp], and the CMake pass over
    [CMakeLists.txt], while no copy of either file is made before or
    after, and no backup of them is on the disk when the run is over. *)
Theorem rewritten_without_backup :
  (forall tests_dir plan fs,
      Forall rewriting_event
        (log (snd (rewrite_pass tests_dir false plan (mkWorld fs []))))) /\
  let main := at_root ["tools"; "main.cpp"] in
  let cmake := at_root ["CMakeLists.txt"] in
  let w := snd (run root false with_client) in
  lookup main (files (disk w))
    = Some ("#include " ++ dquote ++ "Unit_Foo_Test.h" ++ dquote ++ newline) /\
  lookup cmake (files (disk w)) = Some "add_library(foo Unit_Foo_Test.h)" /\
  existsb (writes main) (log w) = true /\
  existsb (writes cmake) (log w) = true /\
  existsb (copies main) (log w) = false /\
  existsb (copies cmake) (log w) = false /\
  exists_ (with_suffix main (suffix main ++ ".bak")) (disk w) = false /\
  exists_ (with_suffix cmake (suffix cmake ++ ".bak")) (disk w) = false /\
  map fst (files (disk w)) =
    [ main; cmake; at_root ["unit"; "test_foo.h.bak"];
      at_root ["Unit"; "Unit_Foo_Test.h"] ].
Proof.
  split; [|repeat split; reflexivity].
  intros tests_dir plan fs.
  apply (@inv_rewrite_pass tests_dir false
           (keeps (fun _ => True) rewriting_event)).
  - intros line. now apply keeps_emit.
  - intros p _ _. now apply keeps_emit.
  - intros _ p text _ _. now apply keeps_write.
  - split; [exact I|constructor].
Qed.




(** C4, as stated, fails.  The generated name [Unit_T_Test.cpp] contains
    the old name [t.cpp], so each pass over the CMake file replaces the end
    of the name the pass before has written; and where one header of the
    plan has the generated name of another, the second pass rewrites the
    include line the first one produced. *)
Lemma rewrite_not_idempotent :
  ~ (forall tests_dir plan fs,
        let once := snd (rewrite_pass tests_dir false plan (mkWorld fs [])) in
        disk (snd (rewrite_pass tests_dir false plan once)) = disk once) /\
  (let plan := generate_reorganization_plan root listed_in_cmake in
   rewrite_cmake root plan "add_executable(t_test unit/t.cpp)"
     = Some "add_executable(t_test unit/Unit_T_Test.cpp)" /\
   rewrite_cmake root plan "add_executable(t_test unit/Unit_T_Test.cpp)"
     = Some "add_executable(t_test unit/Unit_T_TesUnit_T_Test.cpp)") /\
  (let plan := generate_reorganization_plan root chained_names in
   rewrite_includes plan ("#include " ++ dquote ++ "latest.h" ++ dquote)
     = "#include " ++ dquote ++ "Unit_Latest_Test.h" ++ dquote /\
   rewrite_includes plan
       ("#include " ++ dquote ++ "Unit_Latest_Test.h" ++ dquote)
     = "#include " ++ dquote ++ "Unit_UnitLa_Test.h" ++ dquote).
Proof.
  split; [|repeat split; reflexivity].
  intros H.
  specialize (H root (generate_reorganization_plan root listed_in_cmake)
                listed_in_cmake).
  vm_compute in H. discriminate H.
Qed.

(** C4, amended.  One file and two passes with the same plan, in a real
    run.  The pass reads the file with universal newlines and computes the
    rewritten text.  When that text is the text read, the file is reported
    as not updated and neither this pass nor the next touches the disk.
    When it differs, the file is reported as updated and then holds the
    rewritten text; the next pass leaves the file as the first one made it
    when none of the strings the plan looks for occurs in what it reads
    from it: the four include forms of each old name for a source file,
    each old name and old relative path for a CMake file.  And on a disk
    where this is so for every file the passes open, the whole pass
    changes nothing. *)
Theorem rewrite_twice (tests_dir : path) (plan : list (path * path)) :
  (forall p w raw,
      lookup p (files (disk w)) = Some raw ->
      let text := rewrite_includes plan (read_newlines raw) in
      let first := update_includes false p plan w in
      let second := update_includes false p plan (snd first) in
      (text = read_newlines raw ->
       fst first = Some false /\ disk (snd first) = disk w /\
       fst second = Some false /\ disk (snd second) = disk w) /\
      (text <> read_newlines raw ->
       fst first = Some true /\
       lookup p (files (disk (snd first))) = Some text /\
       (include_stable plan (read_newlines text) ->
        fst second = Some false /\ disk (snd second) = disk (snd first)))) /\
  (forall p w raw text,
      lookup p (files (disk w)) = Some raw ->
      rewrite_cmake tests_dir plan (read_newlines raw) = Some text ->
      let first := snd (update_cmake_file tests_dir false plan p w) in
      let second := snd (update_cmake_file tests_dir false plan p first) in
      (text = read_newlines raw ->
       disk first = disk w /\ disk second = disk w) /\
      (text <> read_newlines raw ->
       lookup p (files (disk first)) = Some text /\
       (cmake_stable tests_dir plan (read_newlines text) ->
        disk second = disk first))) /\
  (forall w,
      stable_disk tests_dir plan (disk w) ->
      disk (snd (rewrite_pass tests_dir false plan w)) = disk w).
Proof.
  split; [|split].
  - intros p w raw Hl text first second.
    assert (E1 : first =
                 if String.eqb text (read_newlines raw)
                 then (Some false, mkWorld (disk w) (log w ++ [Read p])%list)
                 else (Some true,
                       mkWorld (mkFS (store p text (files (disk w)))
                                     (dirs (disk w)))
                               (log w ++ [Read p; Write p text])%list))
      by apply (@update_includes_result false p plan w raw Hl).
    split.
    + intros Heq. apply String.eqb_eq in Heq. rewrite Heq in E1.
      assert (Hd1 : disk (snd first) = disk w) by now rewrite E1.
      assert (Hl1 : lookup p (files (disk (snd first))) = Some raw)
        by now rewrite Hd1.
      assert (E2 : second = (Some false,
                             mkWorld (disk (snd first))
                                     (log (snd first) ++ [Read p])%list)).
      { unfold second.
        rewrite (@update_includes_result false p plan _ raw Hl1). cbv zeta.
        fold text. now rewrite Heq. }
      rewrite E2. simpl. rewrite Hd1. rewrite E1. simpl. auto.
    + intros Hne. apply String.eqb_neq in Hne. rewrite Hne in E1.
      assert (Hl1 : lookup p (files (disk (snd first))) = Some text).
      { rewrite E1. simpl. now rewrite lookup_store, path_eqb_refl. }
      rewrite E1 at 1. simpl. split; [reflexivity|]. split; [exact Hl1|].
      intros Hs. unfold second.
      rewrite (@update_includes_result false p plan _ text Hl1). cbv zeta.
      rewrite (@rewrite_includes_stable plan _ Hs), String.eqb_refl. simpl. auto.
  - intros p w raw text Hl Hr first second.
    assert (E1 : disk first =
                 if String.eqb text (read_newlines raw) then disk w
                 else mkFS (store p text (files (disk w))) (dirs (disk w)))
      by apply (@update_cmake_file_result tests_dir p plan w raw text Hl Hr).
    split.
    + intros Heq. apply String.eqb_eq in Heq. rewrite Heq in E1.
      split; [exact E1|]. unfold second.
      assert (Hl1 : lookup p (files (disk first)) = Some raw)
        by now rewrite E1.
      rewrite (@update_cmake_file_result tests_dir p plan first raw text Hl1 Hr).
      now rewrite Heq.
    + intros Hne. apply String.eqb_neq in Hne. rewrite Hne in E1.
      assert (Hl1 : lookup p (files (disk first)) = Some text).
      { rewrite E1. simpl. now rewrite lookup_store, path_eqb_refl. }
      split; [exact Hl1|]. intros Hs. unfold second.
      assert (Hr1 : rewrite_cmake tests_dir plan (read_newlines text)
                    = Some (read_newlines text)).
      { apply rewrite_cmake_stable; [|exact Hs].
        eapply rewrite_cmake_relative; eauto. }
      rewrite (@update_cmake_file_result tests_dir p plan first text _ Hl1 Hr1).
      now rewrite String.eqb_refl.
  - intros w Hs. now apply (@same_rewrite_pass tests_dir plan (disk w) Hs).
Qed.

Lemma rewrite_twice_witness :
  let plan := generate_reorganization_plan root action_map in
  let p := at_root ["controller"; "ActionMapTest.cpp"] in
  let first := update_includes false p plan (mkWorld action_map []) in
  let second := update_includes false p plan (snd first) in
  fst first = Some true /\ fst second = Some false /\
  disk (snd second) = disk (snd first).
Proof.
  intros plan p first second.
  destruct (proj1 (@rewrite_twice root plan) p (mkWorld action_map [])
              ("#include " ++ dquote ++ "ActionMapTest.h" ++ dquote ++ newline
               ++ "void run();" ++ newline) eq_refl) as [_ H].
  destruct H as (H1 & _ & H3); [vm_compute; discriminate|].
  split; [exact H1|]. apply H3.
  intros e pat He Hp. vm_compute in He.
  destruct He as [<-|[<-|[]]]; vm_compute in Hp;
    destruct Hp as [<-|[<-|[<-|[<-|[]]]]]; reflexivity.
Defined.

(** C9, as stated, fails.  The stripping looks at the case of the
    letters: [TEST_Foo] keeps its marker where [test_Foo] loses it.  And it
    cuts into longer words: [latest_news] becomes [lanews]. *)
Lemma stripping_cuts_words :
  ~ strips_any_case /\ ~ keeps_longer_words /\
  clean_name "TEST_Foo" = "TEST_Foo" /\ clean_name "test_Foo" = "Foo" /\
  clean_name "latest_news" = "lanews".
Proof.
  split; [|split; [|repeat split; reflexivity]].
  - intros H. specialize (H "TEST_Foo" "test_Foo" eq_refl).
    vm_compute in H. discriminate H.
  - intros H. specialize (H "latest_news" "latest").
    assert (E : contains "latest" (clean_name "latest_news") = true).
    { apply H; try reflexivity; try discriminate. simpl. tauto. }
    vm_compute in E. discriminate E.
Qed.

(** C9, amended.  The stripping is four deletions, made one after the
    other in the order [test_], [Test], [_new], [_test]; each matches the
    case of the letters and takes out what it finds in one scan from the
    left, wherever it stands.  A stem in which none of the four occurs
    comes back unchanged.  In a stem made of tokens that stand apart, with
    stretches between them that hold none of the characters t, T, e, n
    and underscore, every token is deleted and the stretches stay; so a
    token is deleted also in the middle of a word.  The order counts:
    [test_new] becomes [new], and would become [test] with the deletions
    in the reverse order.  And a token that comes about only through a
    later deletion stays: [tes_newt_x] becomes [test_x]. *)
Theorem clean_name_tokens :
  (forall s, clean_name s = strip_in_order noise_tokens s) /\
  (forall s,
      (forall t, In t noise_tokens -> contains t s = false) ->
      clean_name s = s) /\
  (forall u l,
      plain u = true -> marked l ->
      clean_name (with_tokens u l) = without_tokens u l) /\
  (forall u v tok,
      plain u = true -> plain v = true -> In tok noise_tokens ->
      clean_name (u ++ tok ++ v) = u ++ v) /\
  (clean_name "test_new" = "new" /\
   strip_in_order (rev noise_tokens) "test_new" = "test") /\
  clean_name "tes_newt_x" = "test_x".
Proof.
  split; [reflexivity|]. split; [apply clean_name_absent|].
  split; [apply clean_name_marked|].
  split; [|split; [split|]; reflexivity].
  intros u v tok Hu Hv Ht. unfold noise_tokens in Ht. simpl in Ht.
  destruct Ht as [<-|[<-|[<-|[<-|[]]]]].
  - now apply strip_test_.
  - now apply strip_Test.
  - now apply strip_new.
  - now apply strip_test.
Qed.

Lemma clean_name_tokens_witness :
  clean_name "TEST_FOO" = "TEST_FOO" /\
  clean_name "latest_ws" = "laws" /\
  clean_name "MapTestX_newV2_test" = "MapXV2".
Proof.
  destruct clean_name_tokens as (_ & H1 & H2 & H3 & _).
  split; [|split].
  - apply H1. intros t Ht. simpl in Ht.
    destruct Ht as [<-|[<-|[<-|[<-|[]]]]]; reflexivity.
  - apply (H3 "la" "ws" "test_"); try reflexivity. simpl. tauto.
  - apply (H2 "Map" [("Test", "X"); ("_new", "V2"); ("_test", "")]).
    + reflexivity.
    + simpl. repeat split; try tauto; try discriminate; reflexivity.
Defined.

End Claims.

(** * Further properties *)

(** ** More on strings *)

Module MoreStrFacts.
Import PyStr StrFacts.
Import Triples MoreNotions.

Lemma contains_iff (sub s : string) :
  contains sub s = true <-> exists pre post, s = pre ++ sub ++ post.
Proof.
  split.
  - induction s as [|c s IH]; intros H.
    + apply contains_nil_false in H. subst. now exists "", "".
    + rewrite contains_cons in H. apply orb_true_iff in H as [H|H].
      * apply startswith_app in H as [r ->]. now exists "", r.
      * destruct (IH H) as (pre & post & ->). now exists (String c pre), post.
  - intros (pre & post & ->). apply contains_app_r, contains_app_l.
    apply contains_refl.
Qed.

Lemma contains_trans (a b s : string) :
  contains a b = true -> contains b s = true -> contains a s = true.
Proof.
  intros Hab Hbs. apply contains_iff in Hab as (p1 & q1 & ->).
  apply contains_iff in Hbs as (p2 & q2 & ->).
  apply contains_iff. exists (p2 ++ p1), (q1 ++ q2).
  now rewrite !append_assoc.
Qed.

Lemma contains_middle (a b c : string) : contains b (a ++ b ++ c) = true.
Proof. apply contains_iff. now exists a, c. Qed.

Lemma endswith_iff (suf s : string) :
  endswith suf s = true <-> exists a, s = a ++ suf.
Proof.
  split.
  - induction s as [|c s IH]; simpl; intros H.
    + rewrite orb_false_r in H. apply String.eqb_eq in H. subst. now exists "".
    + apply orb_true_iff in H as [H|H].
      * apply String.eqb_eq in H. subst. now exists "".
      * destruct (IH H) as [a ->]. now exists (String c a).
  - intros [a ->]. apply endswith_app.
Qed.

Lemma endswith_app_r (suf a b : string) :
  endswith suf b = true -> endswith suf (a ++ b) = true.
Proof.
  intros H. induction a as [|c a IH]; simpl; [exact H|].
  rewrite IH. apply orb_true_r.
Qed.

Lemma rfind_app (c : ascii) (a b : string) :
  rfind c (a ++ b) =
  match rfind c b with
  | Some i => Some (String.length a + i)
  | None => rfind c a
  end.
Proof.
  induction a as [|x a IH]; simpl.
  - now destruct (rfind c b).
  - rewrite IH. destruct (rfind c b); [reflexivity|].
    reflexivity.
Qed.

Lemma drop_app_length (a b : string) : drop (String.length a) (a ++ b) = b.
Proof. induction a; simpl; auto. Qed.

End MoreStrFacts.

(** ** The generated names *)

Module NameFacts.
Import PyStr PathLib FS TestReorganizer Notions StrFacts PathFacts PlanFacts.
Import Triples MoreNotions.
Import MoreStrFacts.

Lemma case_keeps_underscore (c : ascii) :
  Ascii.eqb c "_" = false ->
  Ascii.eqb (upper_char c) "_" = false /\ Ascii.eqb (lower_char c) "_" = false.
Proof.
  destruct c as [[] [] [] [] [] [] [] []]; intros H; split;
    first [reflexivity | discriminate H].
Qed.

Lemma lower_underscore_free (s : string) :
  underscore_free s = true -> underscore_free (lower s) = true.
Proof.
  unfold underscore_free. induction s as [|c s IH]; simpl; [reflexivity|].
  intros H. apply andb_prop in H as [Hc Hs]. apply negb_true_iff in Hc.
  destruct (case_keeps_underscore c Hc) as [_ Hl].
  now rewrite Hl, IH.
Qed.

Lemma capitalize_underscore_free (s : string) :
  underscore_free s = true -> underscore_free (capitalize s) = true.
Proof.
  destruct s as [|c s]; [reflexivity|]. unfold underscore_free. cbn [capitalize all_chars].
  intros H. apply andb_prop in H as [Hc Hs]. apply negb_true_iff in Hc.
  destruct (case_keeps_underscore c Hc) as [Hu _].
  rewrite Hu. simpl. now apply lower_underscore_free.
Qed.

Lemma split_underscore_free (s : string) :
  Forall (fun w => underscore_free w = true) (split "_" s).
Proof.
  induction s as [|c s IH]; [repeat constructor|].
  cbn [split]. destruct (Ascii.eqb c "_") eqn:E.
  - constructor; [reflexivity|exact IH].
  - destruct (split "_" s) as [|w ws]; [repeat constructor; unfold underscore_free; simpl; now rewrite E|].
    inversion IH; subst. constructor; [|assumption].
    unfold underscore_free in *. cbn [all_chars]. now rewrite E.
Qed.

Lemma underscore_free_app (a b : string) :
  underscore_free (a ++ b) = underscore_free a && underscore_free b.
Proof. apply all_chars_app. Qed.

Lemma join_underscore_free (ws : list string) :
  Forall (fun w => underscore_free w = true) ws ->
  underscore_free (join ws) = true.
Proof.
  unfold join. induction ws as [|w ws IH]; intros H; [reflexivity|].
  inversion H; subst. destruct ws as [|v ws]; [assumption|].
  change (String.concat "" (w :: v :: ws))
    with (w ++ "" ++ String.concat "" (v :: ws)).
  rewrite underscore_free_app. cbn [String.append]. rewrite IH by assumption. now rewrite H2.
Qed.

Lemma underscore_free_contains (s : string) :
  underscore_free s = true -> contains "_" s = false.
Proof.
  unfold underscore_free. induction s as [|c s IH]; [reflexivity|].
  cbn [all_chars]. intros H. apply andb_prop in H as [Hc Hs].
  apply negb_true_iff in Hc. rewrite contains_cons. cbn [startswith].
  rewrite Ascii.eqb_sym, Hc. simpl. now apply IH.
Qed.

Lemma special_name_underscore_free (old_name pascal : string) :
  underscore_free pascal = true ->
  underscore_free (special_name old_name pascal) = true.
Proof.
  intros H. unfold special_name.
  repeat match goal with
         | |- context [if ?b then _ else _] => destruct b
         end; try reflexivity; exact H.
Qed.

Theorem generated_name_layout (old_path : path) (category : string) :
  generate_new_name old_path category =
    dict_get category category_map "Test" ++ "_" ++ generated_stem old_path
    ++ "_Test" ++ suffix old_path /\
  contains "_" (generated_stem old_path) = false.
Proof.
  split; [reflexivity|].
  apply underscore_free_contains, special_name_underscore_free.
  apply join_underscore_free.
  apply Forall_forall. intros w Hw. apply in_map_iff in Hw as [v [<- Hv]].
  apply capitalize_underscore_free.
  pose proof (split_underscore_free (clean_name (stem old_path))) as Hs.
  rewrite Forall_forall in Hs. now apply Hs.
Qed.

Lemma suffix_of_source_name (ext file : string) :
  ext = ".cpp" \/ ext = ".h" ->
  endswith ext file = true -> file <> ext ->
  suffix_of_name file = ext.
Proof.
  intros Hext H Hne. apply endswith_iff in H as [a ->].
  assert (Ha : 0 < String.length a).
  { destruct a; [now destruct Hext as [-> | ->]|simpl; lia]. }
  unfold suffix_of_name. rewrite rfind_app.
  assert (Hr : rfind "." ext = Some 0) by (destruct Hext as [-> | ->]; reflexivity).
  rewrite Hr, Nat.add_0_r, length_append.
  assert (Hl : 2 <= String.length ext) by (destruct Hext as [-> | ->]; simpl; lia).
  replace ((0 <? String.length a) && (String.length a <? String.length a + String.length ext - 1))%nat with true.
  - apply drop_app_length.
  - symmetry. apply andb_true_iff. split; apply Nat.ltb_lt; lia.
Qed.

Lemma Test_not_source (n : string) :
  endswith "_Test" n = true -> is_source_name n = false.
Proof.
  intros H. apply endswith_last_char in H; [|discriminate].
  unfold is_source_name. apply orb_false_iff. split.
  - destruct (endswith ".cpp" n) eqn:E; [|reflexivity].
    apply endswith_last_char in E; [|discriminate].
    rewrite H in E. discriminate.
  - destruct (endswith ".h" n) eqn:E; [|reflexivity].
    apply endswith_last_char in E; [|discriminate].
    rewrite H in E. discriminate.
Qed.

Lemma generated_name_ends (old_path : path) (category : string) :
  endswith ("_Test" ++ suffix old_path)
           (generate_new_name old_path category) = true.
Proof.
  change (generate_new_name old_path category)
    with (dict_get category category_map "Test" ++ "_"
          ++ generated_stem old_path ++ "_Test" ++ suffix old_path).
  do 3 apply endswith_app_r. apply (endswith_app "").
Qed.

Lemma endswith_trans (a b s : string) :
  endswith a b = true -> endswith b s = true -> endswith a s = true.
Proof.
  intros Hab Hbs. apply endswith_iff in Hab as [x ->].
  apply endswith_iff in Hbs as [y ->].
  rewrite <- append_assoc. apply endswith_app.
Qed.

(** The generated name of a file with an extension keeps the extension;
    the names [.cpp] and [.h], which have none for pathlib, get a name
    that ends in [_Test]. *)
Theorem generated_name_extension (dir : path) (file category : string) :
  (endswith ".cpp" file = true -> file <> ".cpp" ->
   endswith ".cpp" (generate_new_name (dir ++ [file])%list category) = true) /\
  (endswith ".h" file = true -> file <> ".h" ->
   endswith ".h" (generate_new_name (dir ++ [file])%list category) = true) /\
  (file = ".cpp" \/ file = ".h" ->
   is_source_name (generate_new_name (dir ++ [file])%list category) = false).
Proof.
  pose proof (generated_name_ends (dir ++ [file])%list category) as He.
  unfold suffix in He. rewrite name_snoc in He.
  repeat split.
  - intros H Hne.
    rewrite (@suffix_of_source_name ".cpp" file) in He by auto.
    eapply endswith_trans; [|exact He]. reflexivity.
  - intros H Hne.
    rewrite (@suffix_of_source_name ".h" file) in He by auto.
    eapply endswith_trans; [|exact He]. reflexivity.
  - intros H. apply Test_not_source.
    destruct H as [-> | ->]; exact He.
Qed.

Lemma generated_name_extension_witness :
  endswith ".cpp" (generate_new_name ["tests"; "unit"; "test_page.cpp"] "unit")
  = true.
Proof.
  apply (proj1 (@generated_name_extension ["tests"; "unit"] "test_page.cpp" "unit"));
    [reflexivity|discriminate].
Defined.

(** The backup of a file lies beside it and has its name followed by
    [.bak], whatever the dots in the name. *)
Theorem backup_path (old : path) :
  old <> [] ->
  with_suffix old (suffix old ++ ".bak")
  = (parent old ++ [(name old ++ ".bak")%string])%list.
Proof.
  intros _. pose proof (backup_name old) as H.
  unfold with_suffix in *. rewrite name_snoc in H. now rewrite H.
Qed.

Lemma backup_path_witness :
  with_suffix ["tests"; "unit"; "a.b.cpp"] (suffix ["tests"; "unit"; "a.b.cpp"] ++ ".bak")
  = ["tests"; "unit"; "a.b.cpp.bak"].
Proof. apply (@backup_path ["tests"; "unit"; "a.b.cpp"]). discriminate. Defined.

Section Destinations.

Variable tests_dir : path.

(** Every destination of the plan lies directly in one of the six
    category directories, and its name starts with the name of that
    directory and an underscore. *)
Theorem plan_destination (fs : filesystem) (old new : path) :
  In (old, new) (generate_reorganization_plan tests_dir fs) ->
  exists d n,
    In d ["Unit"; "Integration"; "Performance"; "Controller"; "Command";
          "Factory"] /\
    new = (tests_dir ++ [d; n])%list /\
    n = generate_new_name old (category_of tests_dir old) /\
    startswith (d ++ "_") n = true.
Proof.
  intros H. apply plan_In in H as (k & Hc & Hne & _ & _ & ->).
  pose proof (@classified_planned_key tests_dir fs k old Hc Hne) as Hk.
  rewrite <- (@classified_category tests_dir fs k old Hc).
  unfold target. eexists _, _. split; [|split; [reflexivity|split; [reflexivity|]]];
    unfold planned_keys in Hk; simpl in Hk;
    destruct Hk as [<-|[<-|[<-|[<-|[<-|[<-|[]]]]]]];
    first [ simpl; tauto | reflexivity ].
Qed.

End Destinations.

Lemma plan_destination_witness :
  exists d n,
    In d ["Unit"; "Integration"; "Performance"; "Controller"; "Command";
          "Factory"] /\
    Trees.at_root ["Unit"; "Unit_Latest_Test.cpp"]
    = (Trees.root ++ [d; n])%list /\
    n = generate_new_name (Trees.at_root ["unit"; "latest.cpp"])
          (category_of Trees.root (Trees.at_root ["unit"; "latest.cpp"])) /\
    startswith (d ++ "_") n = true.
Proof.
  apply (@plan_destination Trees.root Trees.latest
           (Trees.at_root ["unit"; "latest.cpp"])
           (Trees.at_root ["Unit"; "Unit_Latest_Test.cpp"])).
  vm_compute. left. reflexivity.
Defined.

End NameFacts.

(** ** Buckets and the plan *)

Module PlanMore.
Import PyStr PathLib FS TestReorganizer Notions StrFacts PathFacts PlanFacts RunFacts.
Import Triples MoreNotions.
Import MoreStrFacts.

Section WithRoot.

Variable tests_dir : path.

Lemma bucket_structure (f : string -> list path) (k : string) :
  In k category_keys -> bucket k (as_structure f) = f k.
Proof.
  unfold category_keys. simpl.
  intros [<-|[<-|[<-|[<-|[<-|[<-|[<-|[]]]]]]]]; reflexivity.
Qed.

(** Every source file of the tree that is no framework file is in the
    bucket of its category and in no other bucket. *)
Theorem one_bucket (fs : filesystem) (rel : path) (file : string) :
  In (rel, file) (walk tests_dir fs) ->
  is_source_name file = true -> is_framework_file file = false ->
  In (tests_dir ++ rel ++ [file])%list
     (bucket (categorize rel file) (analyze_current_structure tests_dir fs)) /\
  (forall k l,
      In (k, l) (analyze_current_structure tests_dir fs) ->
      In (tests_dir ++ rel ++ [file])%list l -> k = categorize rel file).
Proof.
  intros Hw Hs Hf.
  assert (Hc : In (categorize rel file, (tests_dir ++ rel ++ [file])%list)
                  (classified tests_dir fs)).
  { apply classified_In. exists rel, file. auto. }
  split.
  - rewrite analyze_structure, bucket_structure by apply categorize_cases.
    now apply select_In.
  - intros k l Hl Hp.
    pose proof (@structure_In tests_dir fs k l _ Hl Hp) as Hk.
    apply classified_category in Hk. apply classified_category in Hc.
    congruence.
Qed.

Lemma is_file_iff (p : path) (fs : filesystem) :
  is_file p fs = true <-> exists text, In (p, text) (files fs).
Proof.
  split; [apply is_file_In|].
  intros [text H]. unfold is_file.
  destruct (lookup p (files fs)) eqn:E; [reflexivity|].
  exfalso. revert E. induction (files fs) as [|[a b] l IH]; simpl in *;
    [contradiction|].
  destruct H as [H|H].
  - inversion H. now rewrite path_eqb_refl.
  - destruct (path_eqb p a); [discriminate|auto].
Qed.

Lemma is_dir_iff (p : path) (fs : filesystem) :
  is_dir p fs = true <-> In p (dirs fs).
Proof.
  unfold is_dir. rewrite existsb_exists. split.
  - intros [d [Hd E]]. apply path_eqb_eq in E. now subst.
  - intros H. exists p. split; [exact H|apply path_eqb_refl].
Qed.

Lemma same_tree_exists (fs fs' : filesystem) (p : path) :
  same_tree fs fs' -> exists_ p fs = exists_ p fs'.
Proof.
  intros [Hf Hd]. unfold exists_.
  assert (E1 : is_file p fs = is_file p fs').
  { apply eq_true_iff_eq. rewrite !is_file_iff.
    split; intros [t H]; exists t; now apply Hf. }
  assert (E2 : is_dir p fs = is_dir p fs').
  { apply eq_true_iff_eq. rewrite !is_dir_iff. apply Hd. }
  now rewrite E1, E2.
Qed.

Lemma same_tree_classified (fs fs' : filesystem) (k : string) (p : path) :
  same_tree fs fs' ->
  In (k, p) (classified tests_dir fs) -> In (k, p) (classified tests_dir fs').
Proof.
  intros [Hf _] H.
  apply classified_In in H as (rel & file & Hw & Hs & Hfw & -> & ->).
  apply classified_In. exists rel, file. repeat split; auto.
  apply walk_In in Hw as [t Ht]. apply walk_In. exists t. now apply Hf.
Qed.

(** Which files are planned, and for which destination, does not depend
    on the order in which the walk lists the files. *)
Theorem plan_order_free (fs fs' : filesystem) (old new : path) :
  same_tree fs fs' ->
  In (old, new) (generate_reorganization_plan tests_dir fs) ->
  In (old, new) (generate_reorganization_plan tests_dir fs').
Proof.
  intros Hs H. apply plan_In in H as (k & Hc & Hne & Hsk & Hd & ->).
  apply plan_In. exists k. repeat split; auto.
  - eapply same_tree_classified; eauto.
  - unfold skipped in *. now rewrite <- (@same_tree_exists fs fs' _ Hs).
Qed.

(** A file in the misc bucket, and a [_new] file whose counterpart is on
    the disk, is no key of the plan and is still there after the run. *)
Theorem unplanned_file_stays (dry_run : bool) (fs : filesystem) (p : path) :
  is_file p fs = true ->
  category_of tests_dir p = "misc" \/ skipped fs p = true ->
  ~ In p (map fst (generate_reorganization_plan tests_dir fs)) /\
  is_file p (disk (snd (run tests_dir dry_run fs))) = true.
Proof.
  intros Hf Hu.
  assert (Hk : ~ In p (map fst (generate_reorganization_plan tests_dir fs))).
  { intros H. apply in_map_iff in H as [[o n] [E H]]. simpl in E. subst o.
    apply plan_In in H as (k & Hc & Hne & Hs & _).
    apply classified_category in Hc. destruct Hu as [Hu|Hu]; congruence. }
  split; [exact Hk|]. now apply Claims.run_keeps_file.
Qed.

End WithRoot.

Lemma one_bucket_witness :
  In (Trees.at_root ["unit"; "test_foo.cpp"])
     (bucket "unit" (analyze_current_structure Trees.root Trees.two_styles)) /\
  (forall k l,
      In (k, l) (analyze_current_structure Trees.root Trees.two_styles) ->
      In (Trees.at_root ["unit"; "test_foo.cpp"]) l -> k = "unit").
Proof.
  apply (@one_bucket Trees.root Trees.two_styles ["unit"] "test_foo.cpp").
  - vm_compute. left. reflexivity.
  - reflexivity.
  - reflexivity.
Defined.

Lemma plan_order_free_witness :
  In (Trees.at_root ["unit"; "FooTest.cpp"],
      Trees.at_root ["Unit"; "Unit_Foo_Test.cpp"])
     (generate_reorganization_plan Trees.root
        (mkFS [ (Trees.at_root ["unit"; "FooTest.cpp"], "int b;");
                (Trees.at_root ["unit"; "test_foo.cpp"], "int a;") ]
              [ Trees.at_root ["unit"]; Trees.root ])).
Proof.
  apply (@plan_order_free Trees.root Trees.two_styles).
  - split; intros; simpl; tauto.
  - vm_compute. right. left. reflexivity.
Defined.

Lemma unplanned_file_stays_witness :
  ~ In (Trees.at_root ["tools"; "main.cpp"])
       (map fst (generate_reorganization_plan Trees.root Trees.with_client)) /\
  is_file (Trees.at_root ["tools"; "main.cpp"])
          (disk (snd (run Trees.root false Trees.with_client))) = true.
Proof.
  apply (@unplanned_file_stays Trees.root false Trees.with_client).
  - reflexivity.
  - left. reflexivity.
Defined.

End PlanMore.

(** ** Runs that come to their end *)

Module HoareFacts.
Import PyStr PathLib FS TestReorganizer Notions StrFacts PathFacts PlanFacts RunFacts.
Import Triples MoreNotions.

Lemma hoare_ret {A : Type} (P : world -> Prop) (a : A) :
  hoare P (ret a) (fun b w => b = a /\ P w).
Proof. intros w H. exists a, w. auto. Qed.

Lemma hoare_conseq {A : Type} (P P' : world -> Prop) (m : io A)
    (Q Q' : A -> world -> Prop) :
  hoare P' m Q' -> (forall w, P w -> P' w) ->
  (forall a w, Q' a w -> Q a w) -> hoare P m Q.
Proof.
  intros H HP HQ w Hw. destruct (H w (HP w Hw)) as (a & w' & E & Hq).
  exists a, w'. auto.
Qed.

Lemma hoare_bind {A B : Type} (P : world -> Prop) (m : io A)
    (Q : A -> world -> Prop) (f : A -> io B) (R : B -> world -> Prop) :
  hoare P m Q -> (forall a, hoare (Q a) (f a) R) -> hoare P (bind m f) R.
Proof.
  intros Hm Hf w Hw. destruct (Hm w Hw) as (a & w1 & E & Hq).
  destruct (Hf a w1 Hq) as (b & w2 & E2 & Hr).
  exists b, w2. unfold bind. rewrite E. auto.
Qed.

Lemma hoare_get_disk (P : world -> Prop) :
  hoare P get_disk (fun fs w => fs = disk w /\ P w).
Proof. intros w H. exists (disk w), w. auto. Qed.

Lemma hoare_emit (P : world -> Prop) (e : event) :
  hoare (fun w => P (mkWorld (disk w) (log w ++ [e])%list)) (emit e)
        (fun _ w => P w).
Proof. intros w H. exists tt, (mkWorld (disk w) (log w ++ [e])%list). auto. Qed.

Lemma hoare_when (P : world -> Prop) (b : bool) (m : io unit) :
  (b = true -> hoare P m (fun _ => P)) ->
  hoare P (when b m) (fun _ => P).
Proof.
  destruct b; intros H; [now apply H|].
  intros w Hw. exists tt, w. auto.
Qed.

Lemma hoare_for_each {A : Type} (I : world -> Prop) (l : list A)
    (body : A -> io unit) :
  (forall x, In x l -> hoare I (body x) (fun _ => I)) ->
  hoare I (for_each l body) (fun _ => I).
Proof.
  induction l as [|x l IH]; intros H.
  - intros w Hw. exists tt, w. auto.
  - simpl. eapply hoare_bind; [apply H; now left|].
    intros u. cbv beta. apply IH. intros y Hy. apply H. now right.
Qed.

Lemma hoare_print (D : filesystem -> Prop) (line : string) :
  hoare (on_disk D) (print line) (fun _ => on_disk D).
Proof. intros w H. eexists tt, _. split; [reflexivity|exact H]. Qed.

Lemma hoare_read (D : filesystem -> Prop) (p : path) :
  hoare (on_disk D) (emit (Read p)) (fun _ => on_disk D).
Proof. intros w H. eexists tt, _. split; [reflexivity|exact H]. Qed.

Lemma hoare_show_rel (tests_dir : path) (D : filesystem -> Prop) (p : path) :
  is_prefix tests_dir p = true ->
  hoare (on_disk D) (show_rel tests_dir p) (fun _ => on_disk D).
Proof.
  intros H. apply is_prefix_relative in H as [r Hr].
  unfold show_rel. rewrite Hr. intros w Hw. exists (str_rel r), w. auto.
Qed.

Lemma steady_ret {A : Type} (I : world -> Prop) (a : A) : steady I (ret a).
Proof. intros w H. exists a, w. auto. Qed.

Lemma steady_get_disk (I : world -> Prop) : steady I get_disk.
Proof. intros w H. exists (disk w), w. auto. Qed.

Lemma steady_bind {A B : Type} (I : world -> Prop) (m : io A)
    (f : A -> io B) :
  steady I m -> (forall a, steady I (f a)) -> steady I (bind m f).
Proof. intros Hm Hf. eapply hoare_bind; [exact Hm|exact Hf]. Qed.

Lemma steady_when (I : world -> Prop) (b : bool) (m : io unit) :
  (b = true -> steady I m) -> steady I (when b m).
Proof. apply hoare_when. Qed.

Lemma steady_for_each {A : Type} (I : world -> Prop) (l : list A)
    (body : A -> io unit) :
  (forall x, In x l -> steady I (body x)) -> steady I (for_each l body).
Proof. apply hoare_for_each. Qed.

Lemma steady_print (D : filesystem -> Prop) (line : string) :
  steady (on_disk D) (print line).
Proof. apply hoare_print. Qed.

Lemma steady_show_rel (tests_dir : path) (D : filesystem -> Prop) (p : path) :
  is_prefix tests_dir p = true -> steady (on_disk D) (show_rel tests_dir p).
Proof. apply hoare_show_rel. Qed.

Ltac steady_auto :=
  repeat lazymatch goal with
    | |- steady _ (bind _ _) => apply steady_bind; [|intros ?]
    | |- steady _ (when _ _) => apply steady_when; intros ?
    | |- steady _ (ret _) => apply steady_ret
    | |- steady _ get_disk => apply steady_get_disk
    | |- steady _ (print _) => apply steady_print
    | |- steady _ (emit (Read _)) => apply hoare_read
    end.


Lemma below_prefix (a p : path) : below a p = true -> is_prefix a p = true.
Proof. unfold below. intros H. now apply andb_prop in H. Qed.

Section DryRun.

Variable tests_dir : path.
Variable D : filesystem -> Prop.







End DryRun.

Lemma plan_entry_below (tests_dir : path) (fs : filesystem) (e : path * path) :
  In e (generate_reorganization_plan tests_dir fs) ->
  is_prefix tests_dir (fst e) = true /\ is_prefix tests_dir (snd e) = true.
Proof.
  destruct e as [old new]. intros H.
  apply plan_In in H as (k & Hc & _ & _ & _ & ->).
  apply classified_source in Hc as (_ & _ & Hb & _). simpl. split.
  - now apply below_prefix.
  - unfold target. apply is_prefix_app.
Qed.



Lemma store_keys (p : path) (c c0 : string) (l : list (path * string)) :
  lookup p l = Some c0 -> map fst (store p c l) = map fst l.
Proof.
  induction l as [|[a b] l IH]; simpl; [discriminate|].
  destruct (path_eqb p a) eqn:E; simpl.
  - apply path_eqb_eq in E. now subst.
  - intros H. now rewrite IH.
Qed.

Section Frame.

Variable tests_dir : path.
Variable dry_run : bool.
Variable fs0 : filesystem.

Lemma texts_only_write (p : path) (text c0 : string) (fs : filesystem) :
  below tests_dir p = true -> rewritable (name p) = true ->
  lookup p (files fs) = Some c0 ->
  texts_only tests_dir fs0 fs ->
  texts_only tests_dir fs0 (mkFS (store p text (files fs)) (dirs fs)).
Proof.
  intros Hb Hn Hl (Hk & Hd & Ht). repeat split; simpl.
  - now rewrite (store_keys _ _ _ Hl).
  - exact Hd.
  - intros q Hq. rewrite lookup_store.
    destruct (path_eqb q p) eqn:E; [|now apply Ht].
    apply path_eqb_eq in E. subst q. now rewrite Hb, Hn in Hq.
Qed.

Lemma steady_update_includes (m : list (path * path)) (p : path) :
  below tests_dir p = true -> rewritable (name p) = true ->
  steady (on_disk (texts_only tests_dir fs0)) (update_includes dry_run p m).
Proof.
  intros Hb Hn w Hw. unfold update_includes, bind, get_disk. simpl.
  destruct (lookup p (files (disk w))) as [c0|] eqn:El; simpl.
  - destruct (negb (rewrite_includes m (read_newlines c0)
                     =? read_newlines c0)); simpl.
    + destruct dry_run; simpl; eexists _, _; (split; [reflexivity|]).
      * exact Hw.
      * unfold on_disk. simpl. eapply texts_only_write; eauto.
    + eexists _, _. split; [reflexivity|exact Hw].
  - eexists _, _. split; [reflexivity|exact Hw].
Qed.

Lemma steady_update_cmake_file (m : list (path * path)) (p : path) :
  below tests_dir p = true -> rewritable (name p) = true ->
  steady (on_disk (texts_only tests_dir fs0)) (update_cmake_file tests_dir dry_run m p).
Proof.
  intros Hb Hn w Hw. unfold update_cmake_file, bind, get_disk. simpl.
  destruct (lookup p (files (disk w))) as [c0|] eqn:El; simpl.
  - destruct (rewrite_cmake tests_dir m (read_newlines c0)) as [c|]; simpl.
    + destruct (negb (c =? read_newlines c0)); simpl.
      * destruct dry_run; simpl; eexists _, _; (split; [reflexivity|]).
        -- exact Hw.
        -- unfold on_disk. simpl. eapply texts_only_write; eauto.
      * eexists _, _. split; [reflexivity|exact Hw].
    + eexists _, _. split; [reflexivity|exact Hw].
  - eexists _, _. split; [reflexivity|exact Hw].
Qed.

Lemma steady_rewrite_pass (m : list (path * path)) :
  steady (on_disk (texts_only tests_dir fs0)) (rewrite_pass tests_dir dry_run m).
Proof.
  unfold rewrite_pass, update_cmake_files, scan_includes.
  steady_auto.
  - apply steady_for_each. intros p Hp. apply rglob_In in Hp as [Hb Hn].
    steady_auto.
    + apply steady_update_includes; auto. unfold rewritable. now rewrite Hn.
    + apply steady_show_rel. now apply below_prefix.
  - apply steady_for_each. intros p Hp. apply rglob_In in Hp as [Hb Hn].
    steady_auto.
    + apply steady_update_includes; auto. unfold rewritable.
      rewrite Hn. now rewrite orb_true_r.
    + apply steady_show_rel. now apply below_prefix.
  - apply steady_for_each. intros p Hp. apply rglob_In in Hp as [Hb Hn].
    apply steady_update_cmake_file; auto. unfold rewritable.
    rewrite Hn. now rewrite orb_true_r.
Qed.

End Frame.

(** The rewriting passes never raise and change texts only: the files and
    the directories of the disk are those it had, and a file whose name is
    not one the passes look for keeps its text. *)
Theorem rewrite_pass_frame (tests_dir : path) (dry_run : bool)
    (plan : list (path * path)) (w : world) :
  exists w',
    rewrite_pass tests_dir dry_run plan w = (Some tt, w') /\
    texts_only tests_dir (disk w) (disk w').
Proof.
  destruct (@steady_rewrite_pass tests_dir dry_run (disk w) plan w)
    as ([] & w' & E & H).
  - repeat split.
  - exists w'. auto.
Qed.

End HoareFacts.

(** ** Files the rewriting passes leave alone *)

Module RewriteMore.
Import PyStr PathLib FS TestReorganizer Notions StrFacts PathFacts PlanFacts RunFacts.
Import Triples MoreNotions.
Import MoreStrFacts HoareFacts.

Lemma pattern_contains_name (old_name new_name : string) (pat : string * string) :
  In pat (include_patterns old_name new_name) ->
  contains old_name (fst pat) = true.
Proof.
  unfold include_patterns. simpl.
  intros [<-|[<-|[<-|[<-|[]]]]]; simpl fst; apply contains_iff.
  - exists ("#include " ++ dquote), dquote. now rewrite !append_assoc.
  - exists "#include <", ">". reflexivity.
  - exists ("#include " ++ dquote ++ "../"), dquote. now rewrite !append_assoc.
  - exists ("#include " ++ dquote ++ "../../"), dquote. now rewrite !append_assoc.
Qed.

Lemma unmentioned_include_stable (plan : list (path * path)) (text : string) :
  (forall old new, In (old, new) plan -> contains (name old) text = false) ->
  include_stable plan text.
Proof.
  intros H [old new] pat He Hp. simpl in Hp.
  destruct (contains (fst pat) text) eqn:E; [|reflexivity].
  rewrite <- (H old new He). symmetry.
  eapply contains_trans; [|exact E].
  exact (@pattern_contains_name (name old) (name new) pat Hp).
Qed.

Lemma last_In (l : list string) (d : string) : l <> [] -> In (last l d) l.
Proof.
  induction l as [|x l IH]; [congruence|]. intros _.
  destruct l as [|y l]; [now left|]. right. apply IH. discriminate.
Qed.

Lemma last_app_right (a b : list string) (d : string) :
  b <> [] -> last (a ++ b)%list d = last b d.
Proof.
  intros Hb. induction a as [|x a IH]; [reflexivity|].
  simpl. destruct (a ++ b)%list eqn:E; [|exact IH].
  apply app_eq_nil in E as [_ E]. congruence.
Qed.

Lemma relative_name (tests_dir old r : path) :
  relative_to tests_dir old = Some r -> r <> [] -> In (name old) r.
Proof.
  intros H Hr. apply relative_to_Some in H. subst old.
  unfold name. rewrite last_app_right by exact Hr. now apply last_In.
Qed.

Lemma contains_char_app (c : ascii) (a b : string) :
  contains (String c "") (a ++ b)
  = contains (String c "") a || contains (String c "") b.
Proof.
  induction a as [|x a IH]; [reflexivity|].
  cbn [String.append]. rewrite !contains_cons, IH. cbn [startswith].
  now rewrite orb_assoc.
Qed.

Lemma contains_char_concat (c : ascii) (sep : string) (l : list string) :
  contains (String c "") sep = false ->
  (forall seg, In seg l -> contains (String c "") seg = false) ->
  contains (String c "") (String.concat sep l) = false.
Proof.
  intros Hsep. induction l as [|x l IH]; intros H; [reflexivity|].
  destruct l as [|y l]; [apply H; now left|].
  change (String.concat sep (x :: y :: l))
    with (x ++ sep ++ String.concat sep (y :: l)).
  rewrite !contains_char_app, Hsep, (H x) by now left.
  simpl. apply IH. intros seg Hs. apply H. now right.
Qed.

Lemma unmentioned_cmake_stable (tests_dir : path) (plan : list (path * path))
    (text : string) :
  (forall old new, In (old, new) plan ->
                   below tests_dir old = true /\
                   (forall seg, In seg old -> contains backslash seg = false) /\
                   contains (name old) text = false) ->
  cmake_stable tests_dir plan text.
Proof.
  intros H [old new] He. destruct (H old new He) as (Hb & Hs & Hn).
  cbn [fst]. split; [exact Hn|]. intros r Hr.
  assert (Hne : r <> []).
  { intros ->. apply relative_to_Some in Hr. rewrite app_nil_r in Hr.
    subst old. unfold below in Hb. rewrite path_eqb_refl in Hb.
    now rewrite andb_false_r in Hb. }
  assert (Hc : contains (name old) (str_rel r) = true).
  { destruct r as [|x r]; [congruence|]. unfold str_rel.
    apply contains_concat. eapply relative_name; eauto. }
  assert (Eb : contains backslash (str_rel r) = false).
  { destruct r as [|x r]; [congruence|]. unfold str_rel.
    apply contains_char_concat; [reflexivity|].
    intros seg Hseg. apply Hs. apply relative_to_Some in Hr. subst old.
    apply in_or_app. now right. }
  rewrite replace_absent by exact Eb.
  destruct (contains (str_rel r) text) eqn:E; [|reflexivity].
  rewrite <- Hn. symmetry. eapply contains_trans; eauto.
Qed.

(** A file whose text, as it is read, mentions none of the old file names
    is left as it is by [update_includes], which reports nothing; and so is
    a CMake file by [update_cmake_file], when no planned path has a
    backslash in it. *)
Theorem unmentioned_untouched (tests_dir : path) (dry_run : bool)
    (fs : filesystem) (p : path) (w : world) (text : string) :
  lookup p (files (disk w)) = Some text ->
  (forall old new,
      In (old, new) (generate_reorganization_plan tests_dir fs) ->
      contains (name old) (read_newlines text) = false) ->
  update_includes dry_run p (generate_reorganization_plan tests_dir fs) w
  = (Some false, mkWorld (disk w) (log w ++ [Read p])%list) /\
  ((forall old new seg,
       In (old, new) (generate_reorganization_plan tests_dir fs) ->
       In seg old -> contains backslash seg = false) ->
   update_cmake_file tests_dir dry_run
     (generate_reorganization_plan tests_dir fs) p w
   = (Some tt, mkWorld (disk w) (log w ++ [Read p])%list)).
Proof.
  intros Hl Hn. split.
  - unfold update_includes, bind, get_disk. simpl. rewrite Hl. simpl.
    rewrite rewrite_includes_stable
      by now apply unmentioned_include_stable.
    now rewrite String.eqb_refl.
  - intros Hs. unfold update_cmake_file, bind, get_disk. simpl.
    rewrite Hl. simpl.
    rewrite rewrite_cmake_stable.
    + now rewrite String.eqb_refl.
    + intros e He. destruct (@plan_entry_below tests_dir fs e He) as [Ho Hnw].
      apply is_prefix_relative in Ho as [r ->].
      apply is_prefix_relative in Hnw as [r' ->]. split; discriminate.
    + apply unmentioned_cmake_stable. intros old new He. repeat split.
      * apply plan_In in He as (k & Hc & _).
        now apply classified_source in Hc as (_ & _ & Hb & _).
      * intros seg Hseg. eapply Hs; eauto.
      * eapply Hn; eauto.
Qed.

Lemma unmentioned_untouched_witness :
  update_includes false (Trees.at_root ["unit"; "other.cpp"])
    (generate_reorganization_plan Trees.root Trees.latest)
    (mkWorld (mkFS [ (Trees.at_root ["unit"; "other.cpp"], "int a;") ]
                   [ Trees.root; Trees.at_root ["unit"] ]) [])
  = (Some false,
     mkWorld (mkFS [ (Trees.at_root ["unit"; "other.cpp"], "int a;") ]
                   [ Trees.root; Trees.at_root ["unit"] ])
             [Read (Trees.at_root ["unit"; "other.cpp"])]).
Proof.
  apply (@unmentioned_untouched Trees.root false Trees.latest
           (Trees.at_root ["unit"; "other.cpp"])
           (mkWorld (mkFS [ (Trees.at_root ["unit"; "other.cpp"], "int a;") ]
                          [ Trees.root; Trees.at_root ["unit"] ]) [])
           "int a;").
  - reflexivity.
  - intros old new H. vm_compute in H. destruct H as [E|[]].
    inversion E. reflexivity.
Defined.

End RewriteMore.

(** ** The empty plan and main *)

Module MainFacts.
Import PyStr PathLib FS TestReorganizer Notions StrFacts PathFacts PlanFacts RunFacts.
Import Triples MoreNotions.
Import HoareFacts.

(** With nothing to reorganise a run prints one line and is over: no
    directory is made and no file is read. *)
Theorem nothing_to_do (tests_dir : path) (dry_run : bool) (fs : filesystem) :
  (forall rel file,
      In (rel, file) (walk tests_dir fs) ->
      is_source_name file = true -> is_framework_file file = false ->
      categorize rel file = "misc") ->
  run tests_dir dry_run fs
  = (Some tt, mkWorld fs [Print "No files need reorganization"]).
Proof.
  intros H. unfold run, execute_reorganization, bind, get_disk. simpl.
  rewrite plan_empty; [reflexivity|].
  intros k p Hc.
  apply classified_In in Hc as (rel & file & Hw & Hs & Hf & -> & _).
  now apply H.
Qed.

Lemma nothing_to_do_witness :
  run ["repo"; "tests"] false
      (mkFS [ (["repo"; "tests"; "tools"; "main.cpp"], "int main();");
              (["repo"; "tests"; "README.md"], "tests") ]
            [ ["repo"; "tests"]; ["repo"; "tests"; "tools"] ])
  = (Some tt,
     mkWorld (mkFS [ (["repo"; "tests"; "tools"; "main.cpp"], "int main();");
                     (["repo"; "tests"; "README.md"], "tests") ]
                   [ ["repo"; "tests"]; ["repo"; "tests"; "tools"] ])
             [Print "No files need reorganization"]).
Proof.
  apply nothing_to_do. intros rel file Hw Hs _. vm_compute in Hw.
  destruct Hw as [E|[E|[]]]; inversion E; subst;
    first [reflexivity | vm_compute in Hs; discriminate Hs].
Defined.



End MainFacts.

(** ** Backups *)

Module BackupFacts.
Import PyStr PathLib FS TestReorganizer Notions StrFacts PathFacts PlanFacts RunFacts.
Import Triples MoreNotions.
Import HoareFacts.

Lemma backed_up_any (prev : option event) (l : list event) :
  backed_up None l = true -> backed_up prev l = true.
Proof.
  destruct l as [|e l]; [reflexivity|]. simpl.
  destruct e; simpl; auto. discriminate.
Qed.

Lemma backed_up_app (prev : option event) (l1 l2 : list event) :
  backed_up prev l1 = true -> backed_up None l2 = true ->
  backed_up prev (l1 ++ l2) = true.
Proof.
  revert prev; induction l1 as [|e l1 IH]; intros prev H1 H2.
  - now apply backed_up_any.
  - simpl in *. apply andb_prop in H1 as [He H1]. rewrite He. simpl.
    now apply IH.
Qed.

Lemma backed_up_moves (l1 : list event) :
  forall prev l,
    backed_up prev l = true ->
    forall src dst l2,
      l = (l1 ++ Move src dst :: l2)%list ->
      (l1 = [] /\ exists d, prev = Some (Copy src d) /\
                            is_backup_copy src d = true) \/
      exists l0 d, l1 = (l0 ++ [Copy src d])%list /\
                   is_backup_copy src d = true.
Proof.
  induction l1 as [|e l1 IH]; intros prev l H src dst l2 ->.
  - left. split; [reflexivity|]. simpl in H.
    destruct prev as [[]|]; try discriminate.
    apply andb_prop in H as [H _]. apply andb_prop in H as [Hs Hb].
    apply path_eqb_eq in Hs. subst. eauto.
  - right. simpl in H. apply andb_prop in H as [_ H].
    destruct (IH _ _ H src dst l2 eq_refl)
      as [[-> (d & E & Hb)]|(l0 & d & -> & Hb)].
    + inversion E; subst. exists [], d. auto.
    + exists (e :: l0), d. auto.
Qed.

Lemma backed_up_spec (l : list event) :
  backed_up None l = true ->
  forall l1 src dst l2,
    l = (l1 ++ Move src dst :: l2)%list ->
    exists l0 d, l1 = (l0 ++ [Copy src d])%list /\ is_backup_copy src d = true.
Proof.
  intros H l1 src dst l2 E.
  destruct (backed_up_moves l1 _ H _ _ _ E) as [[_ (d & Hp & _)]|?];
    [discriminate|assumption].
Qed.

Lemma grows_snoc (log0 : list event) (fs : filesystem) (w : world)
    (seg : list event) :
  grows_backed_up log0 w -> backed_up None seg = true ->
  grows_backed_up log0 (mkWorld fs (log w ++ seg)%list).
Proof.
  intros (evs & E & H) Hs. exists (evs ++ seg)%list. simpl. split.
  - now rewrite E, app_assoc.
  - now apply backed_up_app.
Qed.

Lemma grows_same_log (log0 : list event) (w w' : world) :
  log w' = log w -> grows_backed_up log0 w -> grows_backed_up log0 w'.
Proof. intros E (evs & El & H). exists evs. now rewrite E. Qed.

Lemma copy2_cases (src dst : path) (w : world) :
  copy2 src dst w = (None, w) \/
  exists d text,
    (d = dst \/ d = (dst ++ [name src])%list) /\
    copy2 src dst w
    = (Some tt, mkWorld (mkFS (store d text (files (disk w))) (dirs (disk w)))
                        (log w ++ [Copy src d])%list).
Proof.
  unfold copy2, bind, get_disk, put_disk, emit, raise. simpl.
  destruct (lookup src (files (disk w))) as [text|]; [|now left].
  destruct (is_dir dst (disk w)); simpl.
  - destruct (_ || _); [now left|]. right. eauto 6.
  - destruct (_ || _); [now left|]. right. eauto 6.
Qed.

Lemma move_cases (src dst : path) (w : world) :
  move src dst w = (None, w) \/
  exists d text,
    move src dst w
    = (Some tt,
       mkWorld (mkFS (store d text (remove src (files (disk w))))
                     (dirs (disk w)))
               (log w ++ [Move src d])%list).
Proof.
  unfold move, bind, get_disk, put_disk, emit, raise. simpl.
  destruct (lookup src (files (disk w))) as [text|]; [|now left].
  destruct (is_dir dst (disk w)); simpl.
  - destruct (exists_ _ _); [now left|]. right. eauto.
  - right. eauto.
Qed.

Section Backed.

Variable tests_dir : path.
Variable dry_run : bool.
Variable log0 : list event.

Lemma backed_emit (e : event) :
  (forall src dst, e <> Move src dst) -> inv (grows_backed_up log0) (emit e).
Proof.
  intros He w H. rewrite emit_effect. apply grows_snoc; [exact H|].
  simpl. destruct e; try reflexivity. now destruct (He src dst).
Qed.

Lemma backed_mkdir (p : path) : inv (grows_backed_up log0) (mkdir_parents p).
Proof.
  intros w H. destruct (mkdir_effect p w) as [_ [E|E]].
  - eapply grows_same_log; eauto.
  - destruct H as (evs & El & Hb). exists (evs ++ [Mkdir p])%list. split.
    + now rewrite E, El, app_assoc.
    + now apply backed_up_app.
Qed.

Lemma backed_write (p : path) (text : string) : inv (grows_backed_up log0) (write_text p text).
Proof. intros w H. rewrite write_effect. now apply grows_snoc. Qed.

Lemma backed_rmdir (p : path) : inv (grows_backed_up log0) (rmdir p).
Proof.
  intros w H. destruct (rmdir_effect p w) as [_ E].
  destruct H as (evs & El & Hb). exists (evs ++ [Rmdir p])%list. split.
  - now rewrite E, El, app_assoc.
  - now apply backed_up_app.
Qed.

Lemma backed_backup_move (old new : path) :
  inv (grows_backed_up log0) (bind (copy2 old (backup_of old)) (fun _ => move old new)).
Proof.
  intros w H. unfold bind.
  destruct (copy2_cases old (backup_of old) w) as [E|(d & text & Hd & E)];
    rewrite E; simpl; [exact H|].
  set (w1 := mkWorld _ _).
  destruct (move_cases old new w1) as [E2|(d2 & text2 & E2)]; rewrite E2; simpl.
  - unfold w1. apply grows_snoc; auto.
  - unfold w1. simpl. rewrite <- app_assoc. apply grows_snoc; auto.
    simpl. rewrite path_eqb_refl. unfold is_backup_copy.
    destruct Hd as [-> | ->]; rewrite path_eqb_refl; simpl;
      now rewrite ?orb_true_r.
Qed.

Lemma backed_print (line : string) : inv (grows_backed_up log0) (print line).
Proof. apply backed_emit. discriminate. Qed.

Lemma backed_rename_entry (e : path * path) :
  inv (grows_backed_up log0) (rename_entry tests_dir dry_run e).
Proof.
  destruct e as [old new]. unfold rename_entry.
  repeat lazymatch goal with
    | |- inv _ (bind (copy2 _ _) _) => apply backed_backup_move
    | |- inv _ (bind _ _) => apply inv_bind; [|intros ?]
    | |- inv _ (when _ _) => apply inv_when; intros ?
    | |- inv _ get_disk => apply inv_get_disk
    | |- inv _ (print _) => apply backed_print
    | |- inv _ (show_rel _ _) =>
        unfold show_rel; destruct (relative_to _ _);
        [apply inv_ret|apply inv_raise]
    | |- inv _ (mkdir_parents _) => apply backed_mkdir
    end.
Qed.

Lemma backed_apply_plan (m : list (path * path)) :
  inv (grows_backed_up log0) (apply_plan tests_dir dry_run m).
Proof.
  unfold apply_plan. destruct m as [|e l] eqn:E; [apply backed_print|].
  rewrite <- E.
  repeat lazymatch goal with
    | |- inv _ (bind _ _) => apply inv_bind; [|intros ?]
    | |- inv _ (when _ _) => apply inv_when; intros ?
    | |- inv _ (print _) => apply backed_print
    end.
  - apply inv_for_each. intros d _.
    apply (@inv_create_dir tests_dir dry_run (grows_backed_up log0)); [apply backed_print|].
    intros _ p. apply backed_mkdir.
  - apply inv_for_each. intros x _. apply backed_rename_entry.
  - apply (@inv_rewrite_pass tests_dir dry_run (grows_backed_up log0)).
    + apply backed_print.
    + intros p _ _. apply backed_emit. discriminate.
    + intros _ p text _ _. apply backed_write.
  - apply (@inv_cleanup tests_dir dry_run (grows_backed_up log0)); [apply backed_print| |].
    + intros _ p. apply backed_rmdir.
    + now apply negb_dry.
  - destruct dry_run;
      repeat lazymatch goal with
        | |- inv _ (bind _ _) => apply inv_bind; [|intros ?]
        | |- inv _ (print _) => apply backed_print
        end.
Qed.

End Backed.

(** In the log of a run every move of a file comes right after the copy
    of that file to its backup path (or into it, where that path is a
    directory), also when the run breaks off. *)
Theorem move_follows_backup (tests_dir : path) (dry_run : bool)
    (fs : filesystem) (l1 l2 : list event) (src dst : path) :
  log (snd (run tests_dir dry_run fs)) = (l1 ++ Move src dst :: l2)%list ->
  exists l0 d,
    l1 = (l0 ++ [Copy src d])%list /\
    (d = backup_of src \/ d = (backup_of src ++ [name src])%list).
Proof.
  intros E.
  assert (H : grows_backed_up [] (snd (run tests_dir dry_run fs))).
  { unfold run, execute_reorganization, bind, get_disk. simpl.
    apply backed_apply_plan. exists []. auto. }
  destruct H as (evs & El & Hb). simpl in El. rewrite El in E.
  destruct (@backed_up_spec evs Hb l1 src dst l2 E) as (l0 & d & -> & Hd).
  exists l0, d. split; [reflexivity|].
  unfold is_backup_copy in Hd. apply orb_true_iff in Hd as [Hd|Hd];
    apply path_eqb_eq in Hd; auto.
Qed.

Lemma is_dir_after_mkdir (q p : path) (fs : filesystem) :
  is_dir q fs = false ->
  (forall r, p <> (q ++ r)%list) ->
  is_dir q (mkFS (files fs)
                 (dirs fs ++ filter (fun a => negb (is_dir a fs))
                                    (ancestors_and_self p))%list) = false.
Proof.
  intros Hd Hp. unfold is_dir in *. simpl. rewrite existsb_app, Hd. simpl.
  apply not_true_is_false. intros E.
  apply existsb_exists in E as [a [Ha Eq]]. apply path_eqb_eq in Eq. subst a.
  apply filter_In in Ha as [Ha _]. apply ancestors_prefix in Ha as [r Hr].
  now destruct (Hp r).
Qed.

Lemma backup_of_beside (old : path) :
  backup_of old = (parent old ++ [(name old ++ ".bak")%string])%list.
Proof.
  pose proof (backup_name old) as H. unfold backup_of, with_suffix in *.
  rewrite name_snoc in H. now rewrite H.
Qed.

Lemma backup_neq (old : path) : old <> backup_of old.
Proof.
  intros E. assert (H : name old = name (backup_of old)) by now rewrite <- E.
  unfold backup_of in H. rewrite backup_name in H.
  apply (f_equal String.length) in H. rewrite length_append in H.
  simpl in H. lia.
Qed.

(** One entry of the plan applied in a real run, on a disk where the file
    is there and nothing is in the way: the run goes on, the file is at
    its new path with its text, the backup beside the old path has the
    same text, the old path is free, and no other file is touched. *)
Theorem entry_applied (tests_dir : path) (fs : filesystem) (old new : path)
    (w : world) (text : string) :
  In (old, new) (generate_reorganization_plan tests_dir fs) ->
  lookup old (files (disk w)) = Some text ->
  existsb (fun a => is_file a (disk w)) (ancestors_and_self (parent new))
  = false ->
  is_dir (backup_of old) (disk w) = false ->
  is_dir new (disk w) = false ->
  exists w',
    rename_entry tests_dir false (old, new) w = (Some tt, w') /\
    lookup old (files (disk w')) = None /\
    lookup new (files (disk w')) = Some text /\
    lookup (backup_of old) (files (disk w')) = Some text /\
    (forall q, q <> old -> q <> new -> q <> backup_of old ->
               lookup q (files (disk w')) = lookup q (files (disk w))).
Proof.
  intros Hin Hl Hanc Hbd Hnd.
  destruct (@plan_entry_below tests_dir fs (old, new) Hin) as [Ho Hn].
  simpl in Ho, Hn.
  apply is_prefix_relative in Ho as [ro Ero].
  apply is_prefix_relative in Hn as [rn Ern].
  apply plan_In in Hin as (k & Hc & Hne & _ & Hd & Hnew).
  assert (Hneq : old <> new) by (rewrite Hnew; now apply differs_neq).
  pose proof (@classified_planned_key tests_dir fs k old Hc Hne) as Hk.
  apply classified_In in Hc as (rel & file & _ & Hsrc & _ & _ & Hold).
  assert (Hbk : backup_of old = (tests_dir ++ rel ++ [(file ++ ".bak")%string])%list).
  { rewrite backup_of_beside. subst old.
    now rewrite parent_full, name_full, <- app_assoc. }
  set (d := dict_get (capitalize k) new_dirs_map (capitalize k)) in *.
  set (n := generate_new_name old k) in *.
  assert (Hnw : new = (tests_dir ++ [d; n])%list) by exact Hnew.
  assert (Hpar : parent new = (tests_dir ++ [d])%list).
  { rewrite Hnw. change (tests_dir ++ [d; n])%list
      with (tests_dir ++ [d] ++ [n])%list. apply parent_full. }
  assert (Hdk : endswith ".bak" d = false).
  { unfold d, planned_keys in *. simpl in Hk.
    destruct Hk as [<-|[<-|[<-|[<-|[<-|[<-|[]]]]]]]; reflexivity. }
  assert (Hfb : endswith ".bak" (file ++ ".bak") = true) by apply endswith_app.
  assert (Hnk : endswith ".bak" n = false).
  { destruct (endswith ".bak" n) eqn:E; [|reflexivity].
    apply endswith_last_char in E; [|discriminate].
    pose proof (NameFacts.generated_name_ends old k) as He.
    apply endswith_last_char in He; [|discriminate]. fold n in He.
    rewrite He in E. unfold suffix in E. subst old.
    rewrite name_full in E. unfold is_source_name in Hsrc.
    apply orb_true_iff in Hsrc as [Hs|Hs].
    - destruct (String.eqb_spec file ".cpp") as [->|Hf]; [discriminate E|].
      rewrite (@NameFacts.suffix_of_source_name ".cpp" file) in E by auto.
      discriminate E.
    - destruct (String.eqb_spec file ".h") as [->|Hf]; [discriminate E|].
      rewrite (@NameFacts.suffix_of_source_name ".h" file) in E by auto.
      discriminate E. }
  assert (Hbn : backup_of old <> new).
  { rewrite Hbk, Hnw. intros E. apply app_inv_head in E.
    destruct rel as [|x [|y rel]]; try discriminate; simpl in E.
    - inversion E; subst. congruence.
    - destruct rel; discriminate. }
  assert (Hbd1 : forall r, parent new <> (backup_of old ++ r)%list).
  { intros r E. rewrite Hpar, Hbk, <- !app_assoc in E. apply app_inv_head in E.
    destruct rel as [|x rel]; simpl in E.
    - inversion E; subst. congruence.
    - inversion E. destruct rel; discriminate. }
  assert (Hnd1 : forall r, parent new <> (new ++ r)%list).
  { intros r E. rewrite Hpar, Hnw, <- app_assoc in E. apply app_inv_head in E.
    discriminate. }
  assert (Hex : exists_ old (disk w) = true).
  { unfold exists_, is_file. now rewrite Hl. }
  unfold rename_entry, bind, get_disk, print, emit, show_rel, when. simpl.
  rewrite Hex, Ero, Ern. simpl.
  unfold mkdir_parents, bind, get_disk, put_disk, emit. simpl.
  rewrite Hanc. simpl.
  unfold copy2, bind, get_disk, put_disk, emit. simpl. rewrite Hl.
  fold (backup_of old).
  pose proof (@is_dir_after_mkdir (backup_of old) (parent new) (disk w) Hbd Hbd1)
    as Hb1.
  pose proof (@is_dir_after_mkdir new (parent new) (disk w) Hnd Hnd1) as Hn1.
  pose proof (@backup_neq old) as Hob. apply path_eqb_neq in Hob.
  rewrite Hb1. cbn iota. rewrite Hb1, Hob. simpl.
  unfold move, bind, get_disk, put_disk, emit. simpl.
  rewrite lookup_store, Hob, Hl.
  unfold is_dir in *. simpl in *. rewrite Hn1. simpl.
  eexists. split; [reflexivity|]. simpl.
  assert (Hno : path_eqb old new = false) by now apply path_eqb_neq.
  assert (Hnb : path_eqb new (backup_of old) = false)
    by (apply path_eqb_neq; congruence).
  assert (Hbn' : path_eqb (backup_of old) new = false)
    by now apply path_eqb_neq.
  assert (Hbo : path_eqb (backup_of old) old = false)
    by (apply path_eqb_neq; apply path_eqb_neq in Hob; congruence).
  repeat split.
  - rewrite lookup_store, Hno, lookup_remove. now rewrite path_eqb_refl.
  - rewrite lookup_store. now rewrite path_eqb_refl.
  - rewrite lookup_store, Hbn', lookup_remove, Hbo, lookup_store.
    now rewrite path_eqb_refl.
  - intros q Hq1 Hq2 Hq3. apply path_eqb_neq in Hq1, Hq2, Hq3.
    now rewrite lookup_store, Hq2, lookup_remove, Hq1, lookup_store, Hq3.
Qed.

Lemma move_follows_backup_witness :
  exists l0 d,
    firstn 23 (log (snd (run Trees.root false Trees.latest)))
    = (l0 ++ [Copy (Trees.at_root ["unit"; "latest.cpp"]) d])%list /\
    (d = backup_of (Trees.at_root ["unit"; "latest.cpp"]) \/
     d = (backup_of (Trees.at_root ["unit"; "latest.cpp"])
          ++ [name (Trees.at_root ["unit"; "latest.cpp"])])%list).
Proof.
  apply (@move_follows_backup Trees.root false Trees.latest
           (firstn 23 (log (snd (run Trees.root false Trees.latest))))
           (skipn 24 (log (snd (run Trees.root false Trees.latest))))
           (Trees.at_root ["unit"; "latest.cpp"])
           (Trees.at_root ["Unit"; "Unit_Latest_Test.cpp"])).
  vm_compute. reflexivity.
Defined.

Lemma entry_applied_witness :
  exists w',
    rename_entry Trees.root false
      (Trees.at_root ["unit"; "latest.cpp"],
       Trees.at_root ["Unit"; "Unit_Latest_Test.cpp"])
      (mkWorld Trees.latest []) = (Some tt, w') /\
    lookup (Trees.at_root ["unit"; "latest.cpp"]) (files (disk w')) = None /\
    lookup (Trees.at_root ["Unit"; "Unit_Latest_Test.cpp"]) (files (disk w'))
    = Some "int a;" /\
    lookup (backup_of (Trees.at_root ["unit"; "latest.cpp"])) (files (disk w'))
    = Some "int a;" /\
    (forall q, q <> Trees.at_root ["unit"; "latest.cpp"] ->
               q <> Trees.at_root ["Unit"; "Unit_Latest_Test.cpp"] ->
               q <> backup_of (Trees.at_root ["unit"; "latest.cpp"]) ->
               lookup q (files (disk w'))
               = lookup q (files (disk (mkWorld Trees.latest [])))).
Proof.
  apply (@entry_applied Trees.root Trees.latest).
  - vm_compute. left. reflexivity.
  - reflexivity.
  - reflexivity.
  - reflexivity.
  - reflexivity.
Defined.

End BackupFacts.

(** ** The removal of empty directories *)

Module CleanupFacts.
Import PyStr PathLib FS TestReorganizer Notions StrFacts PathFacts PlanFacts RunFacts.
Import MoreNotions.

Lemma insert_deeper_In (d x : path) (l : list path) :
  In x (insert_deeper d l) <-> x = d \/ In x l.
Proof.
  induction l as [|e l IH]; simpl.
  - intuition.
  - destruct (List.length e <? List.length d)%nat; simpl; [intuition|].
    rewrite IH. intuition.
Qed.

Lemma bottom_up_In (x : path) (l : list path) :
  In x (bottom_up l) <-> In x l.
Proof.
  unfold bottom_up. induction l as [|d l IH]; simpl; [tauto|].
  rewrite insert_deeper_In, IH. intuition.
Qed.

Lemma insert_deeper_sorted (d : path) (l : list path) :
  StronglySorted not_deeper l -> StronglySorted not_deeper (insert_deeper d l).
Proof.
  induction 1 as [|e l Hs IH Hall]; simpl.
  - constructor; constructor.
  - destruct (Nat.ltb_spec (List.length e) (List.length d)).
    + constructor; [now constructor|].
      constructor; [unfold not_deeper; lia|].
      eapply Forall_impl; [|exact Hall]. unfold not_deeper. intros; lia.
    + constructor; [exact IH|].
      apply Forall_forall. intros x Hx. apply insert_deeper_In in Hx as [->|Hx].
      * exact H.
      * rewrite Forall_forall in Hall. now apply Hall.
Qed.

Lemma bottom_up_sorted (l : list path) : StronglySorted not_deeper (bottom_up l).
Proof.
  unfold bottom_up. induction l as [|d l IH]; simpl; [constructor|].
  now apply insert_deeper_sorted.
Qed.

Lemma parent_length (p : path) :
  p <> [] -> List.length p = S (List.length (parent p)).
Proof.
  intros H. destruct (@exists_last _ p H) as (q & a & ->).
  unfold parent. rewrite removelast_last, length_app. simpl. lia.
Qed.

Lemma is_empty_dir_false (d : path) (fs : filesystem) :
  is_empty_dir d fs = false <->
  exists p, (In p (map fst (files fs)) \/ In p (dirs fs)) /\
            parent p = d /\ p <> [].
Proof.
  unfold is_empty_dir. rewrite negb_false_iff, existsb_exists. split.
  - intros (p & Hp & H). apply andb_prop in H as [E N].
    apply path_eqb_eq in E. apply negb_true_iff, path_eqb_neq in N.
    exists p. rewrite in_app_iff in Hp. auto.
  - intros (p & Hp & E & N). exists p. rewrite in_app_iff. split; [exact Hp|].
    apply andb_true_intro. split; [now apply path_eqb_eq|].
    now apply negb_true_iff, path_eqb_neq.
Qed.

Section Cleanup.

Variable tests_dir : path.

Lemma remove_if_empty_cases (e : path) (w : world) :
  below tests_dir e = true ->
  exists w',
    remove_if_empty tests_dir e w = (Some tt, w') /\
    files (disk w') = files (disk w) /\
    ((is_empty_dir e (disk w) = false /\ dirs (disk w') = dirs (disk w)) \/
     (is_empty_dir e (disk w) = true /\
      dirs (disk w')
      = filter (fun d => negb (path_eqb e d)) (dirs (disk w)))).
Proof.
  intros Hb. unfold below in Hb. apply andb_prop in Hb as [Hp _].
  apply is_prefix_relative in Hp as [r Hr].
  unfold remove_if_empty, bind, get_disk, when. simpl.
  destruct (is_empty_dir e (disk w)) eqn:E.
  - unfold rmdir, bind, get_disk, put_disk, emit, show_rel. simpl.
    rewrite Hr. simpl. eexists. split; [reflexivity|]. simpl. auto.
  - exists w. auto.
Qed.

Lemma cleanup_loop (todo : list path) :
  forall (done : list path) (w : world),
    (forall e, In e todo -> below tests_dir e = true) ->
    StronglySorted not_deeper todo ->
    (forall d e, In d done -> In e todo -> not_deeper d e) ->
    settled done (disk w) ->
    exists w',
      for_each todo (remove_if_empty tests_dir) w = (Some tt, w') /\
      files (disk w') = files (disk w) /\
      (forall d, In d (dirs (disk w')) -> In d (dirs (disk w))) /\
      (forall d, In d (dirs (disk w)) -> ~ In d todo -> In d (dirs (disk w'))) /\
      settled (done ++ todo) (disk w').
Proof.
  induction todo as [|e todo IH]; intros done w Hb Hs Hd Hdone.
  - exists w. rewrite app_nil_r. simpl. auto.
  - destruct (@remove_if_empty_cases e w (Hb e (or_introl eq_refl)))
      as (w1 & E1 & Hf1 & Hc).
    inversion Hs as [|? ? Hs' Hall]; subst.
    rewrite Forall_forall in Hall.
    assert (Hin1 : forall d, In d (dirs (disk w1)) -> In d (dirs (disk w))).
    { intros d H. destruct Hc as [[_ Ed]|[_ Ed]]; rewrite Ed in H;
        [exact H|]. now apply filter_In in H. }
    assert (Hout1 : forall d, In d (dirs (disk w)) -> d <> e ->
                              In d (dirs (disk w1))).
    { intros d H Hne. destruct Hc as [[_ Ed]|[_ Ed]]; rewrite Ed;
        [exact H|]. apply filter_In. split; [exact H|].
      apply negb_true_iff, path_eqb_neq. congruence. }
    assert (Hdone1 : settled (done ++ [e]) (disk w1)).
    { intros d Hd1 Hin. apply in_app_iff in Hd1 as [Hd1|[<-|[]]].
      - pose proof (Hdone d Hd1 (Hin1 d Hin)) as Hne.
        apply is_empty_dir_false in Hne as (p & Hp & Ep & Np).
        apply is_empty_dir_false. exists p. rewrite Hf1.
        split; [|auto]. destruct Hp as [Hp|Hp]; [auto|right].
        apply Hout1; [exact Hp|]. intros ->.
        pose proof (Hd d e Hd1 (or_introl eq_refl)) as Hle.
        unfold not_deeper in Hle. rewrite (parent_length Np), Ep in Hle. lia.
      - destruct Hc as [[Hne Ed]|[_ Ed]].
        + apply is_empty_dir_false in Hne as (p & Hp & Ep & Np).
          apply is_empty_dir_false. exists p. now rewrite Hf1, Ed.
        + rewrite Ed in Hin. apply filter_In in Hin as [_ H].
          now rewrite path_eqb_refl in H. }
    destruct (IH (done ++ [e])%list w1) as (w' & E & Hf & Hin & Hout & Hset).
    + intros x Hx. apply Hb. now right.
    + exact Hs'.
    + intros d x Hd1 Hx. apply in_app_iff in Hd1 as [Hd1|[<-|[]]].
      * apply Hd; [exact Hd1|now right].
      * now apply Hall.
    + exact Hdone1.
    + exists w'. simpl. unfold bind. rewrite E1. split; [exact E|].
      split; [congruence|]. split; [auto|]. split.
      * intros d H Hn. apply Hout.
        -- apply Hout1; [exact H|]. intros ->. apply Hn. now left.
        -- intros Hx. apply Hn. now right.
      * now rewrite <- app_assoc in Hset.
Qed.

(** The cleanup pass never fails; it leaves the files and the directories
    that are not below the tests directory as they are, removes directories
    only, and afterwards no directory below the tests directory is empty. *)
Theorem cleanup_leaves_no_empty_dir (w : world) :
  exists w',
    cleanup tests_dir w = (Some tt, w') /\
    files (disk w') = files (disk w) /\
    (forall d, In d (dirs (disk w')) -> In d (dirs (disk w))) /\
    (forall d, In d (dirs (disk w)) -> below tests_dir d = false ->
               In d (dirs (disk w'))) /\
    (forall d, In d (dirs (disk w')) -> below tests_dir d = true ->
               is_empty_dir d (disk w') = false).
Proof.
  unfold cleanup, bind, get_disk. simpl.
  destruct (@cleanup_loop
              (bottom_up (filter (below tests_dir) (dirs (disk w)))) [] w)
    as (w' & E & Hf & Hin & Hout & Hset).
  - intros e He. apply bottom_up_In, filter_In in He. tauto.
  - apply bottom_up_sorted.
  - intros d e [].
  - intros d [].
  - exists w'. split; [exact E|]. split; [exact Hf|]. split; [exact Hin|].
    split.
    + intros d Hd Hb. apply Hout; [exact Hd|]. intros H.
      apply bottom_up_In, filter_In in H. destruct H as [_ H]. congruence.
    + intros d Hd Hb. apply Hset; [|exact Hd]. simpl.
      apply bottom_up_In, filter_In. auto.
Qed.

Lemma cleanup_settled (w : world) :
  exists w',
    cleanup tests_dir w = (Some tt, w') /\
    (forall d, In d (dirs (disk w')) -> below tests_dir d = true ->
               is_empty_dir d (disk w') = false).
Proof.
  unfold cleanup, bind, get_disk. simpl.
  destruct (@cleanup_loop
              (bottom_up (filter (below tests_dir) (dirs (disk w)))) [] w)
    as (w' & E & _ & Hin & _ & Hset).
  - intros e He. apply bottom_up_In, filter_In in He. tauto.
  - apply bottom_up_sorted.
  - intros d e [].
  - intros d [].
  - exists w'. split; [exact E|]. intros d Hd Hb.
    apply Hset; [|exact Hd]. simpl. apply bottom_up_In, filter_In. auto.
Qed.

(** When a real run with something to reorganise comes to its end, no
    directory below the tests directory is left empty. *)
Theorem run_leaves_no_empty_dir (fs : filesystem) (d : path) :
  generate_reorganization_plan tests_dir fs <> [] ->
  fst (run tests_dir false fs) = Some tt ->
  In d (dirs (disk (snd (run tests_dir false fs)))) ->
  below tests_dir d = true ->
  is_empty_dir d (disk (snd (run tests_dir false fs))) = false.
Proof.
  unfold run, execute_reorganization.
  change (bind get_disk
            (fun fs0 => apply_plan tests_dir false
                          (generate_reorganization_plan tests_dir fs0))
            (mkWorld fs []))
    with (apply_plan tests_dir false
            (generate_reorganization_plan tests_dir fs) (mkWorld fs [])).
  destruct (generate_reorganization_plan tests_dir fs) as [|e m];
    [congruence|].
  intros _.
  destruct (apply_plan tests_dir false (e :: m) (mkWorld fs []))
    as [r wf] eqn:E.
  simpl. intros ->. unfold apply_plan in E.
  do 5 (apply bind_returns in E as (? & ? & _ & E)).
  apply bind_returns in E as ([] & w1 & Ec & E).
  simpl in Ec.
  match type of Ec with cleanup _ ?w0 = _ =>
    destruct (cleanup_settled w0) as (w' & Ec' & H)
  end.
  rewrite Ec' in Ec. inversion Ec; subst w1. clear Ec.
  unfold bind, print, emit in E. simpl in E. inversion E; subst wf. simpl.
  intros Hd Hb. now apply H.
Qed.

End Cleanup.

Lemma run_leaves_no_empty_dir_witness :
  is_empty_dir (Trees.at_root ["unit"])
    (disk (snd (run Trees.root false Trees.latest))) = false.
Proof.
  apply (@run_leaves_no_empty_dir Trees.root Trees.latest).
  - discriminate.
  - reflexivity.
  - vm_compute. tauto.
  - reflexivity.
Defined.

End CleanupFacts.

(** ** The migration script *)

Module MigrateFacts.
Import PyStr PathLib FS TestReorganizer Notions TestMigrator MigrateNotions.

Section Migrator.

Variable dry_run : bool.
Variable _migrate_includes : string -> string.
Variable _migrate_base_class : string -> string.
Variable _migrate_setup_teardown : string -> string.
Variable _migrate_assertions : string -> string.
Variable _migrate_service_usage : string -> string.
Variable re_sub : string -> string -> string -> string.
Variable describe : failure -> path -> string.

(** Whatever the regular-expression rewritings do and whatever is on the
    disk, [migrate_file] answers False: it counts the file as processed and
    not as modified, leaves the disk as it is, and only reads and prints.
    For a file it could read the line it prints is the error of the
    unpacking in [_migrate_wait_statements]. *)
Theorem migrate_file_never_migrates (filepath : path) (c : counters)
    (w : world) :
  exists evs,
    migrate_file dry_run _migrate_includes _migrate_base_class
      _migrate_setup_teardown _migrate_assertions _migrate_service_usage
      re_sub describe filepath c w
    = (Some (false, mkCounters (S (files_processed c)) (files_modified c)),
       mkWorld (disk w) (log w ++ evs)%list) /\
    Forall reads_or_prints evs /\
    (forall text, lookup filepath (files (disk w)) = Some text ->
       evs = [ Read filepath;
               Print (CMakeUpdater.cross_mark ++ " Error migrating "
                      ++ str filepath ++ ": "
                      ++ describe TooManyValues filepath) ]).
Proof.
  unfold migrate_file, report_error, bind, get_disk, print, emit. simpl.
  destruct (lookup filepath (files (disk w))) as [text|] eqn:E; simpl.
  - eexists. split; [now rewrite <- app_assoc|]. split.
    + repeat constructor.
    + reflexivity.
  - eexists. split; [reflexivity|]. split.
    + repeat constructor.
    + discriminate.
Qed.

Lemma migrate_file_result (filepath : path) (c : counters) (w : world) :
  exists evs,
    migrate_file dry_run _migrate_includes _migrate_base_class
      _migrate_setup_teardown _migrate_assertions _migrate_service_usage
      re_sub describe filepath c w
    = (Some (false, mkCounters (S (files_processed c)) (files_modified c)),
       mkWorld (disk w) (log w ++ evs)%list) /\
    Forall reads_or_prints evs.
Proof.
  unfold migrate_file, report_error, bind, get_disk, print, emit. simpl.
  destruct (lookup filepath (files (disk w))); simpl; eexists;
    (split; [try rewrite <- app_assoc; reflexivity|repeat constructor]).
Qed.

Lemma migrate_all_counts (l : list path) :
  forall (c : counters) (w : world),
  exists evs,
    migrate_all dry_run _migrate_includes _migrate_base_class
      _migrate_setup_teardown _migrate_assertions _migrate_service_usage
      re_sub describe l c w
    = (Some (mkCounters
               (files_processed c
                + List.length
                    (filter (fun p => negb (contains "_new.cpp" (str p))) l))
               (files_modified c)),
       mkWorld (disk w) (log w ++ evs)%list) /\
    Forall reads_or_prints evs.
Proof.
  induction l as [|p l IH]; intros c w.
  - exists []. simpl. rewrite Nat.add_0_r, app_nil_r. unfold ret.
    destruct c, w; auto.
  - simpl. destruct (contains "_new.cpp" (str p)); simpl.
    + apply IH.
    + destruct (migrate_file_result p c w) as (e1 & E1 & H1).
      unfold bind. rewrite E1. simpl.
      destruct (IH (mkCounters (S (files_processed c)) (files_modified c))
                   (mkWorld (disk w) (log w ++ e1)%list))
        as (e2 & E2 & H2).
      exists (e1 ++ e2)%list. rewrite E2. simpl. split.
      * rewrite app_assoc. repeat f_equal. lia.
      * apply Forall_app. auto.
Qed.

(** [migrate_directory] comes to its end with the disk as it was: it
    reports as processed every file it found whose path has no [_new.cpp]
    in it, a file that both patterns match counting twice, and reports no
    file as modified. *)
Theorem migrate_directory_modifies_nothing (directory : path) (c : counters)
    (w : world) :
  exists evs,
    migrate_directory dry_run _migrate_includes _migrate_base_class
      _migrate_setup_teardown _migrate_assertions _migrate_service_usage
      re_sub describe directory c w
    = (Some (mkCounters
               (files_processed c
                + List.length (handed_over directory (disk w)))
               (files_modified c)),
       mkWorld (disk w) (log w ++ evs)%list) /\
    Forall reads_or_prints evs.
Proof.
  unfold migrate_directory, handed_over, bind, get_disk, print, emit. simpl.
  match goal with
  | |- context [migrate_all _ _ _ _ _ _ _ _ ?l ?c0 ?w0] =>
      destruct (migrate_all_counts l c0 w0) as (evs & E & H)
  end.
  eexists. rewrite E. simpl. split.
  - rewrite <- !app_assoc. reflexivity.
  - repeat constructor. exact H.
Qed.

End Migrator.

End MigrateFacts.

(** ** The CMake updater of the migration script *)

Module UpdaterFacts.
Import PyStr PathLib FS TestReorganizer Notions StrFacts PathFacts RunFacts.

Lemma cmake_backup_path (dir : path) :
  with_suffix (dir ++ ["CMakeLists.txt"])%list ".txt.bak"
  = (dir ++ ["CMakeLists.txt.bak"])%list.
Proof.
  unfold with_suffix, suffix. rewrite name_snoc. unfold parent.
  now rewrite removelast_last.
Qed.

(** [update_cmake] on a CMakeLists.txt whose text, as it is read, the
    rewriting changes.  In a dry run it answers True and the disk stays as
    it is.  In a real run, when CMakeLists.txt.bak is no directory, it
    answers True, the file then holds the new text, CMakeLists.txt.bak
    beside it holds the text that was read (the old bytes with CR LF and
    CR turned into LF), and every other file is as before; when
    CMakeLists.txt.bak is a directory it answers False and the disk stays
    as it is. *)
Theorem update_cmake_keeps_original (rewrite_text : string -> string)
    (dir : path) (w : world) (raw : string) :
  lookup (dir ++ ["CMakeLists.txt"])%list (files (disk w)) = Some raw ->
  rewrite_text (read_newlines raw) <> read_newlines raw ->
  (exists w',
     CMakeUpdater.update_cmake true rewrite_text
       (dir ++ ["CMakeLists.txt"])%list w = (Some true, w') /\
     disk w' = disk w) /\
  (is_dir (dir ++ ["CMakeLists.txt.bak"])%list (disk w) = false ->
   exists w',
     CMakeUpdater.update_cmake false rewrite_text
       (dir ++ ["CMakeLists.txt"])%list w = (Some true, w') /\
     lookup (dir ++ ["CMakeLists.txt"])%list (files (disk w'))
     = Some (rewrite_text (read_newlines raw)) /\
     lookup (dir ++ ["CMakeLists.txt.bak"])%list (files (disk w'))
     = Some (read_newlines raw) /\
     dirs (disk w') = dirs (disk w) /\
     (forall q, q <> (dir ++ ["CMakeLists.txt"])%list ->
                q <> (dir ++ ["CMakeLists.txt.bak"])%list ->
                lookup q (files (disk w')) = lookup q (files (disk w)))) /\
  (is_dir (dir ++ ["CMakeLists.txt.bak"])%list (disk w) = true ->
   exists w',
     CMakeUpdater.update_cmake false rewrite_text
       (dir ++ ["CMakeLists.txt"])%list w = (Some false, w') /\
     disk w' = disk w).
Proof.
  intros Hl Hne.
  assert (Hb : String.eqb (rewrite_text (read_newlines raw))
                          (read_newlines raw) = false)
    by now apply String.eqb_neq.
  split; [|split].
  - unfold CMakeUpdater.update_cmake, bind, get_disk, print, emit. simpl.
    rewrite Hl. simpl. rewrite Hb. simpl. eexists. split; reflexivity.
  - intros Hd.
    unfold CMakeUpdater.update_cmake, bind, get_disk, print, emit. simpl.
    rewrite Hl. simpl. rewrite Hb. simpl.
    rewrite cmake_backup_path, Hd. simpl.
    unfold write_text, bind, get_disk, put_disk, emit. simpl.
    eexists. split; [reflexivity|]. simpl.
    assert (Hp : path_eqb (dir ++ ["CMakeLists.txt"])%list
                          (dir ++ ["CMakeLists.txt.bak"])%list = false).
    { apply path_eqb_neq. intros E. apply app_inv_head in E. discriminate. }
    assert (Hp' : path_eqb (dir ++ ["CMakeLists.txt.bak"])%list
                           (dir ++ ["CMakeLists.txt"])%list = false).
    { apply path_eqb_neq. intros E. apply app_inv_head in E. discriminate. }
    repeat split.
    + now rewrite lookup_store, path_eqb_refl.
    + now rewrite !lookup_store, Hp', path_eqb_refl.
    + intros q H1 H2. apply path_eqb_neq in H1, H2.
      now rewrite !lookup_store, H1, H2.
  - intros Hd.
    unfold CMakeUpdater.update_cmake, bind, get_disk, print, emit. simpl.
    rewrite Hl. simpl. rewrite Hb. simpl.
    rewrite cmake_backup_path, Hd. simpl. eexists. split; reflexivity.
Qed.

(** A CMakeLists.txt that enables testing, does not mention TestUtilities
    yet and names the five dependencies: [_add_test_utilities] puts its
    block after [enable_testing()], and neither regular expression finds
    anything to do (there is no [add_executable], and no dependency is
    missing), so the two parameters are never asked for more than the
    text they are given. *)
Lemma update_cmake_keeps_original_witness :
  let text := ("enable_testing()" ++ newline
               ++ "# ControllerLib FactoryLib ServiceLocator StateManager EventBus"
               ++ newline)%string in
  let fs := mkFS [ ((Trees.root ++ ["CMakeLists.txt"])%list, text) ]
                 [ Trees.root ] in
  exists w',
    CMakeUpdater.update_cmake false
      (CMakeText.rewrite_text (fun s => s) (fun _ s => s))
      (Trees.root ++ ["CMakeLists.txt"])%list (mkWorld fs [])
    = (Some true, w') /\
    lookup (Trees.root ++ ["CMakeLists.txt"])%list (files (disk w'))
    = Some ("enable_testing()" ++ CMakeText.utilities_block ++ newline
            ++ "# ControllerLib FactoryLib ServiceLocator StateManager EventBus"
            ++ newline)%string /\
    lookup (Trees.root ++ ["CMakeLists.txt.bak"])%list (files (disk w'))
    = Some text.
Proof.
  intros text fs.
  destruct (@update_cmake_keeps_original
              (CMakeText.rewrite_text (fun s => s) (fun _ s => s))
              Trees.root (mkWorld fs []) text)
    as (_ & H & _); [reflexivity|vm_compute; discriminate|].
  destruct H as (w' & E & H1 & H2 & _); [reflexivity|].
  exists w'. split; [exact E|]. split; [exact H1|exact H2].
Defined.

End UpdaterFacts.

(** ** The renaming script *)

Module RenameFacts.
Import PyStr PathLib FS TestReorganizer Notions StrFacts PathFacts RunFacts.
Import Triples MoreNotions.
Import RenameTests RenameNotions PlanMore HoareFacts BackupFacts CleanupFacts.

(** *** camel_to_snake *)

Lemma lower_char_not_upper (c : ascii) : is_upper (lower_char c) = false.
Proof.
  destruct c as [[] [] [] [] [] [] [] []]; reflexivity.
Qed.

Lemma lower_no_capital (s : string) : no_capital (lower s) = true.
Proof.
  unfold no_capital. induction s as [|c s IH]; simpl; [reflexivity|].
  now rewrite lower_char_not_upper, IH.
Qed.

Lemma no_capital_cons (c : ascii) (s : string) :
  no_capital (String c s) = true <->
  is_upper c = false /\ no_capital s = true.
Proof.
  unfold no_capital. simpl. rewrite andb_true_iff, negb_true_iff. tauto.
Qed.

Lemma sub_word_plain (s : string) :
  no_capital s = true -> forall b, sub_word b s = s.
Proof.
  induction s as [|c s IH]; intros H b; [reflexivity|].
  apply no_capital_cons in H as [Hc Hs]. simpl.
  destruct (b && is_lower c); [now rewrite IH|].
  destruct s as [|u [|l s2]]; try now rewrite IH.
  apply no_capital_cons in Hs as [Hu Hs2].
  rewrite Hu, andb_false_r. cbn [andb].
  now rewrite (IH (proj2 (no_capital_cons u _) (conj Hu Hs2))).
Qed.

Lemma sub_boundary_plain (s : string) :
  no_capital s = true -> sub_boundary s = s.
Proof.
  induction s as [|a s IH]; intros H; [reflexivity|].
  apply no_capital_cons in H as [Ha Hs]. simpl.
  destruct s as [|b s1]; [reflexivity|].
  pose proof Hs as Hs'. apply no_capital_cons in Hs' as [Hb _].
  rewrite Hb, andb_false_r. now rewrite IH.
Qed.

Lemma lower_plain (s : string) : no_capital s = true -> lower s = s.
Proof.
  induction s as [|c s IH]; intros H; [reflexivity|].
  apply no_capital_cons in H as [Hc Hs]. simpl. unfold lower_char.
  now rewrite Hc, IH.
Qed.

(** The result of [camel_to_snake] has no capital letter, and
    [camel_to_snake] leaves it as it is. *)
Theorem camel_to_snake_settles (name : string) :
  no_capital (camel_to_snake name) = true /\
  camel_to_snake (camel_to_snake name) = camel_to_snake name.
Proof.
  assert (H : no_capital (camel_to_snake name) = true).
  { unfold camel_to_snake. destruct (String.eqb_spec name "smoke_test").
    - subst. reflexivity.
    - apply lower_no_capital. }
  split; [exact H|].
  set (r := camel_to_snake name) in *. unfold camel_to_snake.
  destruct (String.eqb r "smoke_test"); [reflexivity|].
  now rewrite (@sub_word_plain r H), (@sub_boundary_plain r H),
    (@lower_plain r H).
Qed.

(** Every new name of the table is the old one with its stem put through
    [camel_to_snake], in the same directory and with the same extension. *)
Theorem table_is_snake_case (old_path new_path : string) :
  In (old_path, new_path) TEST_FILES_TO_RENAME ->
  parent (Path new_path) = parent (Path old_path) /\
  name (Path new_path)
  = camel_to_snake (stem (Path old_path)) ++ suffix (Path old_path).
Proof.
  unfold TEST_FILES_TO_RENAME. simpl.
  intros H.
  repeat (destruct H as [H|H]; [inversion H; subst; split; reflexivity|]).
  contradiction.
Qed.

Lemma table_is_snake_case_witness :
  parent (Path "factory/model_factory_test.cpp")
  = parent (Path "factory/ModelFactoryTest.cpp") /\
  name (Path "factory/model_factory_test.cpp")
  = camel_to_snake (stem (Path "factory/ModelFactoryTest.cpp"))
    ++ suffix (Path "factory/ModelFactoryTest.cpp").
Proof.
  apply table_is_snake_case. unfold TEST_FILES_TO_RENAME.
  do 13 right. left. reflexivity.
Defined.

(** *** main *)

Lemma ancestors_length (p a : path) :
  In a (ancestors_and_self p) -> (List.length a <= List.length p)%nat.
Proof.
  intros H. apply ancestors_prefix in H as [r ->]. rewrite length_app. lia.
Qed.

Lemma existsb_false {A : Type} (f : A -> bool) (l : list A) :
  existsb f l = false <-> forall x, In x l -> f x = false.
Proof.
  split.
  - intros H x Hx. destruct (f x) eqn:E; [|reflexivity].
    rewrite <- H. symmetry. apply existsb_exists. eauto.
  - intros H. apply not_true_is_false. intros E.
    apply existsb_exists in E as (x & Hx & Ex). rewrite (H x Hx) in Ex.
    discriminate.
Qed.

Section Main.

Variable tests_dir : path.

Local Notation "'at_' rel" := (joinpath tests_dir rel) (at level 9).

Lemma joinpath_length (rel : string) :
  List.length (at_ rel) = (List.length tests_dir + List.length (Path rel))%nat.
Proof. unfold joinpath. apply length_app. Qed.

Lemma joinpath_parent_length (rel : string) :
  List.length (Path rel) = 2 ->
  List.length (parent (at_ rel)) = S (List.length tests_dir).
Proof.
  intros H. assert (Hne : at_ rel <> []).
  { intros E. apply (f_equal (@List.length _)) in E.
    rewrite joinpath_length, H in E. simpl in E. lia. }
  pose proof (parent_length Hne) as E. rewrite joinpath_length, H in E. lia.
Qed.

(** One round on a ready disk. *)
Lemma rename_one_ready (o n : string) (w : world) :
  List.length (Path n) = 2 ->
  existsb (fun a => is_file a (disk w))
          (ancestors_and_self (parent (at_ n))) = false ->
  is_dir (at_ o) (disk w) = false ->
  is_dir (at_ n) (disk w) = false ->
  exists w1,
    rename_one tests_dir (o, n) w = (Some tt, w1) /\
    files (disk w1)
    = match lookup (at_ o) (files (disk w)) with
      | Some t => store (at_ n) t (remove (at_ o) (files (disk w)))
      | None => files (disk w)
      end /\
    (forall d, In d (dirs (disk w1)) ->
               In d (dirs (disk w)) \/
               In d (ancestors_and_self (parent (at_ n)))).
Proof.
  intros Hn Hanc Hdo Hdn.
  unfold rename_one, bind, get_disk, print, emit. simpl.
  unfold exists_, is_file. rewrite Hdo.
  destruct (lookup (at_ o) (files (disk w))) as [t|] eqn:El; simpl.
  - unfold mkdir_parents, bind, get_disk, put_disk, emit. simpl.
    rewrite Hanc. simpl.
    unfold move, bind, get_disk, put_disk, emit. simpl. rewrite El.
    assert (Hn1 : forall r, parent (at_ n) <> (at_ n ++ r)%list).
    { intros r E. apply (f_equal (@List.length _)) in E.
      rewrite length_app, (@joinpath_parent_length _ Hn), joinpath_length, Hn
        in E. lia. }
    pose proof (@is_dir_after_mkdir (at_ n) (parent (at_ n)) (disk w) Hdn Hn1)
      as Hd1.
    unfold is_dir in *. simpl in *. rewrite Hd1. simpl.
    eexists. split; [reflexivity|]. simpl. split; [reflexivity|].
    intros d Hd. apply in_app_iff in Hd as [Hd|Hd]; [now left|right].
    now apply filter_In in Hd.
  - eexists. split; [reflexivity|]. simpl. auto.
Qed.

Lemma ready_after (l : list (string * string)) (o n : string) (w w1 : world) :
  two_deep ((o, n) :: l) ->
  ready tests_dir l (disk w) ->
  files (disk w1)
  = match lookup (at_ o) (files (disk w)) with
    | Some t => store (at_ n) t (remove (at_ o) (files (disk w)))
    | None => files (disk w)
    end ->
  (forall d, In d (dirs (disk w1)) ->
             In d (dirs (disk w)) \/
             In d (ancestors_and_self (parent (at_ n)))) ->
  ready tests_dir l (disk w1).
Proof.
  intros Ht Hr Hf Hd e He.
  destruct (Hr e He) as (Ha & Ho & Hn).
  destruct (Ht e (or_intror He)) as [To Tn].
  destruct (Ht (o, n) (or_introl eq_refl)) as [_ Tn0]. simpl in Tn0.
  split; [|split].
  - apply existsb_false. intros a Hin.
    pose proof (proj1 (existsb_false _ _) Ha a Hin) as Hfa.
    apply ancestors_length in Hin. rewrite (@joinpath_parent_length _ Tn) in Hin.
    unfold is_file in *. rewrite Hf.
    destruct (lookup (at_ o) (files (disk w))) as [t|]; [|exact Hfa].
    rewrite lookup_store, lookup_remove.
    destruct (path_eqb a (at_ n)) eqn:E.
    + apply path_eqb_eq in E. subst a.
      rewrite joinpath_length, Tn0 in Hin. lia.
    + destruct (path_eqb a (at_ o)); [reflexivity|exact Hfa].
  - apply not_true_is_false. intros E. apply is_dir_iff in E.
    destruct (Hd _ E) as [H|H].
    + apply is_dir_iff in H. congruence.
    + apply ancestors_length in H.
      rewrite (@joinpath_parent_length _ Tn0), joinpath_length, To in H. lia.
  - apply not_true_is_false. intros E. apply is_dir_iff in E.
    destruct (Hd _ E) as [H|H].
    + apply is_dir_iff in H. congruence.
    + apply ancestors_length in H.
      rewrite (@joinpath_parent_length _ Tn0), joinpath_length, Tn in H. lia.
Qed.

Lemma rename_loop (l : list (string * string)) :
  forall w : world,
    two_deep l -> NoDup (listed tests_dir l) -> ready tests_dir l (disk w) ->
    exists w',
      for_each l (rename_one tests_dir) w = (Some tt, w') /\
      (forall o n, In (o, n) l ->
         lookup (at_ o) (files (disk w')) = None /\
         lookup (at_ n) (files (disk w'))
         = match lookup (at_ o) (files (disk w)) with
           | Some t => Some t
           | None => lookup (at_ n) (files (disk w))
           end) /\
      (forall q, ~ In q (listed tests_dir l) ->
                 lookup q (files (disk w')) = lookup q (files (disk w))).
Proof.
  induction l as [|[o n] l IH]; intros w Ht Hnd Hr.
  - exists w. simpl. split; [reflexivity|]. split; [contradiction|auto].
  - simpl in Hnd. inversion Hnd as [|? ? Ho Hnd1]; subst.
    inversion Hnd1 as [|? ? Hn Hnd2]; subst.
    destruct (Hr (o, n) (or_introl eq_refl)) as (Ha & Hdo & Hdn).
    destruct (Ht (o, n) (or_introl eq_refl)) as [_ Tn].
    simpl in Tn, Ha, Hdo, Hdn.
    destruct (@rename_one_ready o n w Tn Ha Hdo Hdn) as (w1 & E1 & Hf1 & Hd1).
    assert (Hr1 : ready tests_dir l (disk w1)).
    { apply (@ready_after l o n w w1); auto.
      intros e He. apply Hr. now right. }
    destruct (IH w1) as (w' & E & Hl & Hq); auto.
    { intros e He. apply Ht. now right. }
    assert (Hon : at_ o <> at_ n) by (intros E0; apply Ho; now left).
    assert (Hstep : forall q, q <> at_ o -> q <> at_ n ->
                      lookup q (files (disk w1)) = lookup q (files (disk w))).
    { intros q Hqo Hqn. rewrite Hf1.
      destruct (lookup (at_ o) (files (disk w))); [|reflexivity].
      apply path_eqb_neq in Hqo, Hqn.
      now rewrite lookup_store, Hqn, lookup_remove, Hqo. }
    exists w'. cbn [for_each]. unfold bind at 1. rewrite E1.
    split; [exact E|]. split.
    + intros o' n' [H|H].
      * inversion H; subst o' n'.
        assert (Hqo : ~ In (at_ o) (listed tests_dir l))
          by (intros H0; apply Ho; now right).
        rewrite (Hq _ Hqo), (Hq _ Hn), Hf1.
        destruct (lookup (at_ o) (files (disk w))) eqn:El; [|auto].
        apply path_eqb_neq in Hon.
        rewrite !lookup_store, Hon, lookup_remove, !path_eqb_refl. auto.
      * destruct (Hl o' n' H) as [H1 H2]. split; [exact H1|].
        assert (Hin : In (at_ o') (listed tests_dir l) /\
                      In (at_ n') (listed tests_dir l)).
        { unfold listed. rewrite !in_flat_map.
          split; exists (o', n'); simpl; auto. }
        destruct Hin as [Hio Hin].
        rewrite H2, !Hstep; try reflexivity; intros E0;
          rewrite E0 in *; first [apply Hn; assumption
                                 | apply Ho; now right].
    + intros q Hnq. simpl in Hnq. rewrite Hq, Hstep; auto.
Qed.

Lemma listed_map (l : list (string * string)) :
  listed tests_dir l
  = map (app tests_dir)
        (flat_map (fun e => [Path (fst e); Path (snd e)]) l).
Proof.
  unfold listed, joinpath. induction l as [|e l IH]; simpl; [reflexivity|].
  now rewrite IH.
Qed.

Lemma NoDup_map_app (l : list path) :
  NoDup l -> NoDup (map (app tests_dir) l).
Proof.
  induction 1 as [|x l Hx Hl IH]; simpl; constructor; [|exact IH].
  intros H. apply in_map_iff in H as (y & E & Hy).
  apply app_inv_head in E. now subst.
Qed.

Lemma table_two_deep : two_deep TEST_FILES_TO_RENAME.
Proof.
  intros e He. unfold TEST_FILES_TO_RENAME in He. simpl in He.
  repeat (destruct He as [<-|He]; [split; reflexivity|]). contradiction.
Qed.

Lemma table_NoDup : NoDup (listed tests_dir TEST_FILES_TO_RENAME).
Proof.
  rewrite listed_map. apply NoDup_map_app.
  match goal with
  | |- NoDup ?l =>
      replace l with (nodup (list_eq_dec String.string_dec) l)
        by (vm_compute; reflexivity)
  end.
  apply NoDup_nodup.
Qed.

(** On a disk where no listed path is a directory and no regular file is
    in the way of the directories, [main] comes to its end; every file of
    the table that was there is then at its new path with its text and no
    longer at its old path, a new path whose file was not there keeps what
    it had, and every path that is not in the table keeps its file. *)
Theorem main_renames (w : world) :
  ready tests_dir TEST_FILES_TO_RENAME (disk w) ->
  exists w',
    main tests_dir w = (Some tt, w') /\
    (forall o n, In (o, n) TEST_FILES_TO_RENAME ->
       lookup (at_ o) (files (disk w')) = None /\
       lookup (at_ n) (files (disk w'))
       = match lookup (at_ o) (files (disk w)) with
         | Some t => Some t
         | None => lookup (at_ n) (files (disk w))
         end) /\
    (forall q, ~ In q (listed tests_dir TEST_FILES_TO_RENAME) ->
               lookup q (files (disk w')) = lookup q (files (disk w))).
Proof.
  intros Hr.
  set (Post := fun fs' : filesystem =>
    (forall o n, In (o, n) TEST_FILES_TO_RENAME ->
       lookup (at_ o) (files fs') = None /\
       lookup (at_ n) (files fs')
       = match lookup (at_ o) (files (disk w)) with
         | Some t => Some t
         | None => lookup (at_ n) (files (disk w))
         end) /\
    (forall q, ~ In q (listed tests_dir TEST_FILES_TO_RENAME) ->
               lookup q (files fs') = lookup q (files (disk w)))).
  assert (H : hoare (on_disk (fun fs => fs = disk w)) (main tests_dir)
                    (fun _ => on_disk Post)).
  { unfold main.
    do 2 (eapply hoare_bind; [apply hoare_print|intros ?; cbv beta]).
    apply hoare_bind with (Q := fun _ : unit => on_disk Post).
    - intros w0 Hw0. unfold on_disk in Hw0.
      destruct (@rename_loop TEST_FILES_TO_RENAME w0 table_two_deep
                  table_NoDup) as (w' & E & H1 & H2).
      + now rewrite Hw0.
      + exists tt, w'. split; [exact E|]. hnf. rewrite Hw0 in H1, H2.
        split; assumption.
    - intros u0. cbv beta.
      do 5 (eapply hoare_bind; [apply hoare_print|intros ?; cbv beta]).
      apply hoare_print. }
  destruct (H w eq_refl) as ([] & w' & E & H1 & H2). exists w'. auto.
Qed.

End Main.

Lemma main_renames_witness :
  exists w',
    main Trees.root
      (mkWorld (mkFS [ (Trees.at_root ["factory"; "ModelFactoryTest.cpp"],
                        "class ModelFactoryTest;") ]
                     [ Trees.root; Trees.at_root ["factory"] ]) [])
    = (Some tt, w') /\
    (forall o n, In (o, n) TEST_FILES_TO_RENAME ->
       lookup (joinpath Trees.root o) (files (disk w')) = None /\
       lookup (joinpath Trees.root n) (files (disk w'))
       = match lookup (joinpath Trees.root o)
                 [ (Trees.at_root ["factory"; "ModelFactoryTest.cpp"],
                    "class ModelFactoryTest;") ] with
         | Some t => Some t
         | None => lookup (joinpath Trees.root n)
                     [ (Trees.at_root ["factory"; "ModelFactoryTest.cpp"],
                        "class ModelFactoryTest;") ]
         end) /\
    (forall q, ~ In q (listed Trees.root TEST_FILES_TO_RENAME) ->
       lookup q (files (disk w'))
       = lookup q [ (Trees.at_root ["factory"; "ModelFactoryTest.cpp"],
                     "class ModelFactoryTest;") ]).
Proof.
  apply (@main_renames Trees.root
           (mkWorld (mkFS [ (Trees.at_root ["factory"; "ModelFactoryTest.cpp"],
                             "class ModelFactoryTest;") ]
                          [ Trees.root; Trees.at_root ["factory"] ]) [])).
  intros e He. unfold TEST_FILES_TO_RENAME in He. simpl in He.
  repeat (destruct He as [<-|He]; [vm_compute; auto|]). contradiction.
Defined.

End RenameFacts.
